(** * Token platform network handler: wallets, entry registry, artifacts

    A shallow embedding of [integration/nwo/token/fabric/fabric.go]
    (package [fabric]) and of the role enumeration of the identity
    provider (package [driver]).

    Go objects reached through pointers ([*Entry], [*Wallet], [*TMS]) live
    in heaps; a pointer is an index in its heap and a pointer outside the
    heap behaves as [nil].  A Go panic (runtime error or failed Gomega
    expectation) stops the run and leaves the store as it was at that
    point: a computation is a function from the store to an outcome and a
    store. *)

From Stdlib Require Import Ascii.
From stdpp Require Import gmap strings list fin_maps.

Set Default Goal Selector "!".

(** ** Data model *)

(** [driver.IdentityUsage] and its four constants. *)
Inductive IdentityUsage := IssuerRole | AuditorRole | OwnerRole | CertifierRole.

#[global] Instance IdentityUsage_eq_dec : EqDecision IdentityUsage.
Proof. solve_decision. Defined.

(** The numeric value [iota] gives each constant. *)
Definition usage_code (r : IdentityUsage) : nat :=
  match r with
  | IssuerRole => 0
  | AuditorRole => 1
  | OwnerRole => 2
  | CertifierRole => 3
  end.

(** Modelled from the spec: the declaration of [Identity] (and of
    [generators.Identity], which [Identity(id)] converts from) lives
    outside [fabric.go].  The spec gives a credential and a boolean
    [Default] flag.  A Go conversion between struct types needs identical
    fields, so the generator's records carry the flag too and the
    conversion copies it: one record type serves for both. *)
Record Identity := mkIdentity { Credential : string; Default : bool }.

#[global] Instance Identity_eq_dec : EqDecision Identity.
Proof. solve_decision. Defined.

(** [Wallet], with the four fields [GenerateCryptoMaterial] initialises. *)
Record Wallet := mkWallet {
  Certifiers : list Identity;
  Issuers : list Identity;
  Owners : list Identity;
  Auditors : list Identity
}.

(** [topology2.TMS], restricted to the fields this file reads. *)
Record TokenChaincodeOpts := mkTokenChaincode {
  Private : bool;
  DockerImage : string;
  Orgs : list string
}.

Record TMS := mkTMS {
  Network : string;
  Channel : string;
  Namespace : string;
  Driver : string;
  PublicParamsGenArgs : list string;
  TokenChaincode : TokenChaincodeOpts
}.

(** [topology2.ToOptions(node.PlatformOpts())] with its four accessors. *)
Record Options := mkOptions {
  opt_Issuers : list string;
  opt_Owners : list string;
  opt_Auditor : bool;
  opt_Certifier : bool
}.

(** [sfcnode.Node]: the field [Name], the method [ID()] and the options. *)
Record Node := mkNode {
  Name : string;
  ID : string;
  PlatformOpts : Options
}.

#[global] Instance Options_eq_dec : EqDecision Options.
Proof. solve_decision. Defined.
#[global] Instance Node_eq_dec : EqDecision Node.
Proof. solve_decision. Defined.

(** [topology.ChannelChaincode]: the constructor argument this file writes
    ([cc.Chaincode.Ctor]) and the rest of the descriptor. *)
Record ChannelChaincode := mkChannelChaincode {
  Ctor : string;
  cc_descriptor : string
}.

(** [TCC{Chaincode: chaincode}]. *)
Record TCC := mkTCC { Chaincode : ChannelChaincode }.

(** Pointers are heap indices. *)
Abbreviation ptr := nat.

(** [Entry]: [TMS *topology2.TMS], [TCC *TCC], [Wallets map[string]*Wallet]. *)
Record Entry := mkEntry {
  eTMS : ptr;
  eTCC : option TCC;
  eWallets : gmap string ptr
}.

(** A Go [error] value: [None] is [nil]. *)
Definition error := option string.

(** What stops a run. *)
Inductive GoPanic :=
| NilDereference
| IndexOutOfRange (site : IdentityUsage) (index : Z) (len : nat)
| ExpectationFailed
| TypeAssertionFailed
| CollaboratorPanic.

#[global] Instance GoPanic_eq_dec : EqDecision GoPanic.
Proof. solve_decision. Defined.

Inductive result (A : Type) :=
| Ok (a : A)
| Panic (e : GoPanic).
Arguments Ok {A} a.
Arguments Panic {A} e.

#[global] Instance result_eq_dec {A} `{EqDecision A} : EqDecision (result A).
Proof. solve_decision. Defined.

(** Effects a run performs on its collaborators and on the registry, in
    the order performed.  A generator event records the names passed and
    the records returned. *)
Inductive Event :=
| EvSetup (tms : ptr)
| EvGenerate (r : IdentityUsage) (tms : ptr) (node : Node)
    (names : list string) (ids : list Identity)
| EvStoreWallet (entry : ptr) (node_name : string) (wallet : ptr)
| EvPPGenerate (tms : ptr) (args : list string)
| EvMkdirAll (dir : string)
| EvWriteFile (path : string) (data : list Byte.byte)
| EvAddFPC (tms : ptr)
| EvTCCCtor (tms : ptr)
| EvPrepareTCC (tms : ptr)
| EvAddChaincode (tms : ptr)
| EvSetTCC (entry : ptr) (tcc : TCC).

Section Handler.

(** The state of the collaborators (generators, ledger platform) and of
    the file system are left abstract. *)
Context {ExtState FS : Type}.

(** [generators.CryptoMaterialGenerator]. *)
Record CryptoMaterialGenerator := mkCMG {
  Setup : TMS -> ExtState -> (string * error) * ExtState;
  GenerateIssuerIdentities :
    TMS -> Node -> list string -> ExtState -> list Identity * ExtState;
  GenerateOwnerIdentities :
    TMS -> Node -> list string -> ExtState -> list Identity * ExtState;
  GenerateAuditorIdentities :
    TMS -> Node -> list string -> ExtState -> list Identity * ExtState;
  GenerateCertifierIdentities :
    TMS -> Node -> list string -> ExtState -> list Identity * ExtState
}.

(** [generators.PublicParamsGenerator]. *)
Record PublicParamsGenerator := mkPPG {
  Generate : TMS -> list string -> ExtState -> (list Byte.byte * error) * ExtState
}.

(** The [tokenPlatform] interface as far as this file calls it.
    [FSCNodes] stands for the [Nodes] of the topology that
    [GetContext().TopologyByName(fsc.TopologyName)] returns, asserted to
    be a pointer to [fsc.Topology]; [None] when the assertion fails. *)
Record tokenPlatform := mkTokenPlatform {
  GetCryptoMaterialGenerator : string -> option CryptoMaterialGenerator;
  GetPublicParamsGenerators : string -> option PublicParamsGenerator;
  RootDir : string;
  FSCNodes : option (list Node);
  PublicParametersDir : string;
  PublicParametersFile : TMS -> string
}.

(** [os.MkdirAll] and [ioutil.WriteFile]: each returns an error value and
    the file system it leaves. *)
Record OS := mkOS {
  MkdirAll : string -> FS -> error * FS;
  WriteFile : string -> list Byte.byte -> FS -> error * FS
}.

(** The chaincode side of [GenerateArtifacts]: [p.Fabric(tms).Topology()
    .AddFPC], [p.TCCCtor], [p.PrepareTCC] and [p.Fabric(tms).Topology()
    .AddChaincode] are defined outside this file.  [AddFPC] and
    [AddChaincode] take the network name that [p.Fabric(tms)] selects the
    platform with; [None] is a panic raised inside the call. *)
Record ChaincodeOps := mkChaincodeOps {
  AddFPC : string -> string -> string -> list string -> ExtState ->
           option ChannelChaincode * ExtState;
  TCCCtor : TMS -> ExtState -> option string * ExtState;
  PrepareTCC : TMS -> ExtState -> option ChannelChaincode * ExtState;
  AddChaincode : string -> ChannelChaincode -> ExtState ->
                 option unit * ExtState
}.

(** The store: the handler's [Entries] map, the three heaps, the
    collaborators' state, the file system and the effects so far. *)
Record World := mkWorld {
  Entries : gmap string ptr;
  entries : list Entry;
  wallets : list Wallet;
  tmss : list TMS;
  ext : ExtState;
  fs : FS;
  trace : list Event
}.

(** ** Computations *)

Definition M (A : Type) : Type := World -> result A * World.

Definition ret {A} (a : A) : M A := fun w => (Ok a, w).

Definition bind {A B} (m : M A) (k : A -> M B) : M B :=
  fun w =>
    match m w with
    | (Ok a, w') => k a w'
    | (Panic e, w') => (Panic e, w')
    end.

Definition panic {A} (e : GoPanic) : M A := fun w => (Panic e, w).

Definition get : M World := fun w => (Ok w, w).

Definition modify (f : World -> World) : M unit := fun w => (Ok tt, f w).

End Handler.

Arguments CryptoMaterialGenerator : clear implicits.
Arguments PublicParamsGenerator : clear implicits.
Arguments tokenPlatform : clear implicits.
Arguments OS : clear implicits.
Arguments ChaincodeOps : clear implicits.
Arguments World : clear implicits.
Arguments M : clear implicits.

Declare Scope go_scope.
Delimit Scope go_scope with go.
Notation "x <- m ;; k" := (bind m (fun x => k))
  (at level 100, m at next level, right associativity) : go_scope.
Notation "m ;;; k" := (bind m (fun _ => k))
  (at level 100, right associativity) : go_scope.
Open Scope go_scope.

Section Operations.

Context {ExtState FS : Type}.
Variable TokenPlatform : tokenPlatform ExtState.
Variable sys : OS FS.
Variable fabric : ChaincodeOps ExtState.

(** [filepath.Join] of the Go standard library. *)
Variable filepath_Join : list string -> string.

#[local] Abbreviation World := (World ExtState FS).
#[local] Abbreviation M := (M ExtState FS).

(** *** Store access *)

Definition set_Entries (f : gmap string ptr -> gmap string ptr) (w : World) : World :=
  mkWorld (f (Entries w)) (entries w) (wallets w) (tmss w) (ext w) (fs w) (trace w).

Definition set_entries (f : list Entry -> list Entry) (w : World) : World :=
  mkWorld (Entries w) (f (entries w)) (wallets w) (tmss w) (ext w) (fs w) (trace w).

Definition set_wallets (f : list Wallet -> list Wallet) (w : World) : World :=
  mkWorld (Entries w) (entries w) (f (wallets w)) (tmss w) (ext w) (fs w) (trace w).

Definition set_ext (x : ExtState) (w : World) : World :=
  mkWorld (Entries w) (entries w) (wallets w) (tmss w) x (fs w) (trace w).

Definition set_fs (f : FS) (w : World) : World :=
  mkWorld (Entries w) (entries w) (wallets w) (tmss w) (ext w) f (trace w).

Definition log (ev : Event) (w : World) : World :=
  mkWorld (Entries w) (entries w) (wallets w) (tmss w) (ext w) (fs w) (trace w ++ [ev]).

Definition emit (ev : Event) : M unit := modify (log ev).

(** Dereferencing: a pointer outside its heap is a nil pointer. *)
Definition deref {A} (heap : World -> list A) (p : ptr) : M A :=
  fun w =>
    match heap w !! p with
    | Some a => (Ok a, w)
    | None => (Panic NilDereference, w)
    end.

(** [&Entry{...}] and [&Wallet{...}]: the new object goes at the end of
    its heap. *)
Definition new_entry (en : Entry) : M ptr :=
  fun w => (Ok (length (entries w)), set_entries (fun h => h ++ [en]) w).

Definition new_wallet (wl : Wallet) : M ptr :=
  fun w => (Ok (length (wallets w)), set_wallets (fun h => h ++ [wl]) w).

(** Writing through a pointer. *)
Definition update_entry (e : ptr) (f : Entry -> Entry) : M unit :=
  en <- deref entries e ;;
  modify (set_entries (fun h => <[e := f en]> h)).

Definition update_wallet (p : ptr) (f : Wallet -> Wallet) : M unit :=
  wl <- deref wallets p ;;
  modify (set_wallets (fun h => <[p := f wl]> h)).

(** [Expect(err).NotTo(HaveOccurred())].  A failed expectation is fatal:
    Gomega hands it to the fail handler, which panics. *)
Definition expect_no_error (err : error) : M unit :=
  match err with
  | None => ret tt
  | Some _ => panic ExpectationFailed
  end.

(** [for _, x := range l { body }]. *)
Fixpoint for_each {A} (l : list A) (body : A -> M unit) : M unit :=
  match l with
  | [] => ret tt
  | x :: l' => body x ;;; for_each l' body
  end.

(** *** The entry registry *)

(** [NewNetworkHandler]: the store of a fresh handler.  Its registry is
    empty; the caller's descriptors, the collaborators and the file system
    are as given.  The timeout, the chaincode path and the colour index of
    the handler play no part in the operations below. *)
Definition NewNetworkHandler (descriptors : list TMS) (x : ExtState) (d : FS) : World :=
  mkWorld ∅ [] [] descriptors x d [].

(** [tms.Network+tms.Channel+tms.Namespace]. *)
Definition entry_key (t : TMS) : string :=
  (Network t +:+ Channel t) +:+ Namespace t.

Definition GetEntry (tms : ptr) : M ptr :=
  t <- deref tmss tms ;;
  p <- get ;;
  match Entries p !! entry_key t with
  | Some entry => ret entry
  | None =>
      entry <- new_entry {| eTMS := tms; eTCC := None; eWallets := ∅ |} ;;
      modify (set_Entries (fun m => <[entry_key t := entry]> m)) ;;;
      ret entry
  end.

(** *** Wallets *)

Definition role_seq (r : IdentityUsage) (wl : Wallet) : list Identity :=
  match r with
  | IssuerRole => Issuers wl
  | AuditorRole => Auditors wl
  | OwnerRole => Owners wl
  | CertifierRole => Certifiers wl
  end.

Definition set_role_seq (r : IdentityUsage) (s : list Identity) (wl : Wallet) : Wallet :=
  match r with
  | IssuerRole => mkWallet (Certifiers wl) s (Owners wl) (Auditors wl)
  | AuditorRole => mkWallet (Certifiers wl) (Issuers wl) (Owners wl) s
  | OwnerRole => mkWallet (Certifiers wl) (Issuers wl) s (Auditors wl)
  | CertifierRole => mkWallet s (Issuers wl) (Owners wl) (Auditors wl)
  end.

(** The generator method each role calls. *)
Definition generate_method (r : IdentityUsage) (g : CryptoMaterialGenerator ExtState) :
    TMS -> Node -> list string -> ExtState -> list Identity * ExtState :=
  match r with
  | IssuerRole => GenerateIssuerIdentities g
  | AuditorRole => GenerateAuditorIdentities g
  | OwnerRole => GenerateOwnerIdentities g
  | CertifierRole => GenerateCertifierIdentities g
  end.

(** [cmGenerator.GenerateXIdentities(tms, node, names...)]. *)
Definition call_generate (r : IdentityUsage) (g : CryptoMaterialGenerator ExtState)
    (tms : ptr) (node : Node) (names : list string) : M (list Identity) :=
  t <- deref tmss tms ;;
  fun w =>
    let '(ids, x) := generate_method r g t node names (ext w) in
    (Ok ids, log (EvGenerate r tms node names ids) (set_ext x w)).

(** [wallet.X = append(wallet.X, Identity(id))]. *)
Definition append_identity (r : IdentityUsage) (wallet : ptr) (id : Identity) : M unit :=
  update_wallet wallet (fun wl => set_role_seq r (role_seq r wl ++ [id]) wl).

Definition mark_default (id : Identity) : Identity :=
  {| Credential := Credential id; Default := true |}.

(** [wallet.X[i].Default = true], with the bounds check of the index. *)
Definition set_Default (r : IdentityUsage) (wallet : ptr) (i : Z) : M unit :=
  wl <- deref wallets wallet ;;
  let s := role_seq r wl in
  if decide (0 ≤ i < Z.of_nat (length s))%Z then
    update_wallet wallet (set_role_seq r (alter mark_default (Z.to_nat i) s))
  else panic (IndexOutOfRange r i (length s)).

(** [ids[0]]. *)
Definition first_id (r : IdentityUsage) (ids : list Identity) : M Identity :=
  match ids with
  | id :: _ => ret id
  | [] => panic (IndexOutOfRange r 0 0)
  end.

(** The issuer block (lines 161-170) and the owner block (lines 172-182)
    of [GenerateCryptoMaterial]: the same statements on [wallet.Issuers]
    and [GenerateIssuerIdentities], on [wallet.Owners] and
    [GenerateOwnerIdentities]. *)
Definition multi_identity_block (r : IdentityUsage)
    (cmGenerator : CryptoMaterialGenerator ExtState) (tms : ptr) (node : Node)
    (wallet : ptr) (configured : list string) : M unit :=
  if decide (length configured ≠ 0) then
    let names := configured ++ [ID node] in
    ids <- call_generate r cmGenerator tms node names ;;
    for_each ids (fun id => append_identity r wallet id) ;;;
    wl <- deref wallets wallet ;;
    set_Default r wallet (Z.of_nat (length (role_seq r wl)) - 1)
  else ret tt.

(** The auditor block (lines 184-189) and the certifier block (lines
    191-196). *)
Definition single_identity_block (r : IdentityUsage)
    (cmGenerator : CryptoMaterialGenerator ExtState) (tms : ptr) (node : Node)
    (wallet : ptr) (enabled : bool) : M unit :=
  if enabled then
    ids <- call_generate r cmGenerator tms node [Name node] ;;
    id0 <- first_id r ids ;;
    append_identity r wallet id0 ;;;
    set_Default r wallet 0
  else ret tt.

(** [entry.Wallets[node.Name] = wallet]. *)
Definition store_wallet (entry : ptr) (name : string) (wallet : ptr) : M unit :=
  update_entry entry
    (fun en => mkEntry (eTMS en) (eTCC en) (<[name := wallet]> (eWallets en))) ;;;
  emit (EvStoreWallet entry name wallet).

Definition GenerateCryptoMaterial (cmGenerator : CryptoMaterialGenerator ExtState)
    (tms : ptr) (node : Node) : M unit :=
  entry <- GetEntry tms ;;
  let opts := PlatformOpts node in
  wallet <- new_wallet
    {| Certifiers := []; Issuers := []; Owners := []; Auditors := [] |} ;;
  store_wallet entry (Name node) wallet ;;;
  multi_identity_block IssuerRole cmGenerator tms node wallet (opt_Issuers opts) ;;;
  multi_identity_block OwnerRole cmGenerator tms node wallet (opt_Owners opts) ;;;
  single_identity_block AuditorRole cmGenerator tms node wallet (opt_Auditor opts) ;;;
  single_identity_block CertifierRole cmGenerator tms node wallet (opt_Certifier opts).

(** *** Paths *)

(** [fmt.Sprintf] for string operands and the verb [%s]: an operand
    replaces each verb and a doubled percent sign prints one; a verb
    without operand prints as missing and operands left over are reported
    at the end, as [fmt] does. *)
Fixpoint Sprintf (format : string) (args : list string) : string :=
  match format with
  | EmptyString =>
      match args with
      | [] => EmptyString
      | _ => "%!(EXTRA " +:+ String.concat ", " (map (String.append "string=") args) +:+ ")"
      end
  | String "%"%char (String "s"%char rest) =>
      match args with
      | a :: args' => a +:+ Sprintf rest args'
      | [] => "%!s(MISSING)" +:+ Sprintf rest []
      end
  | String "%"%char (String "%"%char rest) => String "%"%char (Sprintf rest args)
  | String c rest => String c (Sprintf rest args)
  end.

Definition FSCCertifierCryptoMaterialDir (tms : ptr) (peer : Node) : M string :=
  t <- deref tmss tms ;;
  ret (filepath_Join
         [ RootDir TokenPlatform;
           "crypto";
           "fsc";
           ID peer;
           "wallets";
           "certifier";
           Sprintf "%s_%s_%s_%s" [Network t; Channel t; Namespace t; Driver t] ]).

(** *** The artifact orchestrator *)

(** A method call on a nil interface value panics. *)
Definition non_nil {A} (o : option A) : M A :=
  match o with
  | Some a => ret a
  | None => panic NilDereference
  end.

(** [Expect(x).NotTo(BeNil(), ...)]. *)
Definition expect_not_nil {A} (o : option A) : M A :=
  match o with
  | Some a => ret a
  | None => panic ExpectationFailed
  end.

(** [x.(T)]. *)
Definition type_assert {A} (o : option A) : M A :=
  match o with
  | Some a => ret a
  | None => panic TypeAssertionFailed
  end.

(** A call into a collaborator: it is logged, changes the collaborators'
    state, and either returns or panics. *)
Definition call_ext {A} (ev : Event) (f : ExtState -> option A * ExtState) : M A :=
  fun w =>
    let '(o, x) := f (ext w) in
    let w' := log ev (set_ext x w) in
    match o with
    | Some a => (Ok a, w')
    | None => (Panic CollaboratorPanic, w')
    end.

Definition returns {A} (f : ExtState -> A * ExtState) : ExtState -> option A * ExtState :=
  fun x => let '(a, x') := f x in (Some a, x').

(** A call into the operating system. *)
Definition call_os (ev : Event) (f : FS -> error * FS) : M error :=
  fun w =>
    let '(err, d) := f (fs w) in
    (Ok err, log ev (set_fs d w)).

(** [entry.TCC = &TCC{Chaincode: chaincode}]. *)
Definition set_TCC (entry : ptr) (tcc : TCC) : M unit :=
  update_entry entry (fun en => mkEntry (eTMS en) (Some tcc) (eWallets en)) ;;;
  emit (EvSetTCC entry tcc).

(** [GenerateArtifacts], lines 83-94: the crypto material.  The generator
    is an interface value: calling [Setup] on a nil one panics. *)
Definition generate_wallets (tms : ptr) (t : TMS) : M string :=
  cmGenerator <- non_nil (GetCryptoMaterialGenerator TokenPlatform (Driver t)) ;;
  r <- call_ext (EvSetup tms) (returns (Setup cmGenerator t)) ;;
  let '(root, err) := r in
  expect_no_error err ;;;
  nodes <- type_assert (FSCNodes TokenPlatform) ;;
  for_each nodes (fun node => GenerateCryptoMaterial cmGenerator tms node) ;;;
  ret root.

(** [GenerateArtifacts], lines 96-110: the public parameters, generated,
    then stored. *)
Definition generate_public_parameters (tms : ptr) (t : TMS) (root : string) : M unit :=
  ppGenerator <- expect_not_nil (GetPublicParamsGenerators TokenPlatform (Driver t)) ;;
  let args := root :: PublicParamsGenArgs t in
  r <- call_ext (EvPPGenerate tms args) (returns (Generate ppGenerator t args)) ;;
  let '(ppRaw, err) := r in
  expect_no_error err ;;;
  let dir := PublicParametersDir TokenPlatform in
  err <- call_os (EvMkdirAll dir) (MkdirAll sys dir) ;;
  expect_no_error err ;;;
  let file := PublicParametersFile TokenPlatform t in
  err <- call_os (EvWriteFile file ppRaw) (WriteFile sys file ppRaw) ;;
  expect_no_error err.

(** [GenerateArtifacts], lines 112-126: the chaincode, private or not. *)
Definition prepare_chaincode (tms : ptr) (t : TMS) : M ChannelChaincode :=
  if Private (TokenChaincode t) then
    cc <- call_ext (EvAddFPC tms)
            (AddFPC fabric (Network t) (Namespace t) (DockerImage (TokenChaincode t))
                    (Orgs (TokenChaincode t))) ;;
    ctor <- call_ext (EvTCCCtor tms) (TCCCtor fabric t) ;;
    ret {| Ctor := ctor; cc_descriptor := cc_descriptor cc |}
  else
    chaincode <- call_ext (EvPrepareTCC tms) (PrepareTCC fabric t) ;;
    call_ext (EvAddChaincode tms) (AddChaincode fabric (Network t) chaincode) ;;;
    ret chaincode.

Definition GenerateArtifacts (tms : ptr) : M unit :=
  entry <- GetEntry tms ;;
  t <- deref tmss tms ;;
  root <- generate_wallets tms t ;;
  generate_public_parameters tms t root ;;;
  chaincode <- prepare_chaincode tms t ;;
  set_TCC entry {| Chaincode := chaincode |}.

(** [GenerateExtension], line 133: the function [Wallets] given to the
    template, [p.GetEntry(tms).Wallets[node.Name]].  Reading a map at a
    key it does not have gives the nil pointer.  The template itself, a
    constant of the package, is not part of the model. *)
Definition ExtensionWallets (tms : ptr) (node : Node) : M (option ptr) :=
  entry <- GetEntry tms ;;
  en <- deref entries entry ;;
  ret (eWallets en !! Name node).

End Operations.

#[global] Arguments entry_key : simpl never.

(** ** What a run of [GenerateCryptoMaterial] amounts to

    The blocks of [GenerateCryptoMaterial] touch one wallet, the
    collaborators' state and the trace.  The definitions below describe
    that effect as a function, against which the blocks are proved. *)

Section Summaries.

Context {ExtState FS : Type}.

(** Whether a node is configured for a role, and the names its generator
    is called with. *)
Definition role_enabled (r : IdentityUsage) (node : Node) : bool :=
  match r with
  | IssuerRole => bool_decide (length (opt_Issuers (PlatformOpts node)) ≠ 0)
  | OwnerRole => bool_decide (length (opt_Owners (PlatformOpts node)) ≠ 0)
  | AuditorRole => opt_Auditor (PlatformOpts node)
  | CertifierRole => opt_Certifier (PlatformOpts node)
  end.

Definition role_names (r : IdentityUsage) (node : Node) : list string :=
  match r with
  | IssuerRole => opt_Issuers (PlatformOpts node) ++ [ID node]
  | OwnerRole => opt_Owners (PlatformOpts node) ++ [ID node]
  | AuditorRole | CertifierRole => [Name node]
  end.

(** Outcome, wallet, collaborators' state and events of a block. *)
Definition Summary : Type := result unit * Wallet * ExtState * list Event.

Definition multi_summary (r : IdentityUsage) (g : CryptoMaterialGenerator ExtState)
    (t : TMS) (tms : ptr) (node : Node) (configured : list string)
    (wl : Wallet) (x : ExtState) : Summary :=
  if decide (length configured ≠ 0) then
    let names := configured ++ [ID node] in
    let '(ids, x') := generate_method r g t node names x in
    let s := role_seq r wl ++ ids in
    let i := (Z.of_nat (length s) - 1)%Z in
    if decide (0 ≤ i < Z.of_nat (length s))%Z then
      (Ok tt, set_role_seq r (alter mark_default (Z.to_nat i) s) wl, x',
       [EvGenerate r tms node names ids])
    else
      (Panic (IndexOutOfRange r i (length s)), set_role_seq r s wl, x',
       [EvGenerate r tms node names ids])
  else (Ok tt, wl, x, []).

Definition single_summary (r : IdentityUsage) (g : CryptoMaterialGenerator ExtState)
    (t : TMS) (tms : ptr) (node : Node) (enabled : bool)
    (wl : Wallet) (x : ExtState) : Summary :=
  if enabled then
    let '(ids, x') := generate_method r g t node [Name node] x in
    match ids with
    | [] => (Panic (IndexOutOfRange r 0 0), wl, x', [EvGenerate r tms node [Name node] ids])
    | id0 :: _ =>
        let s := role_seq r wl ++ [id0] in
        if decide (0 ≤ 0 < Z.of_nat (length s))%Z then
          (Ok tt, set_role_seq r (alter mark_default 0 s) wl, x',
           [EvGenerate r tms node [Name node] ids])
        else
          (Panic (IndexOutOfRange r 0 (length s)), set_role_seq r s wl, x',
           [EvGenerate r tms node [Name node] ids])
    end
  else (Ok tt, wl, x, []).

Definition and_then (s1 : Summary) (k : Wallet -> ExtState -> Summary) : Summary :=
  let '(res, wl, x, evs) := s1 in
  match res with
  | Ok _ => let '(res', wl', x', evs') := k wl x in (res', wl', x', evs ++ evs')
  | Panic e => (Panic e, wl, x, evs)
  end.

Definition empty_wallet : Wallet :=
  {| Certifiers := []; Issuers := []; Owners := []; Auditors := [] |}.

(** The block of each role, and the blocks in the order of the source. *)
Definition block_summary (r : IdentityUsage) (g : CryptoMaterialGenerator ExtState)
    (t : TMS) (tms : ptr) (node : Node) (wl : Wallet) (x : ExtState) : Summary :=
  match r with
  | IssuerRole =>
      multi_summary IssuerRole g t tms node (opt_Issuers (PlatformOpts node)) wl x
  | OwnerRole =>
      multi_summary OwnerRole g t tms node (opt_Owners (PlatformOpts node)) wl x
  | AuditorRole =>
      single_summary AuditorRole g t tms node (opt_Auditor (PlatformOpts node)) wl x
  | CertifierRole =>
      single_summary CertifierRole g t tms node (opt_Certifier (PlatformOpts node)) wl x
  end.

Fixpoint run_blocks (rs : list IdentityUsage) (g : CryptoMaterialGenerator ExtState)
    (t : TMS) (tms : ptr) (node : Node) (wl : Wallet) (x : ExtState) : Summary :=
  match rs with
  | [] => (Ok tt, wl, x, [])
  | r :: rs' => and_then (block_summary r g t tms node wl x) (run_blocks rs' g t tms node)
  end.

Definition block_order : list IdentityUsage :=
  [IssuerRole; OwnerRole; AuditorRole; CertifierRole].

Definition gcm_summary (g : CryptoMaterialGenerator ExtState) (t : TMS) (tms : ptr)
    (node : Node) (x : ExtState) : Summary :=
  run_blocks block_order g t tms node empty_wallet x.

(** The sequence a role ends with when its generator returned [ids]: the
    last record marked for issuers and owners, the first record alone and
    marked for auditors and certifiers. *)
Definition marked (r : IdentityUsage) (ids : list Identity) : list Identity :=
  match r with
  | IssuerRole | OwnerRole => alter mark_default (length ids - 1) ids
  | AuditorRole | CertifierRole => mark_default <$> take 1 ids
  end.

(** The index each role reads when its generator returned nothing. *)
Definition oob_index (r : IdentityUsage) : Z :=
  match r with
  | IssuerRole | OwnerRole => (-1)%Z
  | AuditorRole | CertifierRole => 0%Z
  end.

(** The store after a block whose summary is [(_, wl, x, evs)]. *)
Definition commit (wallet : ptr) (wl : Wallet) (x : ExtState) (evs : list Event)
    (w : World ExtState FS) : World ExtState FS :=
  mkWorld (Entries w) (entries w) (<[wallet := wl]> (wallets w)) (tmss w) x (fs w)
    (trace w ++ evs).

(** The store after [GenerateCryptoMaterial], from the store [w0] that
    [GetEntry] left, the entry [en] it returned and the blocks' summary. *)
Definition gcm_world (entry : ptr) (node : Node) (en : Entry) (wl : Wallet)
    (x : ExtState) (evs : list Event) (w0 : World ExtState FS) : World ExtState FS :=
  mkWorld (Entries w0)
    (<[entry := mkEntry (eTMS en) (eTCC en)
                  (<[Name node := length (wallets w0)]> (eWallets en))]> (entries w0))
    (wallets w0 ++ [wl]) (tmss w0) x (fs w0)
    (trace w0 ++ EvStoreWallet entry (Name node) (length (wallets w0)) :: evs).

(** A computation on the wallet at [wallet] does what a summary says. *)
Definition refines (tms : ptr) (t : TMS) (wallet : ptr)
    (m : M ExtState FS unit) (f : Wallet -> ExtState -> Summary) : Prop :=
  ∀ w wl, tmss w !! tms = Some t → wallets w !! wallet = Some wl →
    m w = let '(res, wl', x', evs) := f wl (ext w) in (res, commit wallet wl' x' evs w).

(** The store a creating call of [GetEntry] leaves. *)
Definition with_new_entry (tms : ptr) (t : TMS) (w : World ExtState FS) : World ExtState FS :=
  set_Entries (fun m => <[entry_key t := length (entries w)]> m)
    (set_entries (fun h => h ++ [ {| eTMS := tms; eTCC := None; eWallets := ∅ |} ]) w).

(** ** Vocabulary of the statements *)

(** The events a run added. *)
Definition new_events (w w' : World ExtState FS) : list Event :=
  drop (length (trace w)) (trace w').

(** The wallet object a run allocated: the first free slot of the heap. *)
Definition produced_wallet (w w' : World ExtState FS) : option Wallet :=
  wallets w' !! length (wallets w).

(** [entry.Wallets[name]], dereferenced. *)
Definition lookup_wallet (w : World ExtState FS) (entry : ptr) (name : string) : option Wallet :=
  en ← entries w !! entry; p ← eWallets en !! name; wallets w !! p.

(** The generator events of a role. *)
Definition is_generate (r : IdentityUsage) (ev : Event) : bool :=
  match ev with
  | EvGenerate r' _ _ _ _ => bool_decide (r' = r)
  | _ => false
  end.

Definition generator_calls (r : IdentityUsage) (evs : list Event) : list Event :=
  filter (fun ev => is_generate r ev = true) evs.

(** One record is the default and it is the last one. *)
Definition one_default_last (s : list Identity) : Prop :=
  ∃ s0 id, s = s0 ++ [id] ∧ Default id = true ∧ Forall (fun i => Default i = false) s0.

(** The number of records flagged as default. *)
Definition count_default (s : list Identity) : nat :=
  length (filter (fun i => Default i = true) s).

(** A generator event whose call returned at least one record. *)
Definition returned_some (ev : Event) : Prop :=
  match ev with
  | EvGenerate _ _ _ _ ids => ids ≠ []
  | _ => True
  end.

(** The names configured for a role with several identities. *)
Definition configured (r : IdentityUsage) (node : Node) : list string :=
  match r with
  | IssuerRole => opt_Issuers (PlatformOpts node)
  | OwnerRole => opt_Owners (PlatformOpts node)
  | AuditorRole | CertifierRole => []
  end.

(** A role for which the node has no membership: no name configured, or
    the flag off. *)
Definition no_membership (r : IdentityUsage) (node : Node) : Prop :=
  match r with
  | IssuerRole => opt_Issuers (PlatformOpts node) = []
  | OwnerRole => opt_Owners (PlatformOpts node) = []
  | AuditorRole => opt_Auditor (PlatformOpts node) = false
  | CertifierRole => opt_Certifier (PlatformOpts node) = false
  end.

(** The generator returns one record for each name it is given. *)
Definition one_per_name (g : CryptoMaterialGenerator ExtState) : Prop :=
  ∀ r t node names x,
    length (generate_method r g t node names x).1 = length names.

(** The generator never hands out a record already flagged as default. *)
Definition flags_clear (g : CryptoMaterialGenerator ExtState) : Prop :=
  ∀ r t node names x,
    Forall (fun i => Default i = false) (generate_method r g t node names x).1.

(** *** The states of an entry

    The states the spec names, and for each effect the state it works
    towards. *)
Inductive Phase := Empty | WalletsPopulated | ParametersPersisted | ContractDescriptorSet.

Definition phase_of (ev : Event) : Phase :=
  match ev with
  | EvSetup _ | EvGenerate _ _ _ _ _ | EvStoreWallet _ _ _ => WalletsPopulated
  | EvPPGenerate _ _ | EvMkdirAll _ | EvWriteFile _ _ => ParametersPersisted
  | EvAddFPC _ | EvTCCCtor _ | EvPrepareTCC _ | EvAddChaincode _ | EvSetTCC _ _ =>
      ContractDescriptorSet
  end.

Definition is_fs_event (ev : Event) : bool :=
  match ev with
  | EvMkdirAll _ | EvWriteFile _ _ => true
  | _ => false
  end.

Definition is_set_TCC (ev : Event) : bool :=
  match ev with
  | EvSetTCC _ _ => true
  | _ => false
  end.

(** What an effect does to the entry at [entry]. *)
Definition apply_event (entry : ptr) (en : Entry) (ev : Event) : Entry :=
  match ev with
  | EvStoreWallet e name wallet =>
      if decide (e = entry)
      then mkEntry (eTMS en) (eTCC en) (<[name := wallet]> (eWallets en))
      else en
  | EvSetTCC e tcc =>
      if decide (e = entry) then mkEntry (eTMS en) (Some tcc) (eWallets en) else en
  | _ => en
  end.

Definition replay (entry : ptr) (evs : list Event) (en : Entry) : Entry :=
  foldl (apply_event entry) en evs.

(** The node names whose wallet was stored, in order. *)
Definition stored_names (evs : list Event) : list string :=
  omap (fun ev => match ev with EvStoreWallet _ name _ => Some name | _ => None end) evs.

(** Every pointer of the registry is in the heap of entries. *)
Definition registry_wf (w : World ExtState FS) : Prop :=
  ∀ k e, Entries w !! k = Some e → is_Some (entries w !! e).

(** [w'] comes after [w]: a well-formed registry stays so, the descriptors
    are the same, the registry and the heap of entries only grew, the new
    events all satisfy [P], the file system is the same unless an event
    touched it, and the entry at [entry] is what the new events make of
    it. *)
Definition follows (P : Event -> Prop) (entry : ptr) (w w' : World ExtState FS) : Prop :=
  (registry_wf w → registry_wf w') ∧
  tmss w' = tmss w ∧
  length (entries w) ≤ length (entries w') ∧
  (∀ k e, Entries w !! k = Some e → Entries w' !! k = Some e) ∧
  ∃ evs,
    trace w' = trace w ++ evs ∧
    Forall P evs ∧
    (Forall (fun ev => is_fs_event ev = false) evs → fs w' = fs w) ∧
    (entry < length (entries w) →
     entries w' !! entry = replay entry evs <$> entries w !! entry).

Definition sound (P : Event -> Prop) (entry : ptr) {A} (m : M ExtState FS A) : Prop :=
  ∀ w, follows P entry w (m w).2.

(** The events of each stage of [GenerateArtifacts]. *)
Definition wallet_event (ev : Event) : Prop := phase_of ev = WalletsPopulated.
Definition params_event (ev : Event) : Prop := phase_of ev = ParametersPersisted.
Definition chaincode_event (ev : Event) : Prop :=
  phase_of ev = ContractDescriptorSet ∧ is_set_TCC ev = false.

Definition set_TCC_event (entry : ptr) (ev : Event) : Prop :=
  ∃ tcc, ev = EvSetTCC entry tcc.

(** What a run of [GenerateArtifacts] on the entry [entry], found as [en0],
    looks like from outside. *)
Definition run_in_phases (TokenPlatform : tokenPlatform ExtState) (tms : ptr) (t : TMS)
    (entry : ptr) (en0 : Entry) (w w' : World ExtState FS) (res : result unit) : Prop :=
  ∃ evs1 evs2 evs3,
    new_events w w' = evs1 ++ evs2 ++ evs3 ∧
    Forall (fun ev => phase_of ev = WalletsPopulated) evs1 ∧
    Forall (fun ev => phase_of ev = ParametersPersisted) evs2 ∧
    Forall (fun ev => phase_of ev = ContractDescriptorSet) evs3 ∧
    (evs2 ++ evs3 ≠ [] →
     ∃ nodes, FSCNodes TokenPlatform = Some nodes ∧ stored_names evs1 = Name <$> nodes) ∧
    (evs3 ≠ [] →
     ∃ root ppRaw,
       evs2 = [ EvPPGenerate tms (root :: PublicParamsGenArgs t);
                EvMkdirAll (PublicParametersDir TokenPlatform);
                EvWriteFile (PublicParametersFile TokenPlatform t) ppRaw ]) ∧
    entries w' !! entry = Some (replay entry (new_events w w') en0) ∧
    (res = Ok tt →
     ∃ evs3' tcc,
       evs3 = evs3' ++ [EvSetTCC entry tcc] ∧
       Forall (fun ev => is_set_TCC ev = false) (evs1 ++ evs2 ++ evs3') ∧
       eTCC <$> entries w' !! entry = Some (Some tcc)) ∧
    (res ≠ Ok tt →
     Forall (fun ev => is_set_TCC ev = false) (new_events w w') ∧
     eTCC <$> entries w' !! entry = Some (eTCC en0)).

(** *** Two statements about a run of [GenerateCryptoMaterial] *)

(** In the wallet a run stores under the node's name, every role that has
    records has exactly one default, the last. *)
Definition default_invariant (g : CryptoMaterialGenerator ExtState) (tms : ptr) (t : TMS)
    (node : Node) (w : World ExtState FS) : Prop :=
  ∀ w', GenerateCryptoMaterial g tms node w = (Ok tt, w') →
    ∃ entry wl,
      Entries w' !! entry_key t = Some entry ∧
      lookup_wallet w' entry (Name node) = Some wl ∧
      ∀ r, role_seq r wl ≠ [] →
        one_default_last (role_seq r wl) ∧ count_default (role_seq r wl) = 1.

(** For a role with [N] configured names, the generator is called once,
    with the names followed by the node's id, and the wallet stored under
    the node's name has [N + 1] records for the role: the records
    returned, the last one, the node's own, marked as default. *)
Definition multi_role_invariant (r : IdentityUsage) (N : nat)
    (g : CryptoMaterialGenerator ExtState) (tms : ptr) (t : TMS)
    (node : Node) (w : World ExtState FS) : Prop :=
  ∀ w', GenerateCryptoMaterial g tms node w = (Ok tt, w') →
    ∃ entry wl ids own,
      Entries w' !! entry_key t = Some entry ∧
      lookup_wallet w' entry (Name node) = Some wl ∧
      generator_calls r (new_events w w') =
        [EvGenerate r tms node (configured r node ++ [ID node]) ids] ∧
      length (role_seq r wl) = N + 1 ∧
      last ids = Some own ∧
      last (role_seq r wl) = Some (mark_default own) ∧
      role_seq r wl = alter mark_default N ids.

(** *** Vocabulary of the statements on isolation, order and deployment *)

(** Distinct keys of the registry point to distinct entries. *)
Definition registry_inj (w : World ExtState FS) : Prop :=
  ∀ k1 k2 e, Entries w !! k1 = Some e → Entries w !! k2 = Some e → k1 = k2.

(** The slot of a node name in an entry: [entry.Wallets[name]]. *)
Definition slot (w : World ExtState FS) (entry : ptr) (name : string) : option ptr :=
  en ← entries w !! entry; eWallets en !! name.

(** The roles whose generator was called, in the order of the calls. *)
Definition generated_roles (evs : list Event) : list IdentityUsage :=
  omap (fun ev => match ev with EvGenerate r _ _ _ _ => Some r | _ => None end) evs.

(** [w'] differs from [w] in the entry at [entry] and in new wallets only:
    the registry and the descriptors are the same, no entry was created,
    every other entry and every wallet object of [w] is as it was, and the
    entry at [entry] kept its descriptor. *)
Definition steady (entry : ptr) (w w' : World ExtState FS) : Prop :=
  Entries w' = Entries w ∧
  tmss w' = tmss w ∧
  length (entries w') = length (entries w) ∧
  (∀ e, e ≠ entry → entries w' !! e = entries w !! e) ∧
  (∀ en, entries w !! entry = Some en →
     ∃ en', entries w' !! entry = Some en' ∧ eTMS en' = eTMS en) ∧
  (∀ p wl, wallets w !! p = Some wl → wallets w' !! p = Some wl).

(** The effects of the contract descriptor stage: the calls on the ledger
    topology and the chaincode, and the assignment of the TCC. *)
Definition is_deployment (ev : Event) : bool :=
  match phase_of ev with
  | ContractDescriptorSet => true
  | _ => false
  end.

Definition deployment_events (evs : list Event) : list Event :=
  filter (fun ev => is_deployment ev = true) evs.

(** *** The stores a handler can reach *)

(** Every key of the registry points at an entry whose descriptor has
    that key. *)
Definition registry_keyed (w : World ExtState FS) : Prop :=
  ∀ k e, Entries w !! k = Some e →
    ∃ en t, entries w !! e = Some en ∧ tmss w !! eTMS en = Some t ∧ entry_key t = k.

Definition registry_sound (w : World ExtState FS) : Prop :=
  registry_wf w ∧ registry_inj w ∧ registry_keyed w.

(** A call of one of the handler's operations on the registry. *)
Inductive Call :=
  | CallGetEntry (tms : ptr)
  | CallGenerateCryptoMaterial (g : CryptoMaterialGenerator ExtState) (tms : ptr) (node : Node)
  | CallGenerateArtifacts (tms : ptr)
  | CallExtensionWallets (tms : ptr) (node : Node).

(** The store a call leaves, whether it returns or panics. *)
Definition perform (TokenPlatform : tokenPlatform ExtState) (sys : OS FS)
    (fabric : ChaincodeOps ExtState) (c : Call) (w : World ExtState FS) : World ExtState FS :=
  match c with
  | CallGetEntry tms => (GetEntry tms w).2
  | CallGenerateCryptoMaterial g tms node => (GenerateCryptoMaterial g tms node w).2
  | CallGenerateArtifacts tms => (GenerateArtifacts TokenPlatform sys fabric tms w).2
  | CallExtensionWallets tms node => (ExtensionWallets tms node w).2
  end.

Definition perform_all (TokenPlatform : tokenPlatform ExtState) (sys : OS FS)
    (fabric : ChaincodeOps ExtState) (calls : list Call) (w : World ExtState FS) :
    World ExtState FS :=
  foldl (fun w c => perform TokenPlatform sys fabric c w) w calls.

(** *** Vocabulary of the statements on the roles and on the states *)

(** The roles whose block comes before the block of [r]. *)
Definition earlier_roles (r : IdentityUsage) : list IdentityUsage :=
  match r with
  | IssuerRole => []
  | OwnerRole => [IssuerRole]
  | AuditorRole => [IssuerRole; OwnerRole]
  | CertifierRole => [IssuerRole; OwnerRole; AuditorRole]
  end.

(** C7 as stated: whatever the generator returns, the generator of an
    enabled auditor or certifier role is called with the node's name and
    the wallet holds for the role the first record returned, alone and
    marked as default. *)
Definition single_role_invariant (r : IdentityUsage)
    (g : CryptoMaterialGenerator ExtState) (tms : ptr) (t : TMS)
    (node : Node) (w : World ExtState FS) : Prop :=
  ∀ res w', GenerateCryptoMaterial g tms node w = (res, w') →
    ∃ entry wl id0 rest,
      Entries w' !! entry_key t = Some entry ∧
      lookup_wallet w' entry (Name node) = Some wl ∧
      generator_calls r (new_events w w') =
        [EvGenerate r tms node [Name node] (id0 :: rest)] ∧
      role_seq r wl = [ {| Credential := Credential id0; Default := true |} ] ∧
      length (role_seq r wl) = 1.

(** A wallet generated completely for a node: every role the node is
    configured for has records, every other role has none. *)
Definition complete_wallet (node : Node) (wl : Wallet) : Prop :=
  ∀ r, if role_enabled r node then role_seq r wl ≠ [] else role_seq r wl = [].

(** State [WalletsPopulated], of a run from [w] to [w']: the run allocated
    one wallet per node of the topology, in the order of the nodes, each
    complete for its node, and every node finds one of them under its name
    in the entry. *)
Definition wallets_populated (TokenPlatform : tokenPlatform ExtState) (entry : ptr)
    (w w' : World ExtState FS) : Prop :=
  ∃ nodes, FSCNodes TokenPlatform = Some nodes ∧
    length (wallets w') = length (wallets w) + length nodes ∧
    (∀ i node, nodes !! i = Some node →
       ∃ wl, wallets w' !! (length (wallets w) + i) = Some wl ∧ complete_wallet node wl) ∧
    (∀ node, node ∈ nodes →
       ∃ i, i < length nodes ∧ slot w' entry (Name node) = Some (length (wallets w) + i)).

(** State [ParametersPersisted]: the directory was made and the file
    written, both without error, with the bytes the generator returned for
    the root of [Setup] followed by the descriptor's arguments. *)
Definition parameters_persisted (TokenPlatform : tokenPlatform ExtState) (sys : OS FS)
    (t : TMS) (w w' : World ExtState FS) : Prop :=
  ∃ g root x0 ppg x ppRaw x' d1,
    GetCryptoMaterialGenerator TokenPlatform (Driver t) = Some g ∧
    Setup g t (ext w) = ((root, None), x0) ∧
    GetPublicParamsGenerators TokenPlatform (Driver t) = Some ppg ∧
    Generate ppg t (root :: PublicParamsGenArgs t) x = ((ppRaw, None), x') ∧
    MkdirAll sys (PublicParametersDir TokenPlatform) (fs w) = (None, d1) ∧
    WriteFile sys (PublicParametersFile TokenPlatform t) ppRaw d1 = (None, fs w').

(** The entry [entry], found as [en0] by a run from [w] to [w'], is in the
    state [ph]: untouched; with the wallets of all nodes; with the
    parameters persisted besides; with its TCC set by the last effect of
    the run besides. *)
Definition in_phase (TokenPlatform : tokenPlatform ExtState) (sys : OS FS) (t : TMS)
    (entry : ptr) (en0 : Entry) (w w' : World ExtState FS) (ph : Phase) : Prop :=
  match ph with
  | Empty => entries w' !! entry = Some en0
  | WalletsPopulated =>
      wallets_populated TokenPlatform entry w w' ∧
      eTCC <$> entries w' !! entry = Some (eTCC en0)
  | ParametersPersisted =>
      wallets_populated TokenPlatform entry w w' ∧
      parameters_persisted TokenPlatform sys t w w' ∧
      eTCC <$> entries w' !! entry = Some (eTCC en0)
  | ContractDescriptorSet =>
      wallets_populated TokenPlatform entry w w' ∧
      parameters_persisted TokenPlatform sys t w w' ∧
      ∃ tcc, eTCC <$> entries w' !! entry = Some (Some tcc) ∧
             last (new_events w w') = Some (EvSetTCC entry tcc)
  end.

(** The last clause of C6 as stated: a run that fails leaves the entry in
    one of the states. *)
Definition stays_in_completed_state (TokenPlatform : tokenPlatform ExtState) (sys : OS FS)
    (fabric : ChaincodeOps ExtState) (tms : ptr) (t : TMS) (w : World ExtState FS) : Prop :=
  ∀ entry w0 en0 res w',
    GetEntry tms w = (Ok entry, w0) →
    entries w0 !! entry = Some en0 →
    GenerateArtifacts TokenPlatform sys fabric tms w = (res, w') →
    res ≠ Ok tt →
    ∃ ph, in_phase TokenPlatform sys t entry en0 w w' ph.

(** The nodes whose wallet a run allocated and stored: the first nodes of
    the topology, each of which finds a wallet under its name. *)
Definition wallets_started (TokenPlatform : tokenPlatform ExtState) (entry : ptr)
    (w w' : World ExtState FS) : Prop :=
  ∃ started, started `prefix_of` default [] (FSCNodes TokenPlatform) ∧
    length (wallets w') = length (wallets w) + length started ∧
    ∀ node, node ∈ started → is_Some (lookup_wallet w' entry (Name node)).

(** The collaborators of each stage do their part: no call fails. *)
Definition wallet_stage_ok (TokenPlatform : tokenPlatform ExtState) (t : TMS) : Prop :=
  ∃ g nodes,
    GetCryptoMaterialGenerator TokenPlatform (Driver t) = Some g ∧
    FSCNodes TokenPlatform = Some nodes ∧
    (∀ x, (Setup g t x).1.2 = None) ∧
    (∀ node r x, node ∈ nodes → role_enabled r node = true →
       (generate_method r g t node (role_names r node) x).1 ≠ []).

Definition params_stage_ok (TokenPlatform : tokenPlatform ExtState) (sys : OS FS)
    (t : TMS) : Prop :=
  ∃ ppg,
    GetPublicParamsGenerators TokenPlatform (Driver t) = Some ppg ∧
    (∀ args x, (Generate ppg t args x).1.2 = None) ∧
    (∀ d, (MkdirAll sys (PublicParametersDir TokenPlatform) d).1 = None) ∧
    (∀ raw d, (WriteFile sys (PublicParametersFile TokenPlatform t) raw d).1 = None).

Definition chaincode_stage_ok (fabric : ChaincodeOps ExtState) (t : TMS) : Prop :=
  if Private (TokenChaincode t) then
    (∀ x, is_Some (AddFPC fabric (Network t) (Namespace t) (DockerImage (TokenChaincode t))
                     (Orgs (TokenChaincode t)) x).1) ∧
    (∀ x, is_Some (TCCCtor fabric t x).1)
  else
    (∀ x, is_Some (PrepareTCC fabric t x).1) ∧
    (∀ cc x, is_Some (AddChaincode fabric (Network t) cc x).1).

(** [w'] has the wallets of [w] and the same slots in the entry. *)
Definition same_wallets (entry : ptr) (w w' : World ExtState FS) : Prop :=
  wallets w' = wallets w ∧ ∀ name, slot w' entry name = slot w entry name.

End Summaries.

(** ** A concrete platform

    Collaborators small enough to run: generators that count their calls,
    a file system that is the list of the files written. *)

Definition demo_tms : TMS :=
  mkTMS "N1" "C1" "tokens" "zkat" [] (mkTokenChaincode false "" []).

(** The same network, channel and namespace, everything else different. *)
Definition demo_tms_drifted : TMS :=
  mkTMS "N1" "C1" "tokens" "fabtoken" ["32"] (mkTokenChaincode true "img" ["Org1"]).

Definition demo_node : Node :=
  mkNode "org1peer" "org1peer-id" (mkOptions ["alice"] [] true false).

Definition idle_node : Node :=
  mkNode "idle" "idle-id" (mkOptions [] [] false false).

(** One record per name, flagged or not. *)
Definition per_name (flag : bool) (prefix : string) :
    TMS -> Node -> list string -> nat -> list Identity * nat :=
  fun _ _ names x => (map (fun n => mkIdentity (prefix +:+ n) flag) names, S x).

Definition demo_generator : CryptoMaterialGenerator nat :=
  mkCMG (fun _ x => (("root", None), S x))
    (per_name false "issuer:") (per_name false "owner:")
    (per_name false "auditor:") (per_name false "certifier:").

(** A generator whose records are all flagged as default already. *)
Definition flagged_generator : CryptoMaterialGenerator nat :=
  mkCMG (fun _ x => (("root", None), S x))
    (per_name true "issuer:") (per_name true "owner:")
    (per_name true "auditor:") (per_name true "certifier:").

(** A generator that returns one record whatever the names. *)
Definition one_record : TMS -> Node -> list string -> nat -> list Identity * nat :=
  fun _ _ _ x => ([mkIdentity "only" false], S x).

Definition terse_generator : CryptoMaterialGenerator nat :=
  mkCMG (fun _ x => (("root", None), S x)) one_record one_record one_record one_record.

(** A generator that returns no record. *)
Definition no_record : TMS -> Node -> list string -> nat -> list Identity * nat :=
  fun _ _ _ x => ([], S x).

Definition silent_generator : CryptoMaterialGenerator nat :=
  mkCMG (fun _ x => (("root", None), S x)) no_record no_record no_record no_record.

Definition demo_files : Type := list (string * list Byte.byte).

Definition demo_os : OS demo_files :=
  mkOS (fun _ d => (None, d)) (fun path data d => (None, (path, data) :: d)).

Definition demo_ppg : PublicParamsGenerator nat :=
  mkPPG (fun _ _ x => (([Byte.x01; Byte.x02], None), S x)).

(** A platform with two nodes, with or without a generator of public
    parameters. *)
Definition demo_platform (with_ppg : bool) : tokenPlatform nat :=
  mkTokenPlatform
    (fun _ => Some demo_generator)
    (fun _ => if with_ppg then Some demo_ppg else None)
    "/tmp/nwo"
    (Some [demo_node; idle_node])
    "/tmp/nwo/pp"
    (fun t => "/tmp/nwo/pp/" +:+ Network t +:+ Channel t +:+ Namespace t +:+ "_" +:+ Driver t).

Definition demo_fabric : ChaincodeOps nat :=
  mkChaincodeOps
    (fun _ ns _ _ x => (Some (mkChannelChaincode "" ns), S x))
    (fun _ x => (Some "init", S x))
    (fun t x => (Some (mkChannelChaincode "init" (Namespace t)), S x))
    (fun _ _ x => (Some tt, S x)).

Definition demo_world : World nat demo_files :=
  NewNetworkHandler [demo_tms; demo_tms_drifted] 0 [].

(** The elements separated by slashes: what [filepath.Join] returns on
    clean, non-empty elements. *)
Definition slash_join (elems : list string) : string := String.concat "/" elems.

(** The stores the runs of the examples leave. *)
Definition demo_wallet_run : result unit * World nat demo_files :=
  GenerateCryptoMaterial demo_generator 0 demo_node demo_world.

Definition flagged_wallet_run : result unit * World nat demo_files :=
  GenerateCryptoMaterial flagged_generator 0 demo_node demo_world.

Definition terse_wallet_run : result unit * World nat demo_files :=
  GenerateCryptoMaterial terse_generator 0 demo_node demo_world.

Definition demo_artifacts_run : result unit * World nat demo_files :=
  GenerateArtifacts (demo_platform true) demo_os demo_fabric 0 demo_world.

(** The same for the second descriptor, whose token chaincode is private. *)
Definition demo_private_run : result unit * World nat demo_files :=
  GenerateArtifacts (demo_platform true) demo_os demo_fabric 1 demo_world.

(** A node that is auditor and nothing else, and the run that gets it no
    record. *)
Definition auditor_node : Node :=
  mkNode "auditor" "auditor-id" (mkOptions [] [] true false).

Definition silent_auditor_run : result unit * World nat demo_files :=
  GenerateCryptoMaterial silent_generator 0 auditor_node demo_world.

(** A node that is issuer and nothing else. *)
Definition issuer_node : Node :=
  mkNode "org2peer" "org2peer-id" (mkOptions ["bob"] [] false false).

(** A generator with records for issuers and owners, none for auditors and
    certifiers. *)
Definition half_generator : CryptoMaterialGenerator nat :=
  mkCMG (fun _ x => (("root", None), S x))
    (per_name false "issuer:") (per_name false "owner:") no_record no_record.

(** A platform whose second node asks for an auditor. *)
Definition half_platform : tokenPlatform nat :=
  mkTokenPlatform
    (fun _ => Some half_generator)
    (fun _ => Some demo_ppg)
    "/tmp/nwo"
    (Some [issuer_node; auditor_node])
    "/tmp/nwo/pp"
    (fun t => "/tmp/nwo/pp/" +:+ Network t +:+ Channel t +:+ Namespace t +:+ "_" +:+ Driver t).

Definition half_run : result unit * World nat demo_files :=
  GenerateArtifacts half_platform demo_os demo_fabric 0 demo_world.

(** Platforms whose setup fails: no generator of crypto material; a
    generator whose [Setup] returns an error; no FSC topology. *)
Definition platform_without_generator : tokenPlatform nat :=
  mkTokenPlatform
    (fun _ => None)
    (fun _ => Some demo_ppg)
    "/tmp/nwo"
    (Some [demo_node; idle_node])
    "/tmp/nwo/pp"
    (fun t => "/tmp/nwo/pp/" +:+ Network t +:+ Channel t +:+ Namespace t +:+ "_" +:+ Driver t).

Definition failing_setup_generator : CryptoMaterialGenerator nat :=
  mkCMG (fun _ x => (("root", Some "setup failed"), S x))
    (per_name false "issuer:") (per_name false "owner:")
    (per_name false "auditor:") (per_name false "certifier:").

Definition platform_with_failing_setup : tokenPlatform nat :=
  mkTokenPlatform
    (fun _ => Some failing_setup_generator)
    (fun _ => Some demo_ppg)
    "/tmp/nwo"
    (Some [demo_node; idle_node])
    "/tmp/nwo/pp"
    (fun t => "/tmp/nwo/pp/" +:+ Network t +:+ Channel t +:+ Namespace t +:+ "_" +:+ Driver t).

Definition platform_without_topology : tokenPlatform nat :=
  mkTokenPlatform
    (fun _ => Some demo_generator)
    (fun _ => Some demo_ppg)
    "/tmp/nwo"
    None
    "/tmp/nwo/pp"
    (fun t => "/tmp/nwo/pp/" +:+ Network t +:+ Channel t +:+ Namespace t +:+ "_" +:+ Driver t).

(** A ledger topology that refuses the chaincode. *)
Definition refusing_fabric : ChaincodeOps nat :=
  mkChaincodeOps
    (fun _ ns _ _ x => (Some (mkChannelChaincode "" ns), S x))
    (fun _ x => (Some "init", S x))
    (fun t x => (Some (mkChannelChaincode "init" (Namespace t)), S x))
    (fun _ _ x => (None, S x)).

(** * Properties *)

Section Properties.

Context {ExtState FS : Type}.
Implicit Types w : World ExtState FS.
Implicit Types t : TMS.
Implicit Types tms entry wallet : ptr.
Implicit Types wl : Wallet.
Implicit Types r : IdentityUsage.
Implicit Types g : CryptoMaterialGenerator ExtState.
Implicit Types x : ExtState.
Implicit Types node : Node.
Implicit Types P : Event → Prop.

(** ** Strings *)

Lemma string_app_assoc (a b c : string) : (a +:+ b) +:+ c = a +:+ (b +:+ c).
Proof.
  induction a as [|ch a IH]; [reflexivity|].
  change (String ch ((a +:+ b) +:+ c) = String ch (a +:+ (b +:+ c))).
  by rewrite IH.
Qed.

Lemma string_app_nil_r (a : string) : a +:+ "" = a.
Proof.
  induction a as [|ch a IH]; [reflexivity|].
  change (String ch (a +:+ "") = String ch a).
  by rewrite IH.
Qed.

(** ** The entry registry *)

Lemma GetEntry_nil w tms :
  tmss w !! tms = None → GetEntry tms w = (Panic NilDereference, w).
Proof. intros H. unfold GetEntry, bind, deref. by rewrite H. Qed.

Lemma GetEntry_found w tms t entry :
  tmss w !! tms = Some t →
  Entries w !! entry_key t = Some entry →
  GetEntry tms w = (Ok entry, w).
Proof.
  intros Ht He. unfold GetEntry, bind, deref, get. rewrite Ht. simpl.
  by rewrite He.
Qed.

Lemma GetEntry_fresh w tms t :
  tmss w !! tms = Some t →
  Entries w !! entry_key t = None →
  GetEntry tms w = (Ok (length (entries w)), with_new_entry tms t w).
Proof.
  intros Ht He. unfold GetEntry, bind, deref, get. rewrite Ht. simpl.
  by rewrite He.
Qed.

(** Whatever the registry held, after a call it maps the key to the entry
    returned, and that entry is returned again as long as the key stays. *)
Lemma GetEntry_registers w tms t entry w1 :
  tmss w !! tms = Some t →
  GetEntry tms w = (Ok entry, w1) →
  Entries w1 !! entry_key t = Some entry ∧ tmss w1 = tmss w.
Proof.
  intros Ht. destruct (Entries w !! entry_key t) as [e|] eqn:He.
  - rewrite (GetEntry_found _ _ _ _ Ht He). intros [= <- <-]. done.
  - rewrite (GetEntry_fresh _ _ _ Ht He). intros [= <- <-]. split; [|done].
    simpl. apply lookup_insert_eq.
Qed.

(** C3: two calls whose descriptors agree on network, channel and
    namespace return the same entry pointer, whatever their other fields;
    the second call changes nothing in the store, and when the first call
    created the entry, the entry holds the first descriptor. *)
Theorem GetEntry_first_write_wins w tms1 tms2 t1 t2 :
  tmss w !! tms1 = Some t1 →
  tmss w !! tms2 = Some t2 →
  Network t1 = Network t2 →
  Channel t1 = Channel t2 →
  Namespace t1 = Namespace t2 →
  ∃ entry w1,
    GetEntry tms1 w = (Ok entry, w1) ∧
    GetEntry tms2 w1 = (Ok entry, w1) ∧
    (Entries w !! entry_key t1 = None →
     entries w1 !! entry = Some {| eTMS := tms1; eTCC := None; eWallets := ∅ |}) ∧
    (is_Some (Entries w !! entry_key t1) → w1 = w).
Proof.
  intros H1 H2 Hn Hc Hs.
  assert (Hk : entry_key t2 = entry_key t1).
  { unfold entry_key. by rewrite Hn, Hc, Hs. }
  destruct (Entries w !! entry_key t1) as [e|] eqn:He.
  - exists e, w. rewrite (GetEntry_found _ _ _ _ H1 He).
    rewrite (GetEntry_found w tms2 t2 e H2); [|by rewrite Hk].
    split_and!; [done | done | done | done].
  - exists (length (entries w)), (with_new_entry tms1 t1 w).
    rewrite (GetEntry_fresh _ _ _ H1 He).
    split_and!.
    + done.
    + apply (GetEntry_found _ tms2 t2); [done|].
      rewrite Hk. simpl. apply lookup_insert_eq.
    + intros _. simpl. by apply list_lookup_middle.
    + intros [? [=]].
Qed.

(** C4: the key is the plain concatenation of network, channel and
    namespace; the registry maps it to the entry a call returns; two
    descriptors with different triples can share a key, and then share
    the entry; descriptors with different keys get different entries from
    an empty registry. *)
Theorem GetEntry_key_concatenation_collides :
  (∀ t, entry_key t = Network t +:+ Channel t +:+ Namespace t) ∧
  (∀ w tms t entry w1,
     tmss w !! tms = Some t →
     GetEntry tms w = (Ok entry, w1) →
     Entries w1 !! (Network t +:+ Channel t +:+ Namespace t) = Some entry) ∧
  (∃ t1 t2,
     (Network t1, Channel t1, Namespace t1) = ("a", "bc", "x") ∧
     (Network t2, Channel t2, Namespace t2) = ("ab", "c", "x") ∧
     ∀ w tms1 tms2,
       tmss w !! tms1 = Some t1 →
       tmss w !! tms2 = Some t2 →
       ∃ entry w1,
         GetEntry tms1 w = (Ok entry, w1) ∧ GetEntry tms2 w1 = (Ok entry, w1)) ∧
  (∀ w tms1 tms2 t1 t2,
     Entries w = ∅ →
     tmss w !! tms1 = Some t1 →
     tmss w !! tms2 = Some t2 →
     entry_key t1 ≠ entry_key t2 →
     ∃ entry1 entry2 w1 w2,
       GetEntry tms1 w = (Ok entry1, w1) ∧
       GetEntry tms2 w1 = (Ok entry2, w2) ∧
       entry1 ≠ entry2).
Proof.
  assert (Hkey : ∀ t, entry_key t = Network t +:+ Channel t +:+ Namespace t).
  { intros t. unfold entry_key. apply string_app_assoc. }
  split_and!.
  - exact Hkey.
  - intros w tms t entry w1 Ht Hrun. rewrite <- Hkey.
    by destruct (GetEntry_registers _ _ _ _ _ Ht Hrun).
  - set (t1 := mkTMS "a" "bc" "x" "" [] (mkTokenChaincode false "" [])).
    set (t2 := mkTMS "ab" "c" "x" "" [] (mkTokenChaincode false "" [])).
    exists t1, t2. split_and!; [done | done |].
    intros w tms1 tms2 H1 H2.
    destruct (GetEntry tms1 w) as [[entry|e] w1] eqn:Hrun.
    + destruct (GetEntry_registers _ _ _ _ _ H1 Hrun) as [He Hh].
      exists entry, w1. split; [done|].
      apply (GetEntry_found w1 tms2 t2 entry); [by rewrite Hh | exact He].
    + destruct (Entries w !! entry_key t1) eqn:He.
      * by rewrite (GetEntry_found _ _ _ _ H1 He) in Hrun.
      * by rewrite (GetEntry_fresh _ _ _ H1 He) in Hrun.
  - intros w tms1 tms2 t1 t2 Hempty H1 H2 Hne.
    assert (He1 : Entries w !! entry_key t1 = None) by (by rewrite Hempty).
    exists (length (entries w)), (S (length (entries w))),
      (with_new_entry tms1 t1 w),
      (with_new_entry tms2 t2 (with_new_entry tms1 t1 w)).
    split_and!.
    + by apply GetEntry_fresh.
    + rewrite (GetEntry_fresh (with_new_entry tms1 t1 w) tms2 t2).
      * simpl. rewrite length_app. simpl. by rewrite Nat.add_1_r.
      * done.
      * simpl. rewrite lookup_insert_ne; [by rewrite Hempty | done].
    + lia.
Qed.

(** ** Paths *)

(** C9: the directory of a node's certifier wallet is the join of the
    root directory, [crypto], [fsc], the node's id, [wallets], [certifier]
    and the four fields of the TMS separated by underscores. *)
Theorem FSCCertifierCryptoMaterialDir_layout
    (TokenPlatform : tokenPlatform ExtState) (filepath_Join : list string → string)
    w tms t (peer : Node) :
  tmss w !! tms = Some t →
  FSCCertifierCryptoMaterialDir TokenPlatform filepath_Join tms peer w =
    (Ok (filepath_Join
           [ RootDir TokenPlatform; "crypto"; "fsc"; ID peer; "wallets"; "certifier";
             Network t +:+ "_" +:+ Channel t +:+ "_" +:+ Namespace t +:+ "_" +:+ Driver t ]),
     w).
Proof.
  intros Ht. unfold FSCCertifierCryptoMaterialDir, bind, deref, ret.
  rewrite Ht. simpl. by rewrite string_app_nil_r.
Qed.

(** ** Wallets *)

Lemma role_seq_set r s wl : role_seq r (set_role_seq r s wl) = s.
Proof. by destruct r. Qed.

Lemma role_seq_set_ne r r' s wl : r ≠ r' → role_seq r' (set_role_seq r s wl) = role_seq r' wl.
Proof. by destruct r, r'. Qed.

Lemma set_role_seq_set r s s' wl : set_role_seq r s' (set_role_seq r s wl) = set_role_seq r s' wl.
Proof. by destruct r. Qed.

Lemma set_role_seq_id r wl : set_role_seq r (role_seq r wl) wl = wl.
Proof. by destruct r, wl. Qed.

Lemma commit_id wallet wl w :
  wallets w !! wallet = Some wl → commit wallet wl (ext w) [] w = w.
Proof.
  intros H. unfold commit. rewrite (list_insert_id _ _ _ H), app_nil_r. by destruct w.
Qed.

Lemma commit_lookup wallet wl wl' x evs w :
  wallets w !! wallet = Some wl →
  wallets (commit wallet wl' x evs w) !! wallet = Some wl'.
Proof.
  intros H. simpl. apply list_lookup_insert_eq. by eapply lookup_lt_Some.
Qed.

Lemma commit_commit wallet wl1 x1 evs1 wl2 x2 evs2 w :
  commit wallet wl2 x2 evs2 (commit wallet wl1 x1 evs1 w)
  = commit wallet wl2 x2 (evs1 ++ evs2) w.
Proof.
  unfold commit. simpl. by rewrite list_insert_insert_eq, app_assoc.
Qed.

Lemma update_wallet_run wallet f w wl :
  wallets w !! wallet = Some wl →
  update_wallet wallet f w = (Ok tt, commit wallet (f wl) (ext w) [] w).
Proof.
  intros H. unfold update_wallet, bind, deref, modify. rewrite H.
  unfold commit, set_wallets. by rewrite app_nil_r.
Qed.

Lemma append_loop r wallet ids : ∀ w wl,
  wallets w !! wallet = Some wl →
  for_each ids (fun id => append_identity r wallet id) w =
    (Ok tt, commit wallet (set_role_seq r (role_seq r wl ++ ids) wl) (ext w) [] w).
Proof.
  induction ids as [|id ids IH]; intros w wl H; simpl.
  - rewrite app_nil_r, set_role_seq_id. by rewrite (commit_id _ _ _ H).
  - unfold bind, append_identity. rewrite (update_wallet_run _ _ _ _ H).
    erewrite IH; [|by eapply commit_lookup].
    simpl ext. rewrite commit_commit, role_seq_set, set_role_seq_set.
    by rewrite <- app_assoc.
Qed.

Lemma set_Default_run r wallet i w wl :
  wallets w !! wallet = Some wl →
  set_Default r wallet i w =
    if decide (0 ≤ i < Z.of_nat (length (role_seq r wl)))%Z
    then (Ok tt, commit wallet (set_role_seq r (alter mark_default (Z.to_nat i) (role_seq r wl)) wl) (ext w) [] w)
    else (Panic (IndexOutOfRange r i (length (role_seq r wl))), w).
Proof.
  intros H. unfold set_Default, bind, deref. rewrite H. simpl.
  case_decide; [|done]. by rewrite (update_wallet_run _ _ _ _ H).
Qed.

Lemma call_generate_run r g tms t node names w :
  tmss w !! tms = Some t →
  call_generate r g tms node names w =
    (Ok (generate_method r g t node names (ext w)).1,
     log (EvGenerate r tms node names (generate_method r g t node names (ext w)).1)
       (set_ext (generate_method r g t node names (ext w)).2 w)).
Proof.
  intros H. unfold call_generate, bind, deref. rewrite H.
  by destruct (generate_method r g t node names (ext w)).
Qed.

Lemma multi_identity_block_run r g tms t node wallet configured w wl :
  tmss w !! tms = Some t →
  wallets w !! wallet = Some wl →
  multi_identity_block r g tms node wallet configured w =
    let '(res, wl', x', evs) := multi_summary r g t tms node configured wl (ext w) in
    (res, commit wallet wl' x' evs w).
Proof.
  intros Ht Hw. unfold multi_identity_block, multi_summary.
  case_decide; [|by rewrite (commit_id _ _ _ Hw)].
  unfold bind. rewrite (call_generate_run _ _ _ _ _ _ _ Ht).
  destruct (generate_method r g t node (configured ++ [ID node]) (ext w)) as [ids x'].
  simpl fst; simpl snd.
  erewrite append_loop; [|exact Hw].
  set (w1 := commit _ _ _ _ _).
  assert (H1 : wallets w1 !! wallet = Some (set_role_seq r (role_seq r wl ++ ids) wl)).
  { unfold w1. simpl. apply list_lookup_insert_eq. by eapply lookup_lt_Some. }
  unfold deref at 1. rewrite H1.
  rewrite (set_Default_run _ _ _ _ _ H1). rewrite role_seq_set.
  case_decide.
  - unfold w1, commit, log, set_ext. simpl.
    by rewrite !app_nil_r, list_insert_insert_eq, set_role_seq_set.
  - unfold w1, commit, log, set_ext. simpl. by rewrite !app_nil_r.
Qed.

Lemma single_identity_block_run r g tms t node wallet enabled w wl :
  tmss w !! tms = Some t →
  wallets w !! wallet = Some wl →
  single_identity_block r g tms node wallet enabled w =
    let '(res, wl', x', evs) := single_summary r g t tms node enabled wl (ext w) in
    (res, commit wallet wl' x' evs w).
Proof.
  intros Ht Hw. unfold single_identity_block, single_summary.
  destruct enabled; [|by rewrite (commit_id _ _ _ Hw)].
  unfold bind. rewrite (call_generate_run _ _ _ _ _ _ _ Ht).
  destruct (generate_method r g t node [Name node] (ext w)) as [ids x'].
  simpl fst; simpl snd.
  destruct ids as [|id0 ids]; simpl.
  - unfold commit, log, set_ext. simpl. by rewrite (list_insert_id _ _ _ Hw).
  - unfold append_identity.
    set (w1 := log _ _).
    assert (H1 : wallets w1 !! wallet = Some wl) by done.
    rewrite (update_wallet_run _ _ _ _ H1).
    erewrite set_Default_run; [|by eapply commit_lookup].
    rewrite role_seq_set.
    destruct (decide (0 ≤ 0 < Z.of_nat (length (role_seq r wl ++ [id0])))%Z).
    + unfold w1, commit, log, set_ext. simpl.
      by rewrite !app_nil_r, list_insert_insert_eq, set_role_seq_set.
    + unfold w1, commit, log, set_ext. simpl. by rewrite !app_nil_r.
Qed.

Lemma refines_bind tms t wallet (m1 m2 : M ExtState FS unit) f1 f2 :
  refines tms t wallet m1 f1 →
  refines tms t wallet m2 f2 →
  refines tms t wallet (m1 ;;; m2) (fun wl x => and_then (f1 wl x) f2).
Proof.
  intros H1 H2 w wl Ht Hw. unfold bind. rewrite (H1 w wl Ht Hw).
  unfold and_then.
  destruct (f1 wl (ext w)) as [[[res wl1] x1] evs1].
  destruct res as [[]|e]; [|done].
  rewrite (H2 (commit wallet wl1 x1 evs1 w) wl1); [|done|by eapply commit_lookup].
  simpl ext.
  destruct (f2 wl1 x1) as [[[res2 wl2] x2] evs2].
  by rewrite commit_commit.
Qed.

Lemma and_then_ret (s : @Summary ExtState) :
  and_then s (fun wl x => (Ok tt, wl, x, [])) = s.
Proof. destruct s as [[[[[]|e] wl] x] evs]; simpl; [by rewrite app_nil_r | done]. Qed.

Lemma refines_ret_r tms t wallet (m : M ExtState FS unit) f :
  refines tms t wallet m f →
  refines tms t wallet m (fun wl x => and_then (f wl x) (fun wl x => (Ok tt, wl, x, []))).
Proof. intros H w wl Ht Hw. rewrite and_then_ret. by apply H. Qed.

Lemma bind_ok {A B} (m : M ExtState FS A) (k : A → M ExtState FS B) w a w' :
  m w = (Ok a, w') → bind m k w = k a w'.
Proof. intros H. unfold bind. by rewrite H. Qed.

Lemma bind_panic {A B} (m : M ExtState FS A) (k : A → M ExtState FS B) w e w' :
  m w = (Panic e, w') → bind m k w = (Panic e, w').
Proof. intros H. unfold bind. by rewrite H. Qed.

Lemma store_wallet_run entry name wallet w en :
  entries w !! entry = Some en →
  store_wallet entry name wallet w =
    (Ok tt, log (EvStoreWallet entry name wallet)
              (set_entries (fun h => <[entry := mkEntry (eTMS en) (eTCC en)
                                         (<[name := wallet]> (eWallets en))]> h) w)).
Proof.
  intros H. unfold store_wallet, update_entry, bind, deref, modify, emit.
  by rewrite H.
Qed.

Lemma GenerateCryptoMaterial_run g tms t node w entry w0 en :
  tmss w !! tms = Some t →
  GetEntry tms w = (Ok entry, w0) →
  entries w0 !! entry = Some en →
  GenerateCryptoMaterial g tms node w =
    let '(res, wl, x, evs) := gcm_summary g t tms node (ext w0) in
    (res, gcm_world entry node en wl x evs w0).
Proof.
  intros Ht Hget Hen.
  destruct (GetEntry_registers _ _ _ _ _ Ht Hget) as [_ Htm].
  unfold GenerateCryptoMaterial.
  rewrite (bind_ok _ _ _ _ _ Hget).
  set (wp := length (wallets w0)).
  set (w1 := set_wallets (fun h => h ++ [empty_wallet]) w0).
  rewrite (bind_ok _ _ w0 wp w1); [|done].
  rewrite (bind_ok _ _ w1 tt _ (store_wallet_run entry (Name node) wp w1 en Hen)).
  set (w2 := log _ _).
  assert (Hw2 : wallets w2 !! wp = Some empty_wallet).
  { unfold w2. simpl. by apply list_lookup_middle. }
  assert (Ht2 : tmss w2 !! tms = Some t).
  { unfold w2. simpl. by rewrite Htm. }
  pose proof (refines_bind tms t wp _ _ _ _
    (fun w wl => multi_identity_block_run IssuerRole g tms t node wp (opt_Issuers (PlatformOpts node)) w wl)
    (refines_bind tms t wp _ _ _ _
      (fun w wl => multi_identity_block_run OwnerRole g tms t node wp (opt_Owners (PlatformOpts node)) w wl)
      (refines_bind tms t wp _ _ _ _
        (fun w wl => single_identity_block_run AuditorRole g tms t node wp (opt_Auditor (PlatformOpts node)) w wl)
        (refines_ret_r tms t wp _ _
          (fun w wl => single_identity_block_run CertifierRole g tms t node wp (opt_Certifier (PlatformOpts node)) w wl))))) as Hr.
  rewrite (Hr w2 empty_wallet Ht2 Hw2). clear Hr.
  change (and_then _ _) with (gcm_summary g t tms node (ext w2)).
  simpl ext.
  destruct (gcm_summary _ _ _ _ _) as [[[res wl] x] evs].
  f_equal. unfold commit, gcm_world, w2, w1, wp. simpl.
  f_equal.
  - by rewrite insert_app_r_alt, Nat.sub_diag.
  - by rewrite <- app_assoc.
Qed.



(** *** The blocks, as functions *)

Lemma multi_summary_spec r g t tms node cfg wl x res wl' x' evs :
  role_seq r wl = [] →
  multi_summary r g t tms node cfg wl x = (res, wl', x', evs) →
  (∀ r', r' ≠ r → role_seq r' wl' = role_seq r' wl) ∧
  if bool_decide (length cfg ≠ 0) then
    ∃ ids, generate_method r g t node (cfg ++ [ID node]) x = (ids, x') ∧
      evs = [EvGenerate r tms node (cfg ++ [ID node]) ids] ∧
      match ids with
      | [] => res = Panic (IndexOutOfRange r (-1) 0) ∧ role_seq r wl' = []
      | _ => res = Ok tt ∧ role_seq r wl' = alter mark_default (length ids - 1) ids
      end
  else res = Ok tt ∧ wl' = wl ∧ x' = x ∧ evs = [].
Proof.
  intros Hempty. unfold multi_summary.
  destruct (decide (length cfg ≠ 0)) as [Hc|Hc];
    [rewrite bool_decide_eq_true_2 by done|rewrite bool_decide_eq_false_2 by done].
  - destruct (generate_method _ _ _ _ _ _) as [ids x1]. rewrite Hempty. simpl app.
    case_decide as Hi; intros [= <- <- <- <-].
    + split; [intros r' Hr; by apply role_seq_set_ne|].
      exists ids. split; [done|]. split; [done|].
      destruct ids as [|id ids]; [simpl in Hi; lia|].
      split; [done|]. rewrite role_seq_set. f_equal. lia.
    + split; [intros r' Hr; by apply role_seq_set_ne|].
      exists ids. split; [done|]. split; [done|].
      destruct ids as [|id ids]; [by rewrite role_seq_set|]. simpl in Hi; lia.
  - intros [= <- <- <- <-]. done.
Qed.

Lemma single_summary_spec r g t tms node (enabled : bool) wl x res wl' x' evs :
  role_seq r wl = [] →
  single_summary r g t tms node enabled wl x = (res, wl', x', evs) →
  (∀ r', r' ≠ r → role_seq r' wl' = role_seq r' wl) ∧
  if enabled then
    ∃ ids, generate_method r g t node [Name node] x = (ids, x') ∧
      evs = [EvGenerate r tms node [Name node] ids] ∧
      match ids with
      | [] => res = Panic (IndexOutOfRange r 0 0) ∧ role_seq r wl' = []
      | _ => res = Ok tt ∧ role_seq r wl' = mark_default <$> take 1 ids
      end
  else res = Ok tt ∧ wl' = wl ∧ x' = x ∧ evs = [].
Proof.
  intros Hempty. unfold single_summary.
  destruct enabled; [|intros [= <- <- <- <-]; done].
  destruct (generate_method _ _ _ _ _ _) as [ids x1].
  destruct ids as [|id0 ids].
  - intros [= <- <- <- <-]. split; [done|]. exists []. done.
  - rewrite Hempty. simpl app. rewrite decide_True by (simpl; lia).
    intros [= <- <- <- <-].
    split; [intros r' Hr; by apply role_seq_set_ne|].
    exists (id0 :: ids). split; [done|]. split; [done|]. split; [done|].
    by rewrite role_seq_set.
Qed.

Lemma block_spec r g t tms node wl x res wl' x' evs :
  role_seq r wl = [] →
  block_summary r g t tms node wl x = (res, wl', x', evs) →
  (∀ r', r' ≠ r → role_seq r' wl' = role_seq r' wl) ∧
  if role_enabled r node then
    ∃ ids, generate_method r g t node (role_names r node) x = (ids, x') ∧
      evs = [EvGenerate r tms node (role_names r node) ids] ∧
      match ids with
      | [] => res = Panic (IndexOutOfRange r (oob_index r) 0) ∧ role_seq r wl' = []
      | _ => res = Ok tt ∧ role_seq r wl' = marked r ids
      end
  else res = Ok tt ∧ wl' = wl ∧ x' = x ∧ evs = [].
Proof.
  intros Hempty Hrun. destruct r.
  - exact (multi_summary_spec _ _ _ _ _ _ _ _ _ _ _ _ Hempty Hrun).
  - exact (single_summary_spec _ _ _ _ _ _ _ _ _ _ _ _ Hempty Hrun).
  - exact (multi_summary_spec _ _ _ _ _ _ _ _ _ _ _ _ Hempty Hrun).
  - exact (single_summary_spec _ _ _ _ _ _ _ _ _ _ _ _ Hempty Hrun).
Qed.

Lemma and_then_inv (s : @Summary ExtState) k res wl x evs :
  and_then s k = (res, wl, x, evs) →
  (∃ e, s = (Panic e, wl, x, evs) ∧ res = Panic e) ∨
  (∃ wl0 x0 evs0 evs1,
     s = (Ok tt, wl0, x0, evs0) ∧ k wl0 x0 = (res, wl, x, evs1) ∧ evs = evs0 ++ evs1).
Proof.
  destruct s as [[[[[]|e] wl0] x0] evs0]; simpl.
  - destruct (k wl0 x0) as [[[res1 wl1] x1] evs1] eqn:Hk.
    intros [= <- <- <- <-]. right. by exists wl0, x0, evs0, evs1.
  - intros [= <- <- <- <-]. left. by exists e.
Qed.

Lemma generator_calls_app r evs1 evs2 :
  generator_calls r (evs1 ++ evs2) = generator_calls r evs1 ++ generator_calls r evs2.
Proof. apply filter_app. Qed.

Lemma generator_calls_one r r' tms node names ids :
  generator_calls r [EvGenerate r' tms node names ids]
  = if decide (r' = r) then [EvGenerate r' tms node names ids] else [].
Proof.
  unfold generator_calls. rewrite filter_cons. simpl.
  case_bool_decide as H2.
  - rewrite decide_True by done. rewrite (decide_True (P := r' = r)) by done. done.
  - rewrite decide_False by done. rewrite (decide_False (P := r' = r)) by done. done.
Qed.

Lemma run_blocks_spec rs g t tms node :
  NoDup rs → ∀ wl x res wl' x' evs,
  (∀ r, r ∈ rs → role_seq r wl = []) →
  run_blocks rs g t tms node wl x = (res, wl', x', evs) →
  (∀ r, r ∉ rs → role_seq r wl' = role_seq r wl ∧ generator_calls r evs = []) ∧
  (∀ r, r ∈ rs → role_enabled r node = false →
     role_seq r wl' = [] ∧ generator_calls r evs = []) ∧
  (res = Ok tt → ∀ r, r ∈ rs → role_enabled r node = true →
     ∃ ids xr, ids ≠ [] ∧
       (generate_method r g t node (role_names r node) xr).1 = ids ∧
       generator_calls r evs = [EvGenerate r tms node (role_names r node) ids] ∧
       role_seq r wl' = marked r ids) ∧
  (res = Ok tt → Forall returned_some evs) ∧
  (res ≠ Ok tt → ∃ r xr, r ∈ rs ∧ role_enabled r node = true ∧
     (generate_method r g t node (role_names r node) xr).1 = [] ∧
     res = Panic (IndexOutOfRange r (oob_index r) 0) ∧
     EvGenerate r tms node (role_names r node) [] ∈ evs).
Proof.
  induction 1 as [|r0 rs Hnotin Hnodup IH]; intros wl x res wl' x' evs Hempty Hrun.
  - simpl in Hrun. injection Hrun as <- <- <- <-.
    split_and!; try done.
    + intros r Hr. by apply elem_of_nil in Hr.
    + intros _ r Hr. by apply elem_of_nil in Hr.
  - simpl in Hrun.
    assert (He0 : role_seq r0 wl = []) by (apply Hempty; left).
    apply and_then_inv in Hrun as [(e & Hb & ->)|(wl0 & x0 & evs0 & evs1 & Hb & Hk & ->)].
    + (* the block of r0 panics *)
      destruct (block_spec _ _ _ _ _ _ _ _ _ _ _ He0 Hb) as [Hframe Hr0].
      destruct (role_enabled r0 node) eqn:Hen; [|by destruct Hr0].
      destruct Hr0 as (ids & Hgen & -> & Hids).
      destruct ids as [|id ids]; [|by destruct Hids].
      destruct Hids as [[= ->] Hseq].
      split_and!.
      * intros r Hr. apply not_elem_of_cons in Hr as [Hne Hr].
        split; [by apply Hframe|].
        rewrite generator_calls_one. by rewrite decide_False.
      * intros r Hr Hdis.
        assert (r ≠ r0) by (intros ->; congruence).
        split; [rewrite Hframe by done; apply Hempty, Hr|].
        rewrite generator_calls_one. by rewrite decide_False.
      * done.
      * done.
      * intros _. exists r0, x. split_and!; [left | done | by rewrite Hgen | done | left].
    + (* the block of r0 returns *)
      destruct (block_spec _ _ _ _ _ _ _ _ _ _ _ He0 Hb) as [Hframe Hr0].
      assert (Hempty0 : ∀ r, r ∈ rs → role_seq r wl0 = []).
      { intros r Hr. rewrite Hframe; [apply Hempty; by right|]. intros ->. done. }
      destruct (IH _ _ _ _ _ _ Hempty0 Hk) as (IH1 & IH2 & IH3 & IH4 & IH5).
      assert (Hcalls0 : ∀ r, r ≠ r0 → generator_calls r evs0 = []).
      { intros r Hr. destruct (role_enabled r0 node).
        - destruct Hr0 as (ids & _ & -> & _). rewrite generator_calls_one.
          by rewrite decide_False.
        - by destruct Hr0 as (_ & _ & _ & ->). }
      split_and!.
      * intros r Hr. apply not_elem_of_cons in Hr as [Hne Hr].
        destruct (IH1 r Hr) as [-> Hc]. split; [by apply Hframe|].
        by rewrite generator_calls_app, Hc, Hcalls0.
      * intros r Hr Hdis. apply elem_of_cons in Hr as [->|Hr].
        -- rewrite Hdis in Hr0. destruct Hr0 as (_ & -> & _ & ->).
           destruct (IH1 r0 Hnotin) as [-> Hc]. split; [done|].
           by rewrite generator_calls_app, Hc.
        -- destruct (IH2 r Hr Hdis) as [-> Hc]. split; [done|].
           rewrite generator_calls_app, Hc, Hcalls0; [done|]. intros ->. done.
      * intros Hok r Hr Hen. apply elem_of_cons in Hr as [->|Hr].
        -- rewrite Hen in Hr0. destruct Hr0 as (ids & Hgen & -> & Hids).
           destruct ids as [|id ids]; [by destruct Hids|].
           destruct Hids as [_ Hseq].
           destruct (IH1 r0 Hnotin) as [Hs Hc].
           exists (id :: ids), x. split_and!; [done|by rewrite Hgen | |congruence].
           rewrite generator_calls_app, Hc, generator_calls_one.
           by rewrite decide_True.
        -- destruct (IH3 Hok r Hr Hen) as (ids & xr & Hne & Hgen & Hc & Hs).
           exists ids, xr. split_and!; [done|done| |done].
           rewrite generator_calls_app, Hc, Hcalls0; [done|]. intros ->. done.
      * intros Hok. apply Forall_app. split; [|by apply IH4].
        destruct (role_enabled r0 node).
        -- destruct Hr0 as (ids & _ & -> & Hids).
           destruct ids as [|id ids]; [by destruct Hids|].
           by repeat constructor.
        -- destruct Hr0 as (_ & _ & _ & ->). constructor.
      * intros Hne. destruct (IH5 Hne) as (r & xr & Hr & Hen & Hgen & Hres & Hin).
        exists r, xr. split_and!; [by right | done | done | done |].
        apply elem_of_app. by right.
Qed.


(** *** Runs of [GenerateCryptoMaterial] *)

Lemma GetEntry_frame w tms res w0 :
  GetEntry tms w = (res, w0) →
  tmss w0 = tmss w ∧ wallets w0 = wallets w ∧ ext w0 = ext w ∧ fs w0 = fs w ∧
  trace w0 = trace w.
Proof.
  destruct (tmss w !! tms) as [t|] eqn:Ht.
  - destruct (Entries w !! entry_key t) as [e|] eqn:He.
    + rewrite (GetEntry_found _ _ _ _ Ht He). by intros [= <- <-].
    + rewrite (GetEntry_fresh _ _ _ Ht He). by intros [= <- <-].
  - rewrite (GetEntry_nil _ _ Ht). by intros [= <- <-].
Qed.

Lemma GetEntry_returns w tms t :
  tmss w !! tms = Some t → ∃ entry w0, GetEntry tms w = (Ok entry, w0).
Proof.
  intros Ht. destruct (Entries w !! entry_key t) as [e|] eqn:He.
  - exists e, w. exact (GetEntry_found _ _ _ _ Ht He).
  - eexists _, _. exact (GetEntry_fresh _ _ _ Ht He).
Qed.

Lemma GetEntry_valid w tms t entry w0 :
  tmss w !! tms = Some t → registry_wf w →
  GetEntry tms w = (Ok entry, w0) → is_Some (entries w0 !! entry).
Proof.
  intros Ht Hwf. destruct (Entries w !! entry_key t) as [e|] eqn:He.
  - rewrite (GetEntry_found _ _ _ _ Ht He). intros [= <- <-]. by eapply Hwf.
  - rewrite (GetEntry_fresh _ _ _ Ht He). intros [= <- <-]. simpl.
    rewrite list_lookup_middle; done.
Qed.

Lemma GenerateCryptoMaterial_dangling g tms node w entry w0 :
  GetEntry tms w = (Ok entry, w0) →
  entries w0 !! entry = None →
  GenerateCryptoMaterial g tms node w =
    (Panic NilDereference, set_wallets (fun h => h ++ [empty_wallet]) w0).
Proof.
  intros Hget Hen. unfold GenerateCryptoMaterial.
  rewrite (bind_ok _ _ _ _ _ Hget).
  rewrite (bind_ok _ _ w0 (length (wallets w0)) (set_wallets (fun h => h ++ [empty_wallet]) w0)); [|done].
  unfold store_wallet, update_entry.
  apply bind_panic. apply bind_panic. apply bind_panic.
  unfold deref. simpl. by rewrite Hen.
Qed.

(** What a run that returns leaves behind. *)
Lemma GenerateCryptoMaterial_ok g tms t node w w' :
  tmss w !! tms = Some t →
  GenerateCryptoMaterial g tms node w = (Ok tt, w') →
  ∃ entry wl x evs,
    gcm_summary g t tms node (ext w) = (Ok tt, wl, x, evs) ∧
    Entries w' !! entry_key t = Some entry ∧
    lookup_wallet w' entry (Name node) = Some wl ∧
    produced_wallet w w' = Some wl ∧
    new_events w w' = EvStoreWallet entry (Name node) (length (wallets w)) :: evs.
Proof.
  intros Ht Hrun.
  destruct (GetEntry_returns _ _ _ Ht) as (entry & w0 & Hget).
  destruct (GetEntry_frame _ _ _ _ Hget) as (Htm & Hwal & Hext & Hfs & Htr).
  destruct (GetEntry_registers _ _ _ _ _ Ht Hget) as [Hkey _].
  destruct (entries w0 !! entry) as [en|] eqn:Hen.
  - rewrite (GenerateCryptoMaterial_run _ _ _ _ _ _ _ _ Ht Hget Hen) in Hrun.
    rewrite Hext in Hrun.
    destruct (gcm_summary g t tms node (ext w)) as [[[res wl] x] evs].
    injection Hrun as -> <-.
    exists entry, wl, x, evs. split_and!.
    + done.
    + done.
    + unfold lookup_wallet, gcm_world. simpl.
      rewrite list_lookup_insert_eq by (by eapply lookup_lt_Some). simpl.
      rewrite lookup_insert_eq. simpl. by apply list_lookup_middle.
    + unfold produced_wallet, gcm_world. simpl. rewrite <- Hwal.
      by apply list_lookup_middle.
    + unfold new_events, gcm_world. simpl. rewrite Htr, Hwal.
      by rewrite drop_app_length.
  - by rewrite (GenerateCryptoMaterial_dangling _ _ _ _ _ _ Hget Hen) in Hrun.
Qed.

(** What any run on a well-formed registry leaves behind. *)
Lemma GenerateCryptoMaterial_any g tms t node w :
  tmss w !! tms = Some t →
  registry_wf w →
  ∃ entry res wl x evs w',
    gcm_summary g t tms node (ext w) = (res, wl, x, evs) ∧
    GenerateCryptoMaterial g tms node w = (res, w') ∧
    Entries w' !! entry_key t = Some entry ∧
    lookup_wallet w' entry (Name node) = Some wl ∧
    produced_wallet w w' = Some wl ∧
    new_events w w' = EvStoreWallet entry (Name node) (length (wallets w)) :: evs.
Proof.
  intros Ht Hwf.
  destruct (GetEntry_returns _ _ _ Ht) as (entry & w0 & Hget).
  destruct (GetEntry_frame _ _ _ _ Hget) as (Htm & Hwal & Hext & Hfs & Htr).
  destruct (GetEntry_registers _ _ _ _ _ Ht Hget) as [Hkey _].
  destruct (GetEntry_valid _ _ _ _ _ Ht Hwf Hget) as [en Hen].
  pose proof (GenerateCryptoMaterial_run g _ _ node _ _ _ _ Ht Hget Hen) as Hrun.
  rewrite Hext in Hrun.
  destruct (gcm_summary g t tms node (ext w)) as [[[res wl] x] evs].
  exists entry, res, wl, x, evs, (gcm_world entry node en wl x evs w0). split_and!.
  - done.
  - done.
  - done.
  - unfold lookup_wallet, gcm_world. simpl.
    rewrite list_lookup_insert_eq by (by eapply lookup_lt_Some). simpl.
    rewrite lookup_insert_eq. simpl. by apply list_lookup_middle.
  - unfold produced_wallet, gcm_world. simpl. rewrite <- Hwal.
    by apply list_lookup_middle.
  - unfold new_events, gcm_world. simpl. rewrite Htr, Hwal.
    by rewrite drop_app_length.
Qed.

Lemma block_order_NoDup : NoDup block_order.
Proof. unfold block_order. compute_done. Qed.

Lemma block_order_all r : r ∈ block_order.
Proof. unfold block_order. destruct r; compute_done. Qed.

Lemma empty_wallet_empty r : role_seq r empty_wallet = [].
Proof. by destruct r. Qed.


Lemma gcm_summary_spec g t tms node x res wl x' evs :
  gcm_summary g t tms node x = (res, wl, x', evs) →
  (∀ r, role_enabled r node = false →
     role_seq r wl = [] ∧ generator_calls r evs = []) ∧
  (res = Ok tt → ∀ r, role_enabled r node = true →
     ∃ ids xr, ids ≠ [] ∧
       (generate_method r g t node (role_names r node) xr).1 = ids ∧
       generator_calls r evs = [EvGenerate r tms node (role_names r node) ids] ∧
       role_seq r wl = marked r ids) ∧
  (res = Ok tt → Forall returned_some evs) ∧
  (res ≠ Ok tt → ∃ r xr, role_enabled r node = true ∧
     (generate_method r g t node (role_names r node) xr).1 = [] ∧
     res = Panic (IndexOutOfRange r (oob_index r) 0) ∧
     EvGenerate r tms node (role_names r node) [] ∈ evs).
Proof.
  intros Hrun.
  destruct (run_blocks_spec block_order g t tms node block_order_NoDup
              empty_wallet x res wl x' evs (fun r _ => empty_wallet_empty r) Hrun)
    as (_ & H2 & H3 & H4 & H5).
  split_and!.
  - intros r. apply H2, block_order_all.
  - intros Hok r. apply (H3 Hok), block_order_all.
  - done.
  - intros Hne. destruct (H5 Hne) as (r & xr & _ & H). by exists r, xr.
Qed.

Lemma nonempty_snoc {A} (l : list A) : l ≠ [] → ∃ l0 a, l = l0 ++ [a].
Proof.
  induction l as [|a l IH] using rev_ind; [done|]. intros _. by exists l, a.
Qed.

Lemma marked_one_default r ids :
  ids ≠ [] → Forall (fun i => Default i = false) ids → one_default_last (marked r ids).
Proof.
  intros Hne Hall.
  assert (Hmulti : one_default_last (alter mark_default (length ids - 1) ids)).
  { destruct (nonempty_snoc ids Hne) as (s0 & id & ->).
    exists s0, (mark_default id). split_and!.
    - rewrite length_app. simpl. rewrite Nat.add_sub.
      rewrite <- (Nat.add_0_r (length s0)) at 1. by rewrite alter_app_r.
    - done.
    - by apply Forall_app in Hall as [? _]. }
  assert (Hsingle : one_default_last (mark_default <$> take 1 ids)).
  { destruct ids as [|id0 ids]; [done|]. by exists [], (mark_default id0). }
  by destruct r.
Qed.

Lemma one_default_last_count s : one_default_last s → count_default s = 1.
Proof.
  intros (s0 & id & -> & Hid & Hall). unfold count_default.
  rewrite filter_app, length_app.
  replace (filter (λ i, Default i = true) s0) with (@nil Identity).
  - rewrite filter_cons. by rewrite decide_True.
  - induction Hall as [|i s0 Hi _ IH]; [done|].
    rewrite filter_cons. rewrite decide_False by (by rewrite Hi). done.
Qed.

(** C1 (amended): when the generator hands out no record already flagged
    as default, in the wallet a run of [GenerateCryptoMaterial] stores
    under the node's name every role with a non-empty sequence has exactly
    one record with [Default = true], and it is the last record of the
    sequence. *)
Theorem default_is_unique_and_last g tms t node w :
  flags_clear g →
  tmss w !! tms = Some t →
  default_invariant g tms t node w.
Proof.
  intros Hflags Ht w' Hrun.
  destruct (GenerateCryptoMaterial_ok _ _ _ _ _ _ Ht Hrun)
    as (entry & wl & x & evs & Hsum & Hkey & Hlook & _ & Hev).
  destruct (gcm_summary_spec _ _ _ _ _ _ _ _ _ Hsum) as (Hdis & Hen & _ & _).
  exists entry, wl. split_and!; [done | done |].
  intros r Hne.
  destruct (role_enabled r node) eqn:Hr.
  - destruct (Hen eq_refl r Hr) as (ids & xr & Hids & Hgen & Hcalls & Hseq).
    assert (Hone : one_default_last (role_seq r wl)).
    { rewrite Hseq. apply marked_one_default; [done|]. rewrite <- Hgen. apply Hflags. }
    split; [done | by apply one_default_last_count].
  - by destruct (Hdis r Hr) as [? _].
Qed.

Lemma role_names_nonempty r node : role_names r node ≠ [].
Proof.
  destruct r; simpl; try done; intros H; apply app_eq_nil in H as [_ H]; done.
Qed.

Lemma marked_nil r : marked r [] = [].
Proof. by destruct r. Qed.

(** What the run made of a configured role, whatever its outcome: the
    block of the role was reached, and then the generator was called once
    and the sequence is what the block makes of the records returned; or an
    earlier block stopped the run. *)
Lemma run_blocks_reached rs g t tms node :
  NoDup rs → ∀ wl x res wl' x' evs,
  (∀ r, r ∈ rs → role_seq r wl = []) →
  run_blocks rs g t tms node wl x = (res, wl', x', evs) →
  ∀ r, r ∈ rs → role_enabled r node = true →
    (∃ ids xr,
       (generate_method r g t node (role_names r node) xr).1 = ids ∧
       generator_calls r evs = [EvGenerate r tms node (role_names r node) ids] ∧
       role_seq r wl' = marked r ids ∧
       (ids = [] → res = Panic (IndexOutOfRange r (oob_index r) 0))) ∨
    (generator_calls r evs = [] ∧ role_seq r wl' = [] ∧
     ∃ r' l1 l2, rs = l1 ++ r' :: l2 ∧ r ∈ l2 ∧ role_enabled r' node = true ∧
       res = Panic (IndexOutOfRange r' (oob_index r') 0)).
Proof.
  induction 1 as [|r0 rs Hnotin Hnodup IH]; intros wl x res wl' x' evs Hempty Hrun r Hr Hena.
  - by apply elem_of_nil in Hr.
  - simpl in Hrun.
    assert (He0 : role_seq r0 wl = []) by (apply Hempty; left).
    apply and_then_inv in Hrun as [(e & Hb & ->)|(wl0 & x0 & evs0 & evs1 & Hb & Hk & ->)].
    + destruct (block_spec _ _ _ _ _ _ _ _ _ _ _ He0 Hb) as [Hframe Hr0].
      destruct (role_enabled r0 node) eqn:Hen0; [|by destruct Hr0].
      destruct Hr0 as (ids & Hgen & -> & Hids).
      destruct ids as [|id ids]; [|by destruct Hids].
      destruct Hids as [He Hseq].
      apply elem_of_cons in Hr as [->|Hr].
      * left. exists [], x. rewrite Hgen. split_and!; [done| |by rewrite marked_nil|done].
        rewrite generator_calls_one. by rewrite decide_True.
      * right. assert (Hne : r0 ≠ r) by (intros ->; done). split_and!.
        -- rewrite generator_calls_one. by rewrite decide_False.
        -- rewrite Hframe by done. apply Hempty. by right.
        -- exists r0, [], rs. by split_and!.
    + destruct (block_spec _ _ _ _ _ _ _ _ _ _ _ He0 Hb) as [Hframe Hr0].
      assert (Hempty0 : ∀ r, r ∈ rs → role_seq r wl0 = []).
      { intros r1 Hr1. rewrite Hframe; [apply Hempty; by right|]. intros ->. done. }
      assert (Hcalls0 : ∀ r, r ≠ r0 → generator_calls r evs0 = []).
      { intros r1 Hr1. destruct (role_enabled r0 node).
        - destruct Hr0 as (ids & _ & -> & _). rewrite generator_calls_one.
          by rewrite decide_False.
        - by destruct Hr0 as (_ & _ & _ & ->). }
      destruct (run_blocks_spec rs g t tms node Hnodup _ _ _ _ _ _ Hempty0 Hk)
        as (Hout & _).
      apply elem_of_cons in Hr as [->|Hr].
      * rewrite Hena in Hr0. destruct Hr0 as (ids & Hgen & -> & Hids).
        destruct ids as [|id ids]; [by destruct Hids|].
        destruct Hids as [_ Hseq].
        destruct (Hout r0 Hnotin) as [Hs Hc].
        left. exists (id :: ids), x. rewrite Hgen. split_and!; [done| |congruence|done].
        rewrite generator_calls_app, Hc, generator_calls_one.
        by rewrite decide_True.
      * assert (Hne : r ≠ r0) by (intros ->; done).
        destruct (IH _ _ _ _ _ _ Hempty0 Hk r Hr Hena)
          as [(ids & xr & Hgen & Hc & Hs & Hnil)|(Hc & Hs & r' & l1 & l2 & -> & Hin & Hen' & Hres)].
        -- left. exists ids, xr. split_and!; [done| |done|done].
           by rewrite generator_calls_app, Hc, Hcalls0.
        -- right. split_and!; [by rewrite generator_calls_app, Hc, Hcalls0|done|].
           exists r', (r0 :: l1), l2. by split_and!.
Qed.

Lemma block_order_earlier r r' l1 l2 :
  block_order = l1 ++ r' :: l2 → r ∈ l2 → r' ∈ earlier_roles r.
Proof.
  unfold block_order. intros Heq Hin.
  destruct l1 as [|a [|b [|c [|d l1]]]]; simpl in Heq; injection Heq as; subst; simpl;
    repeat match goal with
    | H : _ ∈ _ :: _ |- _ => apply elem_of_cons in H as [->|H]
    | H : _ ∈ [] |- _ => by apply elem_of_nil in H
    | H : [] = _ ++ _ :: _ |- _ => by destruct (app_cons_not_nil _ _ _ H)
    end; simpl; try compute_done.
Qed.

Lemma gcm_summary_reached g t tms node x res wl x' evs r :
  gcm_summary g t tms node x = (res, wl, x', evs) →
  role_enabled r node = true →
  (∃ ids xr,
     (generate_method r g t node (role_names r node) xr).1 = ids ∧
     generator_calls r evs = [EvGenerate r tms node (role_names r node) ids] ∧
     role_seq r wl = marked r ids ∧
     (ids = [] → res = Panic (IndexOutOfRange r (oob_index r) 0))) ∨
  (generator_calls r evs = [] ∧ role_seq r wl = [] ∧
   ∃ r', r' ∈ earlier_roles r ∧ role_enabled r' node = true ∧
     res = Panic (IndexOutOfRange r' (oob_index r') 0)).
Proof.
  intros Hsum Hena.
  destruct (run_blocks_reached block_order g t tms node block_order_NoDup
              _ _ _ _ _ _ (fun r _ => empty_wallet_empty r) Hsum r (block_order_all r) Hena)
    as [H|(Hc & Hs & r' & l1 & l2 & Heq & Hin & Hen' & Hres)]; [by left|].
  right. split_and!; [done|done|]. exists r'. split_and!; [|done|done].
  by eapply block_order_earlier.
Qed.

Lemma generator_calls_store r e name p evs :
  generator_calls r (EvStoreWallet e name p :: evs) = generator_calls r evs.
Proof. unfold generator_calls. by rewrite filter_cons. Qed.

(** With a generator that returns one record per name, the run returns and
    the role has its N + 1 records. *)
Lemma multi_role_one_per_name g tms t node w r (N : nat) :
  r = IssuerRole ∨ r = OwnerRole →
  length (configured r node) = N →
  1 ≤ N →
  one_per_name g →
  tmss w !! tms = Some t →
  registry_wf w →
  (GenerateCryptoMaterial g tms node w).1 = Ok tt ∧
  multi_role_invariant r N g tms t node w.
Proof.
  intros Hr HN Hpos Hlen Ht Hwf. split.
  { destruct (GenerateCryptoMaterial_any g _ _ node _ Ht Hwf)
      as (entry & res & wl & x & evs & w' & Hsum & Hrun & _).
    destruct (gcm_summary_spec _ _ _ _ _ _ _ _ _ Hsum) as (_ & _ & _ & Hfail).
    rewrite Hrun. simpl.
    destruct (decide (res = Ok tt)) as [|Hne]; [done|].
    destruct (Hfail Hne) as (r' & xr & _ & Hnil & _).
    pose proof (Hlen r' t node (role_names r' node) xr) as Hl.
    rewrite Hnil in Hl. simpl in Hl.
    destruct (role_names r' node) eqn:Hn; [|done].
    by destruct (role_names_nonempty r' node). }
  intros w' Hrun.
  destruct (GenerateCryptoMaterial_ok _ _ _ _ _ _ Ht Hrun)
    as (entry & wl & x & evs & Hsum & Hkey & Hlook & _ & Hev).
  destruct (gcm_summary_spec _ _ _ _ _ _ _ _ _ Hsum) as (_ & Hen & _ & _).
  assert (Hnames : role_names r node = configured r node ++ [ID node]).
  { by destruct Hr as [-> | ->]. }
  assert (Hena : role_enabled r node = true).
  { destruct Hr as [-> | ->]; simpl in *; apply bool_decide_eq_true_2; lia. }
  destruct (Hen eq_refl r Hena) as (ids & xr & Hids & Hgen & Hcalls & Hseq).
  rewrite Hnames in Hgen, Hcalls.
  assert (Hl : length ids = N + 1).
  { rewrite <- Hgen, Hlen, length_app. simpl. lia. }
  assert (Hm : marked r ids = alter mark_default N ids).
  { destruct Hr as [-> | ->]; simpl; f_equal; lia. }
  destruct (nonempty_snoc ids Hids) as (s0 & own & ->).
  rewrite length_app in Hl. simpl in Hl.
  assert (HN0 : N = length s0 + 0) by lia.
  exists entry, wl, (s0 ++ [own]), own. split_and!.
  - done.
  - done.
  - by rewrite Hev.
  - rewrite Hseq, Hm, length_alter, length_app. simpl. lia.
  - by rewrite last_snoc.
  - rewrite Hseq, Hm, HN0, alter_app_r. simpl. by rewrite last_snoc.
  - by rewrite Hseq, Hm.
Qed.

(** C2 (amended): for a node with N >= 1 names configured for the issuer
    or the owner role, a run of [GenerateCryptoMaterial], unless an earlier
    block stopped it (for the owner: the issuer block, on an index out of
    range), calls the generator of the role once, with the configured names
    followed by the node's own id; the wallet sequence of the role is then
    the records returned with the last one marked [Default = true],
    whatever the later blocks do, and when none is returned the run stops on
    index -1 out of range.  When the generator returns one record per name
    it is given, the run returns and the sequence has N + 1 records, the
    last of which, the node's own, has [Default = true]. *)
Theorem multi_identity_role_wallet g tms t node w r (N : nat) :
  r = IssuerRole ∨ r = OwnerRole →
  length (configured r node) = N →
  1 ≤ N →
  tmss w !! tms = Some t →
  registry_wf w →
  ∃ res w' entry wl,
    GenerateCryptoMaterial g tms node w = (res, w') ∧
    Entries w' !! entry_key t = Some entry ∧
    lookup_wallet w' entry (Name node) = Some wl ∧
    ((∃ ids xr,
        (generate_method r g t node (configured r node ++ [ID node]) xr).1 = ids ∧
        generator_calls r (new_events w w') =
          [EvGenerate r tms node (configured r node ++ [ID node]) ids] ∧
        role_seq r wl = alter mark_default (length ids - 1) ids ∧
        length (role_seq r wl) = length ids ∧
        (ids = [] → res = Panic (IndexOutOfRange r (-1) 0)) ∧
        (∀ own, last ids = Some own → last (role_seq r wl) = Some (mark_default own))) ∨
     (r = OwnerRole ∧ role_enabled IssuerRole node = true ∧
      res = Panic (IndexOutOfRange IssuerRole (-1) 0) ∧
      generator_calls r (new_events w w') = [] ∧ role_seq r wl = [])) ∧
    (one_per_name g → res = Ok tt ∧ multi_role_invariant r N g tms t node w).
Proof.
  intros Hr HN Hpos Ht Hwf.
  destruct (GenerateCryptoMaterial_any g _ _ node _ Ht Hwf)
    as (entry & res & wl & x & evs & w' & Hsum & Hrun & Hkey & Hlook & _ & Hev).
  assert (Hnames : role_names r node = configured r node ++ [ID node]).
  { by destruct Hr as [-> | ->]. }
  assert (Hena : role_enabled r node = true).
  { destruct Hr as [-> | ->]; simpl in *; apply bool_decide_eq_true_2; lia. }
  assert (Hm : ∀ ids, marked r ids = alter mark_default (length ids - 1) ids).
  { intros ids. by destruct Hr as [-> | ->]. }
  assert (Hoob : oob_index r = (-1)%Z) by (by destruct Hr as [-> | ->]).
  exists res, w', entry, wl. split_and!; [done|done|done| |].
  - rewrite Hev, generator_calls_store.
    destruct (gcm_summary_reached _ _ _ _ _ _ _ _ _ r Hsum Hena)
      as [(ids & xr & Hgen & Hc & Hs & Hnil)|(Hc & Hs & r' & Hin & Hen' & Hres)].
    + left. exists ids, xr. rewrite <- Hnames, <- Hoob, <- Hm.
      split_and!; try done.
      * by rewrite Hs, Hm, length_alter.
      * intros own [s0 ->]%last_Some. rewrite Hs, Hm, length_app. simpl.
        replace (length s0 + 1 - 1) with (length s0 + 0) by lia.
        rewrite alter_app_r. simpl. by rewrite last_snoc.
    + right. destruct Hr as [-> | ->]; simpl in Hin.
      * by apply elem_of_nil in Hin.
      * apply list_elem_of_singleton in Hin as ->. by split_and!.
  - intros Hone.
    destruct (multi_role_one_per_name g tms t node w r N Hr HN Hpos Hone Ht Hwf) as [H1 H2].
    rewrite Hrun in H1. done.
Qed.

(** C7 (amended): for a node whose auditor or certifier flag is set, a
    run of [GenerateCryptoMaterial], unless an earlier role's block stopped
    it on an index out of range, calls the generator of the role once, with
    the node's name alone.  When the generator returns at least one record,
    the wallet sequence of the role is the first record returned, alone,
    with [Default = true], whether or not a later block stops the run; when
    it returns none, the run stops on index 0 out of range and the sequence
    is empty.  The run returns when every generator call of a configured
    role returns a record. *)
Theorem single_identity_role_wallet g tms t node w r :
  r = AuditorRole ∨ r = CertifierRole →
  role_enabled r node = true →
  tmss w !! tms = Some t →
  registry_wf w →
  ∃ res w' entry wl,
    GenerateCryptoMaterial g tms node w = (res, w') ∧
    Entries w' !! entry_key t = Some entry ∧
    lookup_wallet w' entry (Name node) = Some wl ∧
    ((∃ ids xr,
        (generate_method r g t node [Name node] xr).1 = ids ∧
        generator_calls r (new_events w w') = [EvGenerate r tms node [Name node] ids] ∧
        match ids with
        | [] => res = Panic (IndexOutOfRange r 0 0) ∧ role_seq r wl = []
        | id0 :: _ =>
            role_seq r wl = [ {| Credential := Credential id0; Default := true |} ] ∧
            length (role_seq r wl) = 1
        end) ∨
     (∃ r', r' ∈ earlier_roles r ∧ role_enabled r' node = true ∧
        res = Panic (IndexOutOfRange r' (oob_index r') 0) ∧
        generator_calls r (new_events w w') = [] ∧ role_seq r wl = [])) ∧
    ((∀ r' x, role_enabled r' node = true →
        (generate_method r' g t node (role_names r' node) x).1 ≠ []) →
     res = Ok tt) ∧
    (res = Ok tt →
     ∃ id0 rest,
       generator_calls r (new_events w w') =
         [EvGenerate r tms node [Name node] (id0 :: rest)] ∧
       role_seq r wl = [ {| Credential := Credential id0; Default := true |} ] ∧
       length (role_seq r wl) = 1).
Proof.
  intros Hr Hena Ht Hwf.
  destruct (GenerateCryptoMaterial_any g _ _ node _ Ht Hwf)
    as (entry & res & wl & x & evs & w' & Hsum & Hrun & Hkey & Hlook & _ & Hev).
  destruct (gcm_summary_spec _ _ _ _ _ _ _ _ _ Hsum) as (_ & _ & _ & Hfail).
  assert (Hnames : role_names r node = [Name node]) by (by destruct Hr as [-> | ->]).
  assert (Hm : ∀ id0 rest, marked r (id0 :: rest) = [mark_default id0]).
  { intros id0 rest. by destruct Hr as [-> | ->]. }
  assert (Hoob : oob_index r = 0%Z) by (by destruct Hr as [-> | ->]).
  assert (Hreached :
    (∃ ids xr,
        (generate_method r g t node [Name node] xr).1 = ids ∧
        generator_calls r (new_events w w') = [EvGenerate r tms node [Name node] ids] ∧
        match ids with
        | [] => res = Panic (IndexOutOfRange r 0 0) ∧ role_seq r wl = []
        | id0 :: _ =>
            role_seq r wl = [ {| Credential := Credential id0; Default := true |} ] ∧
            length (role_seq r wl) = 1
        end) ∨
     (∃ r', r' ∈ earlier_roles r ∧ role_enabled r' node = true ∧
        res = Panic (IndexOutOfRange r' (oob_index r') 0) ∧
        generator_calls r (new_events w w') = [] ∧ role_seq r wl = [])).
  { rewrite Hev, generator_calls_store.
    destruct (gcm_summary_reached _ _ _ _ _ _ _ _ _ r Hsum Hena)
      as [(ids & xr & Hgen & Hc & Hs & Hnil)|(Hc & Hs & r' & Hin & Hen' & Hres)].
    - left. exists ids, xr. rewrite <- Hnames. split_and!; [done|done|].
      destruct ids as [|id0 rest].
      + rewrite <- Hoob. split; [by apply Hnil|]. by rewrite Hs, marked_nil.
      + by rewrite Hs, Hm.
    - right. exists r'. by split_and!. }
  exists res, w', entry, wl. split_and!; [done|done|done|done| |].
  - intros Hgen. destruct (decide (res = Ok tt)) as [|Hne]; [done|].
    destruct (Hfail Hne) as (r' & xr & Hr' & Hnil & _).
    by destruct (Hgen r' xr Hr').
  - intros ->. destruct Hreached as [(ids & xr & _ & Hc & Hids)|(r' & _ & _ & Hres & _)];
      [|done].
    destruct ids as [|id0 rest]; [by destruct Hids|].
    by exists id0, rest.
Qed.

Lemma no_membership_disabled r node :
  no_membership r node ↔ role_enabled r node = false.
Proof.
  destruct r; simpl; try done.
  - rewrite bool_decide_eq_false. destruct (opt_Issuers _); simpl; [|split; [done|lia]].
    split; [lia|done].
  - rewrite bool_decide_eq_false. destruct (opt_Owners _); simpl; [|split; [done|lia]].
    split; [lia|done].
Qed.

(** C8: for a role the node has no membership in (no issuer or owner name,
    auditor or certifier flag off), [GenerateCryptoMaterial] leaves the
    sequence of the role empty in the wallet it stores and never calls the
    role's generator; the role raises no error: the run returns, or it
    stops on the index of another, configured role, and it returns when no
    role is configured at all. *)
Theorem unconfigured_role_stays_empty g tms t node w r :
  no_membership r node →
  tmss w !! tms = Some t →
  registry_wf w →
  ∃ res w' entry wl,
    GenerateCryptoMaterial g tms node w = (res, w') ∧
    Entries w' !! entry_key t = Some entry ∧
    lookup_wallet w' entry (Name node) = Some wl ∧
    role_seq r wl = [] ∧
    generator_calls r (new_events w w') = [] ∧
    (res = Ok tt ∨
     ∃ r', r' ≠ r ∧ role_enabled r' node = true ∧
           res = Panic (IndexOutOfRange r' (oob_index r') 0)) ∧
    ((∀ r', no_membership r' node) → res = Ok tt).
Proof.
  intros Hno Ht Hwf. apply no_membership_disabled in Hno.
  destruct (GenerateCryptoMaterial_any g _ _ node _ Ht Hwf)
    as (entry & res & wl & x & evs & w' & Hsum & Hrun & Hkey & Hlook & _ & Hev).
  destruct (gcm_summary_spec _ _ _ _ _ _ _ _ _ Hsum) as (Hdis & _ & _ & Hfail).
  destruct (Hdis r Hno) as [Hseq Hcalls].
  exists res, w', entry, wl. split_and!; try done.
  - by rewrite Hev.
  - destruct (decide (res = Ok tt)) as [|Hne]; [by left|right].
    destruct (Hfail Hne) as (r' & _ & Hr' & _ & Hres & _).
    exists r'. split_and!; [|done|done]. intros ->. congruence.
  - intros Hall. destruct (decide (res = Ok tt)) as [|Hne]; [done|].
    destruct (Hfail Hne) as (r' & _ & Hr' & _).
    specialize (Hall r'). apply no_membership_disabled in Hall. congruence.
Qed.

(** C10: [GenerateCryptoMaterial] returns exactly when every generator
    call of the run returned at least one record.  Otherwise it stops on an
    index out of range, index -1 for issuers and owners (length minus one
    of an empty sequence) and index 0 for auditors and certifiers, at a
    configured role whose generator returned nothing.  A generator that
    always returns a record makes the run return; one that never does for
    a configured role makes it stop. *)
Theorem GenerateCryptoMaterial_needs_credentials g tms t node w :
  tmss w !! tms = Some t →
  registry_wf w →
  ∃ res w',
    GenerateCryptoMaterial g tms node w = (res, w') ∧
    (res = Ok tt ↔ Forall returned_some (new_events w w')) ∧
    (res ≠ Ok tt →
     ∃ r, role_enabled r node = true ∧
          res = Panic (IndexOutOfRange r (oob_index r) 0) ∧
          EvGenerate r tms node (role_names r node) [] ∈ new_events w w') ∧
    ((∀ r x, role_enabled r node = true →
        (generate_method r g t node (role_names r node) x).1 ≠ []) →
     res = Ok tt) ∧
    (∀ r, role_enabled r node = true →
       (∀ x, (generate_method r g t node (role_names r node) x).1 = []) →
       ∃ r', role_enabled r' node = true ∧
             res = Panic (IndexOutOfRange r' (oob_index r') 0)).
Proof.
  intros Ht Hwf.
  destruct (GenerateCryptoMaterial_any g _ _ node _ Ht Hwf)
    as (entry & res & wl & x & evs & w' & Hsum & Hrun & Hkey & Hlook & _ & Hev).
  destruct (gcm_summary_spec _ _ _ _ _ _ _ _ _ Hsum) as (_ & Hen & Hsome & Hfail).
  exists res, w'. split_and!.
  - done.
  - rewrite Hev. split.
    + intros Hok. constructor; [done|by apply Hsome].
    + intros Hall. destruct (decide (res = Ok tt)) as [|Hne]; [done|].
      destruct (Hfail Hne) as (r & _ & _ & _ & _ & Hin).
      apply Forall_cons in Hall as [_ Hall].
      rewrite Forall_forall in Hall. by specialize (Hall _ Hin).
  - intros Hne. destruct (Hfail Hne) as (r & _ & Hr & _ & Hres & Hin).
    exists r. split_and!; [done|done|]. rewrite Hev. by right.
  - intros Hgen. destruct (decide (res = Ok tt)) as [|Hne]; [done|].
    destruct (Hfail Hne) as (r & xr & Hr & Hnil & _).
    by destruct (Hgen r xr Hr).
  - intros r Hr Hnil.
    destruct (decide (res = Ok tt)) as [Hok|Hne].
    + destruct (Hen Hok r Hr) as (ids & xr & Hids & Hgen & _).
      rewrite Hnil in Hgen. by subst.
    + destruct (Hfail Hne) as (r' & _ & Hr' & _ & Hres & _). by exists r'.
Qed.


(** ** The artifact orchestrator *)

(** *** Stores that follow one another *)

Lemma replay_app entry evs1 evs2 en :
  replay entry (evs1 ++ evs2) en = replay entry evs2 (replay entry evs1 en).
Proof. apply foldl_app. Qed.

Lemma follows_refl P entry w : follows P entry w w.
Proof.
  split_and!; [done | done | done | done |]. exists []. split_and!.
  - by rewrite app_nil_r.
  - constructor.
  - done.
  - intros _. by destruct (entries w !! entry).
Qed.

Lemma follows_trans P entry w1 w2 w3 :
  follows P entry w1 w2 → follows P entry w2 w3 → follows P entry w1 w3.
Proof.
  intros (Hw1 & Ht1 & Hl1 & Hs1 & evs1 & Htr1 & HP1 & Hfs1 & Hr1)
         (Hw2 & Ht2 & Hl2 & Hs2 & evs2 & Htr2 & HP2 & Hfs2 & Hr2).
  split_and!.
  - intros H. by apply Hw2, Hw1.
  - congruence.
  - lia.
  - intros k e H. by apply Hs2, Hs1.
  - exists (evs1 ++ evs2). split_and!.
    + by rewrite Htr2, Htr1, app_assoc.
    + by apply Forall_app.
    + intros [H1 H2]%Forall_app. rewrite Hfs2, Hfs1; done.
    + intros Hlt. rewrite Hr2 by lia. rewrite Hr1 by done.
      destruct (entries w1 !! entry); simpl; [|done]. by rewrite replay_app.
Qed.

Lemma follows_weaken P Q entry w w' :
  (∀ ev, P ev → Q ev) → follows P entry w w' → follows Q entry w w'.
Proof.
  intros HPQ (Hw & Ht & Hl & Hs & evs & Htr & HP & Hfs & Hr).
  split_and!; [done | done | done | done |]. exists evs. split_and!; try done.
  by eapply Forall_impl.
Qed.

Lemma sound_weaken P Q entry {A} (m : M ExtState FS A) :
  (∀ ev, P ev → Q ev) → sound P entry m → sound Q entry m.
Proof. intros HPQ H w. eapply follows_weaken; [exact HPQ | apply H]. Qed.

Lemma sound_ret P entry {A} (a : A) : sound P entry (@ret ExtState FS A a).
Proof. intros w. apply follows_refl. Qed.

Lemma sound_panic P entry {A} e : sound P entry (@panic ExtState FS A e).
Proof. intros w. apply follows_refl. Qed.

Lemma sound_get P entry : sound P entry (@get ExtState FS).
Proof. intros w. apply follows_refl. Qed.

Lemma sound_deref P entry {A} (heap : World ExtState FS → list A) p :
  sound P entry (deref heap p).
Proof. intros w. unfold deref. destruct (heap w !! p); apply follows_refl. Qed.

Lemma sound_bind P entry {A B} (m : M ExtState FS A) (k : A → M ExtState FS B) :
  sound P entry m → (∀ a, sound P entry (k a)) → sound P entry (bind m k).
Proof.
  intros Hm Hk w. unfold bind. specialize (Hm w).
  destruct (m w) as [[a|e] w1]; simpl in *; [|done].
  eapply follows_trans; [exact Hm | apply Hk].
Qed.

Lemma sound_for_each P entry {A} (l : list A) (body : A → M ExtState FS unit) :
  (∀ a, sound P entry (body a)) → sound P entry (for_each l body).
Proof.
  intros Hb. induction l as [|a l IH]; simpl.
  - apply sound_ret.
  - apply sound_bind; [apply Hb | intros _; apply IH].
Qed.

Lemma registry_wf_same w w' :
  Entries w' = Entries w → entries w' = entries w → registry_wf w → registry_wf w'.
Proof. intros HE He Hwf k e Hk. rewrite HE in Hk. rewrite He. by eapply Hwf. Qed.

(** A store that differs in the wallets and the collaborators' state only. *)
Lemma follows_quiet P entry w w' :
  Entries w' = Entries w → entries w' = entries w → tmss w' = tmss w →
  fs w' = fs w → trace w' = trace w → follows P entry w w'.
Proof.
  intros HE He Ht Hf Htr.
  split_and!; [by apply registry_wf_same | done | by rewrite He | by rewrite HE |].
  exists []. split_and!.
  - by rewrite app_nil_r.
  - constructor.
  - done.
  - intros _. rewrite He. by destruct (entries w !! entry).
Qed.

(** One event that leaves the entries alone. *)
Lemma follows_event P entry w w' ev :
  P ev → (∀ en, apply_event entry en ev = en) →
  Entries w' = Entries w → entries w' = entries w → tmss w' = tmss w →
  (is_fs_event ev = false → fs w' = fs w) → trace w' = trace w ++ [ev] →
  follows P entry w w'.
Proof.
  intros HP Hid HE He Ht Hf Htr.
  split_and!; [by apply registry_wf_same | done | by rewrite He | by rewrite HE |].
  exists [ev]. split_and!.
  - done.
  - by constructor.
  - intros H. apply Hf. by inversion H.
  - intros _. rewrite He. destruct (entries w !! entry) as [en|]; simpl; [|done].
    unfold replay. simpl. by rewrite Hid.
Qed.

Lemma sound_new_wallet P entry wl : sound P entry (@new_wallet ExtState FS wl).
Proof. intros w. by apply follows_quiet. Qed.

Lemma sound_update_wallet P entry wallet f :
  sound P entry (@update_wallet ExtState FS wallet f).
Proof.
  intros w. unfold update_wallet, bind, deref.
  destruct (wallets w !! wallet); [by apply follows_quiet | apply follows_refl].
Qed.

Lemma sound_GetEntry P entry tms : sound P entry (@GetEntry ExtState FS tms).
Proof.
  intros w. destruct (tmss w !! tms) as [t|] eqn:Ht.
  - destruct (Entries w !! entry_key t) as [e|] eqn:He.
    + rewrite (GetEntry_found _ _ _ _ Ht He). apply follows_refl.
    + rewrite (GetEntry_fresh _ _ _ Ht He). simpl.
      split_and!; simpl.
      * intros Hwf k e. simpl. destruct (decide (k = entry_key t)) as [->|Hne].
        -- rewrite lookup_insert_eq. intros [= <-]. by rewrite list_lookup_middle.
        -- rewrite lookup_insert_ne by done. intros Hk.
           destruct (Hwf k e Hk) as [en Hen]. exists en. by apply lookup_app_l_Some.
      * done.
      * rewrite length_app. lia.
      * intros k e Hk. rewrite lookup_insert_ne; [done|]. intros Heq. congruence.
      * exists []. split_and!; [by rewrite app_nil_r | constructor | done |].
        intros Hlt. rewrite lookup_app_l by done.
        by destruct (entries w !! entry).
  - rewrite (GetEntry_nil _ _ Ht). apply follows_refl.
Qed.

(** Writing a field of an entry, with the event that records it. *)
Lemma follows_entry_update P entry w e en ev :
  P ev → is_fs_event ev = false →
  entries w !! e = Some en →
  (∀ en0, e ≠ entry → apply_event entry en0 ev = en0) →
  follows P entry w
    (log ev (set_entries (fun h => <[e := apply_event e en ev]> h) w)).
Proof.
  intros HP Hnfs Hen Hother. split_and!; simpl.
  - intros Hwf k e' Hk. simpl in *. apply lookup_lt_is_Some. rewrite length_insert.
    apply lookup_lt_is_Some. by eapply Hwf.
  - done.
  - by rewrite length_insert.
  - done.
  - exists [ev]. split_and!; [done | by constructor | done |].
    intros Hlt. destruct (decide (e = entry)) as [->|Hne].
    + rewrite list_lookup_insert_eq by done. by rewrite Hen.
    + rewrite list_lookup_insert_ne by done.
      destruct (entries w !! entry) as [en0|]; simpl; [|done].
      unfold replay. simpl. by rewrite Hother.
Qed.

Lemma sound_store_wallet P entry e name wallet :
  P (EvStoreWallet e name wallet) →
  sound P entry (@store_wallet ExtState FS e name wallet).
Proof.
  intros HP w. destruct (entries w !! e) as [en|] eqn:Hen.
  - rewrite (store_wallet_run _ _ _ _ _ Hen). simpl.
    pose proof (follows_entry_update P entry w e en (EvStoreWallet e name wallet) HP eq_refl Hen) as H.
    simpl in H. rewrite decide_True in H by done. apply H.
    intros en0 Hne. by rewrite decide_False.
  - unfold store_wallet, update_entry, bind, deref. rewrite Hen. apply follows_refl.
Qed.

Lemma set_TCC_run entry tcc w en :
  entries w !! entry = Some en →
  set_TCC entry tcc w =
    (Ok tt, log (EvSetTCC entry tcc)
              (set_entries (fun h => <[entry := mkEntry (eTMS en) (Some tcc) (eWallets en)]> h) w)).
Proof.
  intros H. unfold set_TCC, update_entry, bind, deref, modify, emit. by rewrite H.
Qed.

Lemma set_TCC_nil entry tcc w :
  entries w !! entry = None → set_TCC entry tcc w = (Panic NilDereference, w).
Proof.
  intros H. unfold set_TCC, update_entry, bind, deref, modify, emit. by rewrite H.
Qed.

Lemma sound_set_TCC P entry e tcc :
  P (EvSetTCC e tcc) → sound P entry (@set_TCC ExtState FS e tcc).
Proof.
  intros HP w. destruct (entries w !! e) as [en|] eqn:Hen.
  - rewrite (set_TCC_run _ _ _ _ Hen). simpl.
    pose proof (follows_entry_update P entry w e en (EvSetTCC e tcc) HP eq_refl Hen) as H.
    simpl in H. rewrite decide_True in H by done. apply H.
    intros en0 Hne. by rewrite decide_False.
  - rewrite (set_TCC_nil _ _ _ Hen). apply follows_refl.
Qed.

Lemma sound_call_generate P entry r g tms node names :
  (∀ ids, P (EvGenerate r tms node names ids)) →
  sound P entry (@call_generate ExtState FS r g tms node names).
Proof.
  intros HP w. unfold call_generate, bind, deref.
  destruct (tmss w !! tms) as [t|]; [|apply follows_refl].
  destruct (generate_method r g t node names (ext w)) as [ids x'].
  by eapply follows_event.
Qed.

Lemma sound_call_ext P entry {A} ev (f : ExtState → option A * ExtState) :
  P ev → is_fs_event ev = false → (∀ en, apply_event entry en ev = en) →
  sound P entry (@call_ext ExtState FS A ev f).
Proof.
  intros HP Hfs Hid w. unfold call_ext.
  destruct (f (ext w)) as [[a|] x']; by eapply follows_event.
Qed.

Lemma sound_call_os P entry ev (f : FS → error * FS) :
  P ev → is_fs_event ev = true → (∀ en, apply_event entry en ev = en) →
  sound P entry (@call_os ExtState FS ev f).
Proof.
  intros HP Hfs Hid w. unfold call_os.
  destruct (f (fs w)) as [err d]. eapply follows_event; try done.
  simpl. congruence.
Qed.

Lemma sound_expect_no_error P entry err : sound P entry (@expect_no_error ExtState FS err).
Proof. destruct err; [apply sound_panic | apply sound_ret]. Qed.

Lemma sound_non_nil P entry {A} (o : option A) : sound P entry (@non_nil ExtState FS A o).
Proof. destruct o; [apply sound_ret | apply sound_panic]. Qed.

Lemma sound_expect_not_nil P entry {A} (o : option A) :
  sound P entry (@expect_not_nil ExtState FS A o).
Proof. destruct o; [apply sound_ret | apply sound_panic]. Qed.

Lemma sound_type_assert P entry {A} (o : option A) :
  sound P entry (@type_assert ExtState FS A o).
Proof. destruct o; [apply sound_ret | apply sound_panic]. Qed.

Lemma sound_first_id P entry r ids : sound P entry (@first_id ExtState FS r ids).
Proof. destruct ids; [apply sound_panic | apply sound_ret]. Qed.

Lemma sound_set_Default P entry r wallet i :
  sound P entry (@set_Default ExtState FS r wallet i).
Proof.
  unfold set_Default. apply sound_bind; [apply sound_deref|]. intros wl.
  case_decide; [apply sound_update_wallet | apply sound_panic].
Qed.

Lemma sound_multi_identity_block entry r g tms node wallet cfg :
  sound wallet_event entry (@multi_identity_block ExtState FS r g tms node wallet cfg).
Proof.
  unfold multi_identity_block. case_decide; [|apply sound_ret].
  apply sound_bind; [by apply sound_call_generate|]. intros ids.
  apply sound_bind; [apply sound_for_each; intros id; apply sound_update_wallet|].
  intros _. apply sound_bind; [apply sound_deref|]. intros wl.
  apply sound_set_Default.
Qed.

Lemma sound_single_identity_block entry r g tms node wallet (enabled : bool) :
  sound wallet_event entry (@single_identity_block ExtState FS r g tms node wallet enabled).
Proof.
  unfold single_identity_block. destruct enabled; [|apply sound_ret].
  apply sound_bind; [by apply sound_call_generate|]. intros ids.
  apply sound_bind; [apply sound_first_id|]. intros id0.
  apply sound_bind; [apply sound_update_wallet|]. intros _.
  apply sound_set_Default.
Qed.

Lemma sound_GenerateCryptoMaterial entry g tms node :
  sound wallet_event entry (@GenerateCryptoMaterial ExtState FS g tms node).
Proof.
  unfold GenerateCryptoMaterial.
  apply sound_bind; [apply sound_GetEntry|]. intros e.
  apply sound_bind; [apply sound_new_wallet|]. intros wp.
  apply sound_bind; [by apply sound_store_wallet|]. intros _.
  apply sound_bind; [apply sound_multi_identity_block|]. intros _.
  apply sound_bind; [apply sound_multi_identity_block|]. intros _.
  apply sound_bind; [apply sound_single_identity_block|]. intros _.
  apply sound_single_identity_block.
Qed.

Lemma sound_generate_wallets entry (TokenPlatform : tokenPlatform ExtState) tms t :
  sound wallet_event entry (@generate_wallets ExtState FS TokenPlatform tms t).
Proof.
  unfold generate_wallets.
  apply sound_bind; [apply sound_non_nil|]. intros g.
  apply sound_bind; [by apply sound_call_ext|]. intros [root err].
  apply sound_bind; [apply sound_expect_no_error|]. intros _.
  apply sound_bind; [apply sound_type_assert|]. intros nodes.
  apply sound_bind; [apply sound_for_each; intros node; apply sound_GenerateCryptoMaterial|].
  intros _. apply sound_ret.
Qed.

Lemma sound_generate_public_parameters entry (TokenPlatform : tokenPlatform ExtState)
    (sys : OS FS) tms t root :
  sound params_event entry
    (@generate_public_parameters ExtState FS TokenPlatform sys tms t root).
Proof.
  unfold generate_public_parameters.
  apply sound_bind; [apply sound_expect_not_nil|]. intros ppg.
  apply sound_bind; [by apply sound_call_ext|]. intros [ppRaw err].
  apply sound_bind; [apply sound_expect_no_error|]. intros _.
  apply sound_bind; [by apply sound_call_os|]. intros err1.
  apply sound_bind; [apply sound_expect_no_error|]. intros _.
  apply sound_bind; [by apply sound_call_os|]. intros err2.
  apply sound_expect_no_error.
Qed.

Lemma sound_prepare_chaincode entry (fabric : ChaincodeOps ExtState) tms t :
  sound chaincode_event entry (@prepare_chaincode ExtState FS fabric tms t).
Proof.
  unfold prepare_chaincode. destruct (Private (TokenChaincode t)).
  - apply sound_bind; [by apply sound_call_ext|]. intros cc.
    apply sound_bind; [by apply sound_call_ext|]. intros ctor.
    apply sound_ret.
  - apply sound_bind; [by apply sound_call_ext|]. intros cc.
    apply sound_bind; [by apply sound_call_ext|]. intros _.
    apply sound_ret.
Qed.


Lemma block_stored r g t tms node wl x res wl' x' evs :
  block_summary r g t tms node wl x = (res, wl', x', evs) → stored_names evs = [].
Proof.
  destruct r; unfold block_summary, multi_summary, single_summary;
    repeat first [case_decide | case_match]; by intros [= <- <- <- <-].
Qed.

Lemma stored_names_app evs1 evs2 :
  stored_names (evs1 ++ evs2) = stored_names evs1 ++ stored_names evs2.
Proof. apply omap_app. Qed.

Lemma run_blocks_stored rs g t tms node : ∀ wl x res wl' x' evs,
  run_blocks rs g t tms node wl x = (res, wl', x', evs) → stored_names evs = [].
Proof.
  induction rs as [|r rs IH]; intros wl x res wl' x' evs; simpl.
  - by intros [= <- <- <- <-].
  - intros [(e & Hb & _)|(wl0 & x0 & evs0 & evs1 & Hb & Hk & ->)]%and_then_inv.
    + by eapply block_stored.
    + rewrite stored_names_app. erewrite block_stored by done. by eapply IH.
Qed.

Lemma new_events_app w w' evs : trace w' = trace w ++ evs → new_events w w' = evs.
Proof. intros H. unfold new_events. by rewrite H, drop_app_length. Qed.

Lemma GenerateCryptoMaterial_ok_trace g tms t node w w' :
  tmss w !! tms = Some t →
  GenerateCryptoMaterial g tms node w = (Ok tt, w') →
  ∃ evs, trace w' = trace w ++ evs ∧ stored_names evs = [Name node] ∧ tmss w' = tmss w.
Proof.
  intros Ht Hrun.
  destruct (sound_GenerateCryptoMaterial 0 g tms node w)
    as (_ & Htm & _ & _ & evs & Htr & _).
  rewrite Hrun in Htm, Htr. simpl in Htm, Htr.
  exists evs. split_and!; [done | | done].
  destruct (GenerateCryptoMaterial_ok _ _ _ _ _ _ Ht Hrun)
    as (entry & wl & x & evs' & Hsum & _ & _ & _ & Hev).
  rewrite (new_events_app _ _ _ Htr) in Hev. subst evs. simpl.
  by rewrite (run_blocks_stored _ _ _ _ _ _ _ _ _ _ _ Hsum).
Qed.

Lemma for_each_GenerateCryptoMaterial_ok g tms t nodes : ∀ w w',
  tmss w !! tms = Some t →
  for_each nodes (fun node => GenerateCryptoMaterial g tms node) w = (Ok tt, w') →
  ∃ evs, trace w' = trace w ++ evs ∧ stored_names evs = Name <$> nodes ∧
         tmss w' = tmss w.
Proof.
  induction nodes as [|node nodes IH]; intros w w' Ht; simpl.
  - intros [= <-]. exists []. by rewrite app_nil_r.
  - unfold bind at 1.
    destruct (GenerateCryptoMaterial g tms node w) as [[[]|e] w1] eqn:Hrun; [|done].
    intros Hrest.
    destruct (GenerateCryptoMaterial_ok_trace _ _ _ _ _ _ Ht Hrun) as (evs1 & Htr1 & Hs1 & Htm1).
    destruct (IH w1 w') as (evs2 & Htr2 & Hs2 & Htm2); [by rewrite Htm1 | done |].
    exists (evs1 ++ evs2). split_and!.
    + by rewrite Htr2, Htr1, app_assoc.
    + by rewrite stored_names_app, Hs1, Hs2.
    + congruence.
Qed.

Lemma generate_wallets_ok (TokenPlatform : tokenPlatform ExtState) tms t w root w' :
  tmss w !! tms = Some t →
  generate_wallets TokenPlatform tms t w = (Ok root, w') →
  ∃ nodes evs,
    FSCNodes TokenPlatform = Some nodes ∧
    trace w' = trace w ++ evs ∧
    stored_names evs = Name <$> nodes.
Proof.
  intros Ht. unfold generate_wallets, bind, non_nil, call_ext, returns, type_assert.
  destruct (GetCryptoMaterialGenerator TokenPlatform (Driver t)) as [g|]; [|done].
  simpl. destruct (Setup g t (ext w)) as [[root0 err] x']. simpl.
  destruct err; [done|]. simpl.
  destruct (FSCNodes TokenPlatform) as [nodes|]; [|done]. simpl.
  set (w1 := log _ _).
  destruct (for_each nodes _ w1) as [[[]|e] w2] eqn:Hloop; [|done].
  intros [= <- <-].
  destruct (for_each_GenerateCryptoMaterial_ok g tms t nodes w1 w2) as (evs & Htr & Hs & _);
    [done | done |].
  exists nodes, (EvSetup tms :: evs). split_and!; [done | | done].
  rewrite Htr. unfold w1. simpl. by rewrite <- app_assoc.
Qed.

Lemma generate_public_parameters_ok (TokenPlatform : tokenPlatform ExtState) (sys : OS FS)
    tms t root w w' :
  generate_public_parameters TokenPlatform sys tms t root w = (Ok tt, w') →
  ∃ ppRaw,
    trace w' = trace w ++
      [ EvPPGenerate tms (root :: PublicParamsGenArgs t);
        EvMkdirAll (PublicParametersDir TokenPlatform);
        EvWriteFile (PublicParametersFile TokenPlatform t) ppRaw ].
Proof.
  unfold generate_public_parameters, bind, expect_not_nil, call_ext, returns, call_os.
  destruct (GetPublicParamsGenerators TokenPlatform (Driver t)) as [ppg|]; [|done].
  simpl. destruct (Generate ppg t _ (ext w)) as [[ppRaw err] x']. simpl.
  destruct err; [done|]. simpl.
  destruct (MkdirAll sys _ (fs w)) as [err1 d1]. simpl.
  destruct err1; [done|]. simpl.
  destruct (WriteFile sys _ ppRaw d1) as [err2 d2]. simpl.
  destruct err2; [done|]. simpl.
  intros [= <-]. exists ppRaw. simpl. by rewrite <- !app_assoc.
Qed.


Lemma replay_TCC entry evs : ∀ en,
  Forall (fun ev => is_set_TCC ev = false) evs → eTCC (replay entry evs en) = eTCC en.
Proof.
  induction evs as [|ev evs IH]; intros en Hall; [done|].
  apply Forall_cons in Hall as [Hev Hall]. unfold replay. simpl.
  change (eTCC (replay entry evs (apply_event entry en ev)) = eTCC en).
  rewrite IH by done. destruct ev; try done; simpl; by case_decide.
Qed.

Lemma wallet_event_quiet ev :
  wallet_event ev → is_fs_event ev = false ∧ is_set_TCC ev = false.
Proof. by destruct ev. Qed.

Lemma params_event_quiet ev : params_event ev → is_set_TCC ev = false.
Proof. by destruct ev. Qed.

(** C5: when no generator of public parameters is registered for the
    driver of the TMS, [GenerateArtifacts] stops with a panic; the file
    system is as before, and the run performed no directory creation, no
    file write and no generation of parameters (its effects are all of the
    wallet stage).  When the wallet stage returned, the panic is the failed
    expectation on the generator, raised in the store that stage left. *)
Theorem GenerateArtifacts_without_generator
    (TokenPlatform : tokenPlatform ExtState) (sys : OS FS) (fabric : ChaincodeOps ExtState)
    w tms t :
  tmss w !! tms = Some t →
  GetPublicParamsGenerators TokenPlatform (Driver t) = None →
  ∃ e w',
    GenerateArtifacts TokenPlatform sys fabric tms w = (Panic e, w') ∧
    fs w' = fs w ∧
    Forall (fun ev => phase_of ev = WalletsPopulated ∧ is_fs_event ev = false)
      (new_events w w') ∧
    (∀ entry w0 root w1,
       GetEntry tms w = (Ok entry, w0) →
       generate_wallets TokenPlatform tms t w0 = (Ok root, w1) →
       e = ExpectationFailed ∧ w' = w1).
Proof.
  intros Ht Hnone.
  destruct (GetEntry_returns _ _ _ Ht) as (entry & w0 & Hget).
  destruct (GetEntry_frame _ _ _ _ Hget) as (Htm & _ & _ & Hfs & Htr).
  pose proof (sound_generate_wallets entry TokenPlatform tms t w0) as Hs1.
  unfold GenerateArtifacts.
  rewrite (bind_ok _ _ _ _ _ Hget).
  rewrite (bind_ok _ _ w0 t w0); [|unfold deref; by rewrite Htm, Ht].
  assert (Hpp : ∀ root w1,
    generate_public_parameters TokenPlatform sys tms t root w1 = (Panic ExpectationFailed, w1)).
  { intros root w1. unfold generate_public_parameters, bind, expect_not_nil.
    by rewrite Hnone. }
  destruct (generate_wallets TokenPlatform tms t w0) as [[root|e] w1] eqn:H1.
  - rewrite (bind_ok _ _ _ _ _ H1), (bind_panic _ _ _ _ _ (Hpp root w1)).
    destruct Hs1 as (_ & _ & _ & _ & evs & Htr1 & HP & Hfs1 & _). simpl in *.
    exists ExpectationFailed, w1. split_and!.
    + done.
    + rewrite Hfs1, Hfs; [done|].
      eapply Forall_impl; [exact HP|]. intros ev Hev. by apply wallet_event_quiet.
    + rewrite (new_events_app w w1 evs) by (by rewrite Htr1, Htr).
      eapply Forall_impl; [exact HP|]. intros ev Hev. split; [done|].
      by apply wallet_event_quiet.
    + intros entry' w0' root' w1'. rewrite Hget. intros [= <- <-]. rewrite H1. by intros [= <- <-].
  - rewrite (bind_panic _ _ _ _ _ H1).
    destruct Hs1 as (_ & _ & _ & _ & evs & Htr1 & HP & Hfs1 & _). simpl in *.
    exists e, w1. split_and!.
    + done.
    + rewrite Hfs1, Hfs; [done|].
      eapply Forall_impl; [exact HP|]. intros ev Hev. by apply wallet_event_quiet.
    + rewrite (new_events_app w w1 evs) by (by rewrite Htr1, Htr).
      eapply Forall_impl; [exact HP|]. intros ev Hev. split; [done|].
      by apply wallet_event_quiet.
    + intros entry' w0' root' w1'. rewrite Hget. intros [= <- <-]. rewrite H1. by intros [=].
Qed.


Lemma chaincode_event_quiet ev : chaincode_event ev → is_set_TCC ev = false.
Proof. by intros [_ ?]. Qed.

(** Four stages in a row. *)
Lemma stages_assemble entry w w0 w1 w2 w3 w4 en0 :
  trace w0 = trace w →
  entries w0 !! entry = Some en0 →
  follows wallet_event entry w0 w1 →
  follows params_event entry w1 w2 →
  follows chaincode_event entry w2 w3 →
  follows (set_TCC_event entry) entry w3 w4 →
  ∃ evs1 evs2 evs3 evs4,
    trace w1 = trace w0 ++ evs1 ∧
    trace w2 = trace w1 ++ evs2 ∧
    trace w3 = trace w2 ++ evs3 ∧
    trace w4 = trace w3 ++ evs4 ∧
    new_events w w4 = evs1 ++ evs2 ++ (evs3 ++ evs4) ∧
    Forall wallet_event evs1 ∧
    Forall params_event evs2 ∧
    Forall chaincode_event evs3 ∧
    Forall (set_TCC_event entry) evs4 ∧
    entries w4 !! entry = Some (replay entry (evs1 ++ evs2 ++ (evs3 ++ evs4)) en0) ∧
    entry < length (entries w3) ∧
    tmss w4 = tmss w0 ∧
    (∀ k e, Entries w0 !! k = Some e → Entries w4 !! k = Some e).
Proof.
  intros Htr0 Hen0
    (_ & Ht1 & Hl1 & Hs1 & evs1 & Htr1 & HP1 & _ & Hr1)
    (_ & Ht2 & Hl2 & Hs2 & evs2 & Htr2 & HP2 & _ & Hr2)
    (_ & Ht3 & Hl3 & Hs3 & evs3 & Htr3 & HP3 & _ & Hr3)
    (_ & Ht4 & Hl4 & Hs4 & evs4 & Htr4 & HP4 & _ & Hr4).
  assert (Hlt0 : entry < length (entries w0)) by (by eapply lookup_lt_Some).
  exists evs1, evs2, evs3, evs4. split_and!; try done.
  - apply new_events_app. rewrite Htr4, Htr3, Htr2, Htr1, Htr0.
    by rewrite <- !app_assoc.
  - rewrite Hr4, Hr3, Hr2, Hr1, Hen0 by lia. simpl.
    by rewrite !replay_app.
  - lia.
  - congruence.
  - intros k e H. by apply Hs4, Hs3, Hs2, Hs1.
Qed.


Lemma app_self_nil {A} (l x : list A) : l = l ++ x → x = [].
Proof. intros H. apply (app_inv_head l). by rewrite app_nil_r. Qed.

Lemma phases_conclude (TokenPlatform : tokenPlatform ExtState) tms t entry en0
    w w0 w1 w2 w3 w4 res :
  trace w0 = trace w →
  entries w0 !! entry = Some en0 →
  follows wallet_event entry w0 w1 →
  follows params_event entry w1 w2 →
  follows chaincode_event entry w2 w3 →
  follows (set_TCC_event entry) entry w3 w4 →
  (trace w4 ≠ trace w1 →
   ∃ nodes evs, FSCNodes TokenPlatform = Some nodes ∧ trace w1 = trace w0 ++ evs ∧
                stored_names evs = Name <$> nodes) →
  (trace w4 ≠ trace w2 →
   ∃ root ppRaw, trace w2 = trace w1 ++
     [ EvPPGenerate tms (root :: PublicParamsGenArgs t);
       EvMkdirAll (PublicParametersDir TokenPlatform);
       EvWriteFile (PublicParametersFile TokenPlatform t) ppRaw ]) →
  (res = Ok tt ∧ ∃ tcc, trace w4 = trace w3 ++ [EvSetTCC entry tcc]) ∨
  (res ≠ Ok tt ∧ w4 = w3) →
  run_in_phases TokenPlatform tms t entry en0 w w4 res.
Proof.
  intros Htr0 Hen0 F1 F2 F3 F4 Hst1 Hst2 Hfin.
  destruct (stages_assemble _ _ _ _ _ _ _ _ Htr0 Hen0 F1 F2 F3 F4)
    as (evs1 & evs2 & evs3 & evs4 & Htr1 & Htr2 & Htr3 & Htr4 & Hnew & HP1 & HP2 & HP3 &
        HP4 & Hrep & _ & _ & _).
  exists evs1, evs2, (evs3 ++ evs4).
  assert (HQ1 : Forall (fun ev => is_set_TCC ev = false) evs1).
  { eapply Forall_impl; [exact HP1|]. intros ev Hev. by apply wallet_event_quiet. }
  assert (HQ2 : Forall (fun ev => is_set_TCC ev = false) evs2).
  { eapply Forall_impl; [exact HP2|]. intros ev Hev. by apply params_event_quiet. }
  assert (HQ3 : Forall (fun ev => is_set_TCC ev = false) evs3).
  { eapply Forall_impl; [exact HP3|]. intros ev Hev. by apply chaincode_event_quiet. }
  split_and!.
  - done.
  - done.
  - done.
  - apply Forall_app. split.
    + eapply Forall_impl; [exact HP3|]. by intros ev [? _].
    + eapply Forall_impl; [exact HP4|]. by intros ev [tcc ->].
  - intros Hne. destruct Hst1 as (nodes & evs & Hn & Htr & Hs).
    + intros Heq. apply Hne.
      rewrite Htr4, Htr3, Htr2, <- !app_assoc in Heq.
      symmetry in Heq. by apply app_self_nil in Heq.
    + exists nodes. split; [done|].
      rewrite Htr1 in Htr. by apply app_inv_head in Htr as <-.
  - intros Hne. destruct Hst2 as (root & ppRaw & Htr).
    + intros Heq. apply Hne. rewrite Htr4, Htr3, <- !app_assoc in Heq.
      symmetry in Heq. by apply app_self_nil in Heq.
    + exists root, ppRaw. rewrite Htr2 in Htr. by apply app_inv_head in Htr.
  - by rewrite Hnew.
  - intros Hok. destruct Hfin as [[_ [tcc Htcc]]|[Hne _]]; [|done].
    rewrite Htr4 in Htcc. apply app_inv_head in Htcc as ->.
    exists evs3, tcc. split_and!.
    + done.
    + by rewrite !Forall_app.
    + rewrite Hrep. simpl. f_equal.
      rewrite !app_assoc, replay_app. simpl. by rewrite decide_True.
  - intros Hne. destruct Hfin as [[Hok _]|[_ ->]]; [done|].
    apply app_self_nil in Htr4 as ->.
    assert (Hall : Forall (fun ev => is_set_TCC ev = false) (evs1 ++ evs2 ++ evs3 ++ [])).
    { rewrite app_nil_r. by rewrite !Forall_app. }
    split; [by rewrite Hnew|].
    rewrite Hrep. simpl. f_equal. by apply replay_TCC.
Qed.

(** The effects of a run of [GenerateArtifacts] come in three blocks, in
    the order of the stages; the entry ends as the effects performed make
    it; the TCC is set by the last effect of a run that returns, and by no
    other. *)
Lemma GenerateArtifacts_in_phases
    (TokenPlatform : tokenPlatform ExtState) (sys : OS FS) (fabric : ChaincodeOps ExtState)
    w tms t :
  tmss w !! tms = Some t →
  registry_wf w →
  ∃ entry w0 en0 res w',
    GetEntry tms w = (Ok entry, w0) ∧
    entries w0 !! entry = Some en0 ∧
    GenerateArtifacts TokenPlatform sys fabric tms w = (res, w') ∧
    Entries w' !! entry_key t = Some entry ∧
    run_in_phases TokenPlatform tms t entry en0 w w' res.
Proof.
  intros Ht Hwf.
  destruct (GetEntry_returns _ _ _ Ht) as (entry & w0 & Hget).
  destruct (GetEntry_frame _ _ _ _ Hget) as (Htm & _ & _ & _ & Htr0).
  destruct (GetEntry_registers _ _ _ _ _ Ht Hget) as [Hkey _].
  destruct (GetEntry_valid _ _ _ _ _ Ht Hwf Hget) as [en0 Hen0].
  assert (Ht0 : tmss w0 !! tms = Some t) by (by rewrite Htm).
  pose proof (sound_generate_wallets entry TokenPlatform tms t w0) as F1.
  exists entry, w0, en0.
  unfold GenerateArtifacts.
  rewrite (bind_ok _ _ _ _ _ Hget).
  rewrite (bind_ok _ _ w0 t w0); [|unfold deref; by rewrite Ht0].
  destruct (generate_wallets TokenPlatform tms t w0) as [[root|e1] w1] eqn:H1;
    simpl in F1.
  2: { (* the wallets failed *)
    rewrite (bind_panic _ _ _ _ _ H1). exists (Panic e1), w1.
    split_and!; [done | done | done | by apply F1 |].
    eapply (phases_conclude _ _ _ _ _ w w0 w1 w1 w1 w1); try done;
      try apply follows_refl.
    right. done. }
  rewrite (bind_ok _ _ _ _ _ H1).
  destruct (generate_wallets_ok _ _ _ _ _ _ Ht0 H1) as (nodes & evs & Hnodes & Htr1 & Hst).
  pose proof (sound_generate_public_parameters entry TokenPlatform sys tms t root w1) as F2.
  destruct (generate_public_parameters TokenPlatform sys tms t root w1)
    as [[[]|e2] w2] eqn:H2; simpl in F2.
  2: { (* the parameters failed *)
    rewrite (bind_panic _ _ _ _ _ H2). exists (Panic e2), w2.
    split_and!; [done | done | done | by apply F2, F1 |].
    eapply (phases_conclude _ _ _ _ _ w w0 w1 w2 w2 w2); try done;
      try apply follows_refl.
    - intros _. by exists nodes, evs.
    - right. done. }
  rewrite (bind_ok _ _ _ _ _ H2).
  destruct (generate_public_parameters_ok _ _ _ _ _ _ _ H2) as (ppRaw & Htr2).
  pose proof (sound_prepare_chaincode entry fabric tms t w2) as F3.
  destruct (prepare_chaincode fabric tms t w2) as [[cc|e3] w3] eqn:H3; simpl in F3.
  2: { (* the chaincode failed *)
    rewrite (bind_panic _ _ _ _ _ H3). exists (Panic e3), w3.
    split_and!; [done | done | done | by apply F3, F2, F1 |].
    eapply (phases_conclude _ _ _ _ _ w w0 w1 w2 w3 w3); try done;
      try apply follows_refl.
    - intros _. by exists nodes, evs.
    - intros _. by exists root, ppRaw.
    - right. done. }
  rewrite (bind_ok _ _ _ _ _ H3).
  assert (Hlt : entry < length (entries w3)).
  { destruct F1 as (_ & _ & Hl1 & _), F2 as (_ & _ & Hl2 & _), F3 as (_ & _ & Hl3 & _).
    apply lookup_lt_Some in Hen0. lia. }
  destruct (lookup_lt_is_Some_2 _ _ Hlt) as [en3 Hen3].
  pose proof (sound_set_TCC (set_TCC_event entry) entry entry {| Chaincode := cc |}
                (ex_intro _ _ eq_refl) w3) as F4.
  rewrite (set_TCC_run _ _ _ _ Hen3) in F4 |- *. simpl in F4.
  eexists (Ok tt), _.
  split_and!; [done | done | done | by apply F3, F2, F1 |].
  eapply (phases_conclude _ _ _ _ _ w w0 w1 w2 w3); try done.
  - intros _. by exists nodes, evs.
  - intros _. by exists root, ppRaw.
  - left. split; [done|]. by eexists.
Qed.


(** *** The registry stays well formed *)

Lemma sound_GenerateArtifacts entry
    (TokenPlatform : tokenPlatform ExtState) (sys : OS FS) (fabric : ChaincodeOps ExtState)
    tms :
  sound (fun _ => True) entry (GenerateArtifacts TokenPlatform sys fabric tms).
Proof.
  unfold GenerateArtifacts.
  apply sound_bind; [apply sound_GetEntry|]. intros e.
  apply sound_bind; [apply sound_deref|]. intros t.
  apply sound_bind;
    [eapply sound_weaken; [|apply sound_generate_wallets]; done|]. intros root.
  apply sound_bind;
    [eapply sound_weaken; [|apply sound_generate_public_parameters]; done|]. intros _.
  apply sound_bind;
    [eapply sound_weaken; [|apply sound_prepare_chaincode]; done|]. intros cc.
  by apply sound_set_TCC.
Qed.

Lemma registry_wf_fresh (descriptors : list TMS) x (d : FS) :
  registry_wf (NewNetworkHandler descriptors x d).
Proof. intros k e H. simpl in H. by rewrite lookup_empty in H. Qed.

Lemma GetEntry_keeps_registry tms w :
  registry_wf w → registry_wf (GetEntry tms w).2.
Proof. apply (sound_GetEntry (fun _ => True) 0 tms w). Qed.

Lemma GenerateCryptoMaterial_keeps_registry g tms node w :
  registry_wf w → registry_wf (GenerateCryptoMaterial g tms node w).2.
Proof. apply (sound_GenerateCryptoMaterial 0 g tms node w). Qed.

Lemma GenerateArtifacts_keeps_registry
    (TokenPlatform : tokenPlatform ExtState) (sys : OS FS) (fabric : ChaincodeOps ExtState)
    tms w :
  registry_wf w → registry_wf (GenerateArtifacts TokenPlatform sys fabric tms w).2.
Proof. apply (sound_GenerateArtifacts 0 TokenPlatform sys fabric tms w). Qed.

(** ** More on the registry *)

Lemma GetEntry_keeps_registry_inj w tms :
  registry_wf w → registry_inj w → registry_inj (GetEntry tms w).2.
Proof.
  intros Hwf Hinj.
  destruct (tmss w !! tms) as [t|] eqn:Ht; [|by rewrite (GetEntry_nil _ _ Ht)].
  destruct (Entries w !! entry_key t) as [e|] eqn:He.
  - by rewrite (GetEntry_found _ _ _ _ Ht He).
  - rewrite (GetEntry_fresh _ _ _ Ht He). intros k1 k2 e. simpl.
    destruct (decide (k1 = entry_key t)) as [->|H1];
      destruct (decide (k2 = entry_key t)) as [->|H2]; try done.
    + rewrite lookup_insert_eq, lookup_insert_ne by done. intros [= <-] Hk.
      destruct (Hwf _ _ Hk) as [en Hen]. apply lookup_lt_Some in Hen. lia.
    + rewrite lookup_insert_eq, lookup_insert_ne by done. intros Hk [= <-].
      destruct (Hwf _ _ Hk) as [en Hen]. apply lookup_lt_Some in Hen. lia.
    + rewrite !lookup_insert_ne by done. apply Hinj.
Qed.

(** What a call of [GetEntry] keeps, and the one thing it may add. *)
Lemma GetEntry_grows w tms :
  (∀ k e, Entries w !! k = Some e → Entries (GetEntry tms w).2 !! k = Some e) ∧
  (∀ e en, entries w !! e = Some en → entries (GetEntry tms w).2 !! e = Some en) ∧
  (∀ k, Entries (GetEntry tms w).2 !! k ≠ Entries w !! k →
     Entries (GetEntry tms w).2 !! k = Some (length (entries w))).
Proof.
  destruct (tmss w !! tms) as [t|] eqn:Ht; [|by rewrite (GetEntry_nil _ _ Ht)].
  destruct (Entries w !! entry_key t) as [e|] eqn:He.
  - by rewrite (GetEntry_found _ _ _ _ Ht He).
  - rewrite (GetEntry_fresh _ _ _ Ht He). simpl. split_and!.
    + intros k e Hk. rewrite lookup_insert_ne; [done|]. congruence.
    + intros e en Hen. by apply lookup_app_l_Some.
    + intros k Hk. destruct (decide (k = entry_key t)) as [->|Hne].
      * by rewrite lookup_insert_eq.
      * by rewrite lookup_insert_ne in Hk.
Qed.

(** X1: [GetEntry] keeps the registry sound.  From a registry whose
    pointers are all in the heap and whose keys point to distinct entries,
    the registry after a call is again so; an entry the call creates is
    referenced by no earlier key, and it holds the descriptor of the call,
    no TCC and no wallet. *)
Theorem GetEntry_keeps_entries_apart w tms :
  registry_wf w →
  registry_inj w →
  registry_wf (GetEntry tms w).2 ∧
  registry_inj (GetEntry tms w).2 ∧
  ∀ t entry w',
    tmss w !! tms = Some t →
    Entries w !! entry_key t = None →
    GetEntry tms w = (Ok entry, w') →
    (∀ k e, Entries w !! k = Some e → e ≠ entry) ∧
    entries w' !! entry = Some {| eTMS := tms; eTCC := None; eWallets := ∅ |}.
Proof.
  intros Hwf Hinj. split_and!.
  - by apply GetEntry_keeps_registry.
  - by apply GetEntry_keeps_registry_inj.
  - intros t entry w' Ht He. rewrite (GetEntry_fresh _ _ _ Ht He). intros [= <- <-].
    split.
    + intros k e Hk ->. destruct (Hwf _ _ Hk) as [en Hen].
      apply lookup_lt_Some in Hen. lia.
    + simpl. by apply list_lookup_middle.
Qed.

(** X2: a call of [GetEntry] changes at most one key.  Every key and
    every entry of before is as it was, at most one entry is added, and the
    wallets, the descriptors, the collaborators, the files and the trace
    are the same; a key whose value changed is the key of the call's
    descriptor, was absent, and now points at the entry appended.  On a nil
    descriptor the call panics and leaves the store as it was. *)
Theorem GetEntry_touches_one_key w tms :
  let w' := (GetEntry tms w).2 in
  (∀ k e, Entries w !! k = Some e → Entries w' !! k = Some e) ∧
  (∀ e en, entries w !! e = Some en → entries w' !! e = Some en) ∧
  length (entries w') ≤ S (length (entries w)) ∧
  wallets w' = wallets w ∧ tmss w' = tmss w ∧ ext w' = ext w ∧ fs w' = fs w ∧
  trace w' = trace w ∧
  (∀ k, Entries w' !! k ≠ Entries w !! k →
     ∃ t, tmss w !! tms = Some t ∧ k = entry_key t ∧ Entries w !! k = None ∧
          Entries w' !! k = Some (length (entries w))) ∧
  (tmss w !! tms = None → (GetEntry tms w) = (Panic NilDereference, w)).
Proof.
  simpl. destruct (tmss w !! tms) as [t|] eqn:Ht.
  - destruct (Entries w !! entry_key t) as [e|] eqn:He.
    + rewrite (GetEntry_found _ _ _ _ Ht He). simpl. split_and!; try done. lia.
    + rewrite (GetEntry_fresh _ _ _ Ht He). simpl. split_and!; try done.
      * intros k e Hk. rewrite lookup_insert_ne; [done|]. congruence.
      * intros e en Hen. by apply lookup_app_l_Some.
      * rewrite length_app. simpl. lia.
      * intros k Hk. exists t. destruct (decide (k = entry_key t)) as [->|Hne].
        -- by rewrite lookup_insert_eq.
        -- by rewrite lookup_insert_ne in Hk.
  - rewrite (GetEntry_nil _ _ Ht). simpl. split_and!; try done. lia.
Qed.


Lemma gcm_world_entries e entry node en wl x evs w0 :
  entries w0 !! entry = Some en →
  entries (gcm_world entry node en wl x evs w0) !! e =
    if decide (e = entry)
    then Some (mkEntry (eTMS en) (eTCC en)
                 (<[Name node := length (wallets w0)]> (eWallets en)))
    else entries w0 !! e.
Proof.
  intros Hen. simpl. case_decide as He.
  - subst. apply list_lookup_insert_eq. by eapply lookup_lt_Some.
  - by apply list_lookup_insert_ne.
Qed.

(** X3: whatever its outcome, a run of [GenerateCryptoMaterial] keeps the
    descriptors and the files, keeps every wallet object there was and
    allocates at most one, keeps every key of the registry, and keeps of
    every entry the descriptor, the TCC and the slot of every other node
    name; an entry other than the one of the run's descriptor is unchanged.
    On a nil descriptor the run changes nothing. *)
Theorem GenerateCryptoMaterial_touches_one_slot g tms node w :
  let w' := (GenerateCryptoMaterial g tms node w).2 in
  tmss w' = tmss w ∧
  fs w' = fs w ∧
  (∀ p wl, wallets w !! p = Some wl → wallets w' !! p = Some wl) ∧
  length (wallets w') ≤ S (length (wallets w)) ∧
  (∀ k e, Entries w !! k = Some e → Entries w' !! k = Some e) ∧
  (∀ e en, entries w !! e = Some en →
     ∃ en', entries w' !! e = Some en' ∧
       eTMS en' = eTMS en ∧ eTCC en' = eTCC en ∧
       (∀ name, name ≠ Name node → eWallets en' !! name = eWallets en !! name) ∧
       (∀ t, tmss w !! tms = Some t → Entries w !! entry_key t ≠ Some e → en' = en)) ∧
  (tmss w !! tms = None → w' = w).
Proof.
  simpl. destruct (tmss w !! tms) as [t|] eqn:Ht.
  2: { unfold GenerateCryptoMaterial.
       rewrite (bind_panic _ _ _ _ _ (GetEntry_nil _ _ Ht)). simpl.
       split_and!; try done; [lia|]. intros e en Hen. by exists en. }
  destruct (GetEntry_returns _ _ _ Ht) as (entry & w0 & Hget).
  destruct (GetEntry_frame _ _ _ _ Hget) as (Htm & Hwal & Hext & Hfs & Htr).
  pose proof (GetEntry_grows w tms) as Hone. rewrite Hget in Hone.
  simpl in Hone. destruct Hone as (HE & Hent & Hkey).
  assert (Hother : ∀ e en, entries w !! e = Some en →
            Entries w !! entry_key t ≠ Some e → e ≠ entry).
  { intros e en Hen Hne ->. apply Hne.
    destruct (GetEntry_registers _ _ _ _ _ Ht Hget) as [Hreg _].
    destruct (decide (Entries w0 !! entry_key t = Entries w !! entry_key t)) as [Heq|Hd].
    - by rewrite <- Heq.
    - pose proof (Hkey _ Hd) as Hnew.
      rewrite Hreg in Hnew. injection Hnew as ->.
      apply lookup_lt_Some in Hen. lia. }
  destruct (entries w0 !! entry) as [en0|] eqn:Hen0.
  - rewrite (GenerateCryptoMaterial_run _ _ _ _ _ _ _ _ Ht Hget Hen0).
    destruct (gcm_summary g t tms node (ext w0)) as [[[res wl] x] evs]. simpl snd.
    split_and!.
    + done.
    + done.
    + intros p wl0 Hp. simpl. rewrite Hwal. by apply lookup_app_l_Some.
    + simpl. rewrite length_app, Hwal. simpl. lia.
    + done.
    + intros e en Hen. rewrite (gcm_world_entries _ _ _ _ _ _ _ _ Hen0).
      case_decide as He.
      * subst e. rewrite (Hent _ _ Hen) in Hen0. injection Hen0 as <-.
        eexists. split; [done|]. simpl. split_and!; try done.
        -- intros name Hne. by rewrite lookup_insert_ne.
        -- intros t' [= <-] Hne. by destruct (Hother _ _ Hen Hne).
      * exists en. split; [by apply Hent|]. done.
    + done.
  - rewrite (GenerateCryptoMaterial_dangling _ _ _ _ _ _ Hget Hen0). simpl.
    split_and!.
    + done.
    + done.
    + intros p wl0 Hp. rewrite Hwal. by apply lookup_app_l_Some.
    + rewrite length_app, Hwal. simpl. lia.
    + done.
    + intros e en Hen. exists en. split; [by apply Hent|]. done.
    + done.
Qed.

(** ** The order of the generator calls *)

Lemma generated_roles_app evs1 evs2 :
  generated_roles (evs1 ++ evs2) = generated_roles evs1 ++ generated_roles evs2.
Proof. apply omap_app. Qed.

Lemma block_roles r g t tms node wl x res wl' x' evs :
  block_summary r g t tms node wl x = (res, wl', x', evs) →
  generated_roles evs = if role_enabled r node then [r] else [].
Proof.
  destruct r; unfold block_summary, multi_summary, single_summary, role_enabled;
    repeat first [case_decide | case_match]; intros [= <- <- <- <-]; simpl;
    try done; try (by rewrite bool_decide_eq_true_2);
    try (by rewrite bool_decide_eq_false_2).
Qed.

Lemma run_blocks_roles rs g t tms node : ∀ wl x res wl' x' evs,
  run_blocks rs g t tms node wl x = (res, wl', x', evs) →
  generated_roles evs `prefix_of` filter (fun r => role_enabled r node = true) rs ∧
  (res = Ok tt →
   generated_roles evs = filter (fun r => role_enabled r node = true) rs).
Proof.
  induction rs as [|r rs IH]; intros wl x res wl' x' evs; simpl.
  - by intros [= <- <- <- <-].
  - intros [(e & Hb & ->)|(wl0 & x0 & evs0 & evs1 & Hb & Hk & ->)]%and_then_inv.
    + rewrite (block_roles _ _ _ _ _ _ _ _ _ _ _ Hb). rewrite filter_cons.
      split; [|done]. destruct (role_enabled r node) eqn:Hr.
      * rewrite decide_True by done. by apply prefix_cons, prefix_nil.
      * rewrite decide_False by done. apply prefix_nil.
    + rewrite generated_roles_app, (block_roles _ _ _ _ _ _ _ _ _ _ _ Hb), filter_cons.
      destruct (IH _ _ _ _ _ _ Hk) as [IH1 IH2].
      destruct (role_enabled r node) eqn:Hr.
      * rewrite decide_True by done. simpl. split; [by apply prefix_cons|].
        intros Hok. by rewrite IH2.
      * rewrite decide_False by done. done.
Qed.

(** X4: the generators are called in the order issuers, owners,
    auditors, certifiers, each at most once and only for a role the node is
    configured for: the roles of the calls of a run are a prefix of the
    configured roles in that order, and all of them when the run
    returns. *)
Theorem generators_called_in_role_order g tms t node w :
  tmss w !! tms = Some t →
  registry_wf w →
  ∃ res w',
    GenerateCryptoMaterial g tms node w = (res, w') ∧
    generated_roles (new_events w w') `prefix_of`
      filter (fun r => role_enabled r node = true)
        [IssuerRole; OwnerRole; AuditorRole; CertifierRole] ∧
    (res = Ok tt →
     generated_roles (new_events w w') =
       filter (fun r => role_enabled r node = true)
         [IssuerRole; OwnerRole; AuditorRole; CertifierRole]).
Proof.
  intros Ht Hwf.
  destruct (GenerateCryptoMaterial_any g _ _ node _ Ht Hwf)
    as (entry & res & wl & x & evs & w' & Hsum & Hrun & _ & _ & _ & Hev).
  exists res, w'. split; [done|]. rewrite Hev. simpl.
  change (generated_roles evs `prefix_of` filter (fun r => role_enabled r node = true) block_order ∧
          (res = Ok tt → generated_roles evs = filter (fun r => role_enabled r node = true) block_order)).
  by eapply run_blocks_roles.
Qed.


(** ** The [Wallets] function of [GenerateExtension] *)

(** X10: after a run of [GenerateCryptoMaterial] that returns, the
    [Wallets] function of [GenerateExtension] for the same descriptor and
    node returns the wallet that run allocated, and changes nothing. *)
Theorem ExtensionWallets_after_GenerateCryptoMaterial g tms t node w w' :
  tmss w !! tms = Some t →
  GenerateCryptoMaterial g tms node w = (Ok tt, w') →
  ∃ p wl,
    ExtensionWallets tms node w' = (Ok (Some p), w') ∧
    wallets w' !! p = Some wl ∧
    produced_wallet w w' = Some wl.
Proof.
  intros Ht Hrun.
  destruct (GenerateCryptoMaterial_ok _ _ _ _ _ _ Ht Hrun)
    as (entry & wl & x & evs & _ & Hkey & Hlook & Hprod & _).
  destruct (GenerateCryptoMaterial_ok_trace _ _ _ _ _ _ Ht Hrun) as (_ & _ & _ & Htm).
  unfold lookup_wallet in Hlook.
  destruct (entries w' !! entry) as [en|] eqn:Hen; [|done]. simpl in Hlook.
  destruct (eWallets en !! Name node) as [p|] eqn:Hp; [|done]. simpl in Hlook.
  exists p, wl. split_and!; [|done|done].
  unfold ExtensionWallets.
  rewrite (bind_ok _ _ w' entry w'); [|apply (GetEntry_found _ _ t); by rewrite ?Htm].
  rewrite (bind_ok _ _ w' en w'); [|unfold deref; by rewrite Hen].
  unfold ret. by rewrite Hp.
Qed.

(** X11: the [Wallets] function of [GenerateExtension] goes through
    [GetEntry].  For a descriptor without entry it registers a new, empty
    entry and returns nil; for a registered one it returns the slot of the
    node's name and changes nothing. *)
Theorem ExtensionWallets_registers_unknown_descriptor tms t node w :
  tmss w !! tms = Some t →
  registry_wf w →
  ∃ o w',
    ExtensionWallets tms node w = (Ok o, w') ∧
    (Entries w !! entry_key t = None →
     o = None ∧
     Entries w' !! entry_key t = Some (length (entries w)) ∧
     entries w' = entries w ++ [ {| eTMS := tms; eTCC := None; eWallets := ∅ |} ]) ∧
    (∀ entry, Entries w !! entry_key t = Some entry →
     w' = w ∧ o = slot w entry (Name node)).
Proof.
  intros Ht Hwf. unfold ExtensionWallets.
  destruct (Entries w !! entry_key t) as [e|] eqn:He.
  - destruct (Hwf _ _ He) as [en Hen].
    rewrite (bind_ok _ _ _ _ _ (GetEntry_found _ _ _ _ Ht He)).
    rewrite (bind_ok _ _ w en w); [|unfold deref; by rewrite Hen].
    eexists _, _. split; [done|]. split; [done|].
    intros entry [= <-]. split; [done|]. unfold slot. by rewrite Hen.
  - rewrite (bind_ok _ _ _ _ _ (GetEntry_fresh _ _ _ Ht He)).
    rewrite (bind_ok _ _ (with_new_entry tms t w)
               {| eTMS := tms; eTCC := None; eWallets := ∅ |} (with_new_entry tms t w)).
    2: { unfold deref. simpl. by rewrite list_lookup_middle. }
    eexists _, _. split; [done|]. split; [|done].
    intros _. simpl. split_and!; [done | apply lookup_insert_eq | done].
Qed.

(** ** What [GenerateArtifacts] leaves alone *)

Lemma steady_refl entry w : steady entry w w.
Proof. split_and!; try done. intros en Hen. by exists en. Qed.

Lemma steady_trans entry w1 w2 w3 :
  steady entry w1 w2 → steady entry w2 w3 → steady entry w1 w3.
Proof.
  intros (HE1 & Ht1 & Hl1 & Ho1 & Hd1 & Hw1) (HE2 & Ht2 & Hl2 & Ho2 & Hd2 & Hw2).
  split_and!; try congruence.
  - intros e He. by rewrite Ho2, Ho1.
  - intros en Hen. destruct (Hd1 _ Hen) as (en1 & Hen1 & Heq1).
    destruct (Hd2 _ Hen1) as (en2 & Hen2 & Heq2). exists en2. split; congruence.
  - intros p wl Hp. by apply Hw2, Hw1.
Qed.

(** A store that differs outside the registry, the heaps and the
    descriptors. *)
Lemma steady_same entry w w' :
  Entries w' = Entries w → entries w' = entries w → wallets w' = wallets w →
  tmss w' = tmss w → steady entry w w'.
Proof.
  intros HE He Hw Ht. split_and!; try done.
  - by rewrite He.
  - intros e _. by rewrite He.
  - intros en Hen. exists en. by rewrite He.
  - intros p wl. by rewrite Hw.
Qed.

Lemma GenerateCryptoMaterial_steady g tms t node entry w :
  tmss w !! tms = Some t →
  Entries w !! entry_key t = Some entry →
  steady entry w (GenerateCryptoMaterial g tms node w).2.
Proof.
  intros Ht Hkey.
  pose proof (GetEntry_found _ _ _ _ Ht Hkey) as Hget.
  destruct (entries w !! entry) as [en|] eqn:Hen.
  - rewrite (GenerateCryptoMaterial_run _ _ _ _ _ _ _ _ Ht Hget Hen).
    destruct (gcm_summary g t tms node (ext w)) as [[[res wl] x] evs]. simpl snd.
    split_and!; try done.
    + simpl. by rewrite length_insert.
    + intros e He. rewrite (gcm_world_entries _ _ _ _ _ _ _ _ Hen).
      by rewrite decide_False.
    + intros en0 Hen0. rewrite Hen in Hen0. injection Hen0 as <-.
      rewrite (gcm_world_entries _ _ _ _ _ _ _ _ Hen).
      rewrite decide_True by done. by eexists.
    + intros p wl0 Hp. simpl. by apply lookup_app_l_Some.
  - rewrite (GenerateCryptoMaterial_dangling _ _ _ _ _ _ Hget Hen). simpl.
    split_and!.
    + done.
    + done.
    + done.
    + done.
    + intros en0 Hen0. simpl. by exists en0.
    + intros p wl0 Hp. simpl. by apply lookup_app_l_Some.
Qed.

Lemma for_each_GenerateCryptoMaterial_steady g tms t entry nodes : ∀ w,
  tmss w !! tms = Some t →
  Entries w !! entry_key t = Some entry →
  steady entry w (for_each nodes (fun node => GenerateCryptoMaterial g tms node) w).2.
Proof.
  induction nodes as [|node nodes IH]; intros w Ht Hkey; simpl.
  - apply steady_refl.
  - pose proof (GenerateCryptoMaterial_steady g tms t node entry w Ht Hkey) as H1.
    unfold bind.
    destruct (GenerateCryptoMaterial g tms node w) as [[[]|e] w1]; simpl in *; [|done].
    eapply steady_trans; [exact H1|]. destruct H1 as (HE & Htm & _).
    apply IH; by rewrite ?HE, ?Htm.
Qed.

(** The stores of the stages, when each returns. *)
Lemma generate_wallets_inv (TokenPlatform : tokenPlatform ExtState) tms t w root w' :
  generate_wallets TokenPlatform tms t w = (Ok root, w') →
  ∃ g x nodes,
    GetCryptoMaterialGenerator TokenPlatform (Driver t) = Some g ∧
    Setup g t (ext w) = ((root, None), x) ∧
    FSCNodes TokenPlatform = Some nodes ∧
    for_each nodes (fun node => GenerateCryptoMaterial g tms node)
      (log (EvSetup tms) (set_ext x w)) = (Ok tt, w').
Proof.
  unfold generate_wallets, bind, non_nil, call_ext, returns, type_assert.
  destruct (GetCryptoMaterialGenerator TokenPlatform (Driver t)) as [g|]; [|done].
  simpl. destruct (Setup g t (ext w)) as [[root0 err] x] eqn:Hs. simpl.
  destruct err; [done|]. simpl.
  destruct (FSCNodes TokenPlatform) as [nodes|]; [|done]. simpl.
  destruct (for_each nodes _ _) as [[[]|e] w2] eqn:Hloop; [|done].
  intros [= <- <-]. by exists g, x, nodes.
Qed.

Lemma generate_public_parameters_inv (TokenPlatform : tokenPlatform ExtState) (sys : OS FS)
    tms t root w w' :
  generate_public_parameters TokenPlatform sys tms t root w = (Ok tt, w') →
  ∃ ppg ppRaw x d1 d2,
    GetPublicParamsGenerators TokenPlatform (Driver t) = Some ppg ∧
    Generate ppg t (root :: PublicParamsGenArgs t) (ext w) = ((ppRaw, None), x) ∧
    MkdirAll sys (PublicParametersDir TokenPlatform) (fs w) = (None, d1) ∧
    WriteFile sys (PublicParametersFile TokenPlatform t) ppRaw d1 = (None, d2) ∧
    w' = mkWorld (Entries w) (entries w) (wallets w) (tmss w) x d2
           (trace w ++
              [ EvPPGenerate tms (root :: PublicParamsGenArgs t);
                EvMkdirAll (PublicParametersDir TokenPlatform);
                EvWriteFile (PublicParametersFile TokenPlatform t) ppRaw ]).
Proof.
  unfold generate_public_parameters, bind, expect_not_nil, call_ext, returns, call_os.
  destruct (GetPublicParamsGenerators TokenPlatform (Driver t)) as [ppg|]; [|done].
  simpl. destruct (Generate ppg t _ (ext w)) as [[ppRaw err] x'] eqn:Hg. simpl.
  destruct err; [done|]. simpl.
  destruct (MkdirAll sys _ (fs w)) as [err1 d1] eqn:Hm. simpl.
  destruct err1; [done|]. simpl.
  destruct (WriteFile sys _ ppRaw d1) as [err2 d2] eqn:Hw. simpl.
  destruct err2; [done|]. simpl.
  intros [= <-]. exists ppg, ppRaw, x', d1, d2. split_and!; try done.
  unfold log, set_fs, set_ext. simpl. by rewrite <- !app_assoc.
Qed.

Lemma prepare_chaincode_inv (fabric : ChaincodeOps ExtState) tms t w cc w' :
  prepare_chaincode fabric tms t w = (Ok cc, w') →
  ∃ x evs,
    w' = mkWorld (Entries w) (entries w) (wallets w) (tmss w) x (fs w) (trace w ++ evs) ∧
    if Private (TokenChaincode t) then
      ∃ c ctor x1,
        AddFPC fabric (Network t) (Namespace t) (DockerImage (TokenChaincode t))
          (Orgs (TokenChaincode t)) (ext w) = (Some c, x1) ∧
        TCCCtor fabric t x1 = (Some ctor, x) ∧
        cc = {| Ctor := ctor; cc_descriptor := cc_descriptor c |} ∧
        evs = [EvAddFPC tms; EvTCCCtor tms]
    else
      ∃ x1,
        PrepareTCC fabric t (ext w) = (Some cc, x1) ∧
        AddChaincode fabric (Network t) cc x1 = (Some tt, x) ∧
        evs = [EvPrepareTCC tms; EvAddChaincode tms].
Proof.
  unfold prepare_chaincode, bind, call_ext.
  destruct (Private (TokenChaincode t)).
  - destruct (AddFPC fabric _ _ _ _ (ext w)) as [[c|] x1] eqn:H1; [|done]. simpl.
    destruct (TCCCtor fabric t x1) as [[ctor|] x2] eqn:H2; [|done]. simpl.
    intros [= <- <-]. exists x2, [EvAddFPC tms; EvTCCCtor tms]. split.
    + unfold log, set_ext. simpl. by rewrite <- !app_assoc.
    + by exists c, ctor, x1.
  - destruct (PrepareTCC fabric t (ext w)) as [[c|] x1] eqn:H1; [|done]. simpl.
    destruct (AddChaincode fabric _ c x1) as [[[]|] x2] eqn:H2; [|done]. simpl.
    intros [= <- <-]. exists x2, [EvPrepareTCC tms; EvAddChaincode tms]. split.
    + unfold log, set_ext. simpl. by rewrite <- !app_assoc.
    + by exists x1.
Qed.

Lemma GenerateArtifacts_inv
    (TokenPlatform : tokenPlatform ExtState) (sys : OS FS) (fabric : ChaincodeOps ExtState)
    w tms t w' :
  tmss w !! tms = Some t →
  GenerateArtifacts TokenPlatform sys fabric tms w = (Ok tt, w') →
  ∃ entry w0 root w1 w2 cc w3,
    GetEntry tms w = (Ok entry, w0) ∧
    generate_wallets TokenPlatform tms t w0 = (Ok root, w1) ∧
    generate_public_parameters TokenPlatform sys tms t root w1 = (Ok tt, w2) ∧
    prepare_chaincode fabric tms t w2 = (Ok cc, w3) ∧
    set_TCC entry {| Chaincode := cc |} w3 = (Ok tt, w').
Proof.
  intros Ht. destruct (GetEntry_returns _ _ _ Ht) as (entry & w0 & Hget).
  destruct (GetEntry_frame _ _ _ _ Hget) as (Htm & _).
  unfold GenerateArtifacts.
  rewrite (bind_ok _ _ _ _ _ Hget).
  rewrite (bind_ok _ _ w0 t w0); [|unfold deref; by rewrite Htm, Ht].
  unfold bind.
  destruct (generate_wallets TokenPlatform tms t w0) as [[root|?] w1] eqn:H1; [|done].
  destruct (generate_public_parameters TokenPlatform sys tms t root w1)
    as [[[]|?] w2] eqn:H2; [|done].
  destruct (prepare_chaincode fabric tms t w2) as [[cc|?] w3] eqn:H3; [|done].
  intros H4. by exists entry, w0, root, w1, w2, cc, w3.
Qed.


Lemma generate_public_parameters_steady entry (TokenPlatform : tokenPlatform ExtState)
    (sys : OS FS) tms t root w :
  steady entry w (generate_public_parameters TokenPlatform sys tms t root w).2.
Proof.
  apply steady_same;
    unfold generate_public_parameters, bind, expect_not_nil, call_ext, returns, call_os,
      expect_no_error;
    destruct (GetPublicParamsGenerators TokenPlatform (Driver t)) as [ppg|]; simpl; try done;
    destruct (Generate ppg t _ (ext w)) as [[ppRaw [err|]] x']; simpl; try done;
    destruct (MkdirAll sys _ (fs w)) as [[err1|] d1]; simpl; try done;
    destruct (WriteFile sys _ ppRaw d1) as [[err2|] d2]; simpl; done.
Qed.

Lemma prepare_chaincode_steady entry (fabric : ChaincodeOps ExtState) tms t w :
  steady entry w (prepare_chaincode fabric tms t w).2.
Proof.
  apply steady_same; unfold prepare_chaincode, bind, call_ext;
    destruct (Private (TokenChaincode t)).
  all: try (destruct (AddFPC fabric _ _ _ _ (ext w)) as [[c|] x1]; simpl; try done;
            destruct (TCCCtor fabric t x1) as [[ctor|] x2]; simpl; done).
  all: destruct (PrepareTCC fabric t (ext w)) as [[c|] x1]; simpl; try done;
       destruct (AddChaincode fabric _ c x1) as [[[]|] x2]; simpl; done.
Qed.

Lemma set_TCC_steady entry tcc w : steady entry w (set_TCC entry tcc w).2.
Proof.
  destruct (entries w !! entry) as [en|] eqn:Hen.
  - rewrite (set_TCC_run _ _ _ _ Hen). simpl. split_and!; try done.
    + simpl. by rewrite length_insert.
    + intros e He. simpl. by apply list_lookup_insert_ne.
    + intros en0 Hen0. rewrite Hen in Hen0. injection Hen0 as <-. simpl.
      rewrite list_lookup_insert_eq by (by eapply lookup_lt_Some). by eexists.
  - rewrite (set_TCC_nil _ _ _ Hen). apply steady_refl.
Qed.

Lemma generate_wallets_steady entry (TokenPlatform : tokenPlatform ExtState) tms t w :
  tmss w !! tms = Some t →
  Entries w !! entry_key t = Some entry →
  steady entry w (generate_wallets TokenPlatform tms t w).2.
Proof.
  intros Ht Hkey. unfold generate_wallets, bind, non_nil, call_ext, returns, type_assert.
  destruct (GetCryptoMaterialGenerator TokenPlatform (Driver t)) as [g|];
    [|apply steady_refl].
  simpl. destruct (Setup g t (ext w)) as [[root0 err] x]. simpl.
  set (ws := log (EvSetup tms) (set_ext x w)).
  assert (Hs : steady entry w ws) by (by apply steady_same).
  destruct err; [done|]. simpl.
  destruct (FSCNodes TokenPlatform) as [nodes|]; [|done]. simpl.
  pose proof (for_each_GenerateCryptoMaterial_steady g tms t entry nodes ws Ht Hkey) as Hl.
  destruct (for_each nodes _ ws) as [[[]|e] w2]; simpl in Hl |- *;
    exact (steady_trans _ _ _ _ Hs Hl).
Qed.

Lemma GenerateArtifacts_steady
    (TokenPlatform : tokenPlatform ExtState) (sys : OS FS) (fabric : ChaincodeOps ExtState)
    w tms t entry w0 :
  tmss w !! tms = Some t →
  GetEntry tms w = (Ok entry, w0) →
  steady entry w0 (GenerateArtifacts TokenPlatform sys fabric tms w).2.
Proof.
  intros Ht Hget.
  destruct (GetEntry_frame _ _ _ _ Hget) as (Htm & _).
  destruct (GetEntry_registers _ _ _ _ _ Ht Hget) as [Hkey _].
  assert (Ht0 : tmss w0 !! tms = Some t) by (by rewrite Htm).
  unfold GenerateArtifacts.
  rewrite (bind_ok _ _ _ _ _ Hget).
  rewrite (bind_ok _ _ w0 t w0); [|unfold deref; by rewrite Ht0].
  pose proof (generate_wallets_steady entry TokenPlatform tms t w0 Ht0 Hkey) as S1.
  unfold bind.
  destruct (generate_wallets TokenPlatform tms t w0) as [[root|?] w1]; simpl in S1; [|done].
  pose proof (generate_public_parameters_steady entry TokenPlatform sys tms t root w1) as S2.
  destruct (generate_public_parameters TokenPlatform sys tms t root w1)
    as [[[]|?] w2]; simpl in S2; [|by eapply steady_trans].
  pose proof (prepare_chaincode_steady entry fabric tms t w2) as S3.
  destruct (prepare_chaincode fabric tms t w2) as [[cc|?] w3]; simpl in S3;
    [|by eauto using steady_trans].
  pose proof (set_TCC_steady entry {| Chaincode := cc |} w3) as S4.
  eauto using steady_trans.
Qed.

Lemma registry_inj_same w w' :
  Entries w' = Entries w → registry_inj w → registry_inj w'.
Proof. intros HE Hinj k1 k2 e. rewrite HE. apply Hinj. Qed.

(** X5: whatever its outcome, a run of [GenerateArtifacts] works on the
    entry [GetEntry] returns for its descriptor and on no other.  After it
    the registry is as [GetEntry] left it, the descriptors are the same, no
    further entry was created, every other entry is unchanged, the entry
    keeps its descriptor, and every wallet object of before is unchanged.
    A sound registry stays sound. *)
Theorem GenerateArtifacts_touches_one_entry
    (TokenPlatform : tokenPlatform ExtState) (sys : OS FS) (fabric : ChaincodeOps ExtState)
    w tms t :
  tmss w !! tms = Some t →
  ∃ entry w0,
    GetEntry tms w = (Ok entry, w0) ∧
    let w' := (GenerateArtifacts TokenPlatform sys fabric tms w).2 in
    Entries w' = Entries w0 ∧
    tmss w' = tmss w ∧
    length (entries w') = length (entries w0) ∧
    (∀ e, e ≠ entry → entries w' !! e = entries w0 !! e) ∧
    (∀ en, entries w0 !! entry = Some en →
       ∃ en', entries w' !! entry = Some en' ∧ eTMS en' = eTMS en) ∧
    (∀ p wl, wallets w !! p = Some wl → wallets w' !! p = Some wl) ∧
    (registry_wf w → registry_inj w → registry_wf w' ∧ registry_inj w').
Proof.
  intros Ht. destruct (GetEntry_returns _ _ _ Ht) as (entry & w0 & Hget).
  exists entry, w0. split; [done|]. simpl.
  destruct (GetEntry_frame _ _ _ _ Hget) as (Htm & Hwal & _).
  destruct (GenerateArtifacts_steady TokenPlatform sys fabric w tms t entry w0 Ht Hget)
    as (HE & Ht' & Hl & Ho & Hd & Hw).
  split_and!; try done.
  - congruence.
  - intros p wl Hp. apply Hw. by rewrite Hwal.
  - intros Hwf Hinj. split; [by apply GenerateArtifacts_keeps_registry|].
    apply (registry_inj_same w0); [done|].
    pose proof (GetEntry_keeps_registry_inj w tms Hwf Hinj) as H.
    by rewrite Hget in H.
Qed.

(** ** The wallets of a run of [GenerateArtifacts] *)

Lemma GenerateCryptoMaterial_found g tms t node entry en w :
  tmss w !! tms = Some t →
  Entries w !! entry_key t = Some entry →
  entries w !! entry = Some en →
  GenerateCryptoMaterial g tms node w =
    let '(res, wl, x, evs) := gcm_summary g t tms node (ext w) in
    (res, gcm_world entry node en wl x evs w).
Proof.
  intros Ht Hkey Hen.
  apply (GenerateCryptoMaterial_run g tms t node w entry w en Ht); [|done].
  by apply (GetEntry_found _ _ t).
Qed.

Lemma slot_gcm_world entry node en wl x evs w name :
  entries w !! entry = Some en →
  slot (gcm_world entry node en wl x evs w) entry name =
    if decide (name = Name node) then Some (length (wallets w)) else slot w entry name.
Proof.
  intros Hen. unfold slot. rewrite (gcm_world_entries _ _ _ _ _ _ _ _ Hen).
  rewrite decide_True by done. rewrite Hen. simpl. case_decide as Hn.
  - subst. apply lookup_insert_eq.
  - by apply lookup_insert_ne.
Qed.

Lemma for_each_GenerateCryptoMaterial_slots g tms t entry nodes : ∀ w w',
  tmss w !! tms = Some t →
  Entries w !! entry_key t = Some entry →
  is_Some (entries w !! entry) →
  for_each nodes (fun node => GenerateCryptoMaterial g tms node) w = (Ok tt, w') →
  length (wallets w') = length (wallets w) + length nodes ∧
  (∀ i node, nodes !! i = Some node →
     ∃ x wl x' evs,
       gcm_summary g t tms node x = (Ok tt, wl, x', evs) ∧
       wallets w' !! (length (wallets w) + i) = Some wl) ∧
  (∀ i node, nodes !! i = Some node →
     (∀ j node', i < j → nodes !! j = Some node' → Name node' ≠ Name node) →
     slot w' entry (Name node) = Some (length (wallets w) + i)) ∧
  (∀ name, name ∉ Name <$> nodes → slot w' entry name = slot w entry name).
Proof.
  induction nodes as [|node nodes IH]; intros w w' Ht Hkey [en Hen] Hrun.
  - simpl in Hrun. injection Hrun as <-. split_and!; try done; simpl; lia.
  - simpl in Hrun. unfold bind in Hrun.
    pose proof (for_each_GenerateCryptoMaterial_steady g tms t entry nodes) as Hst.
    rewrite (GenerateCryptoMaterial_found _ _ _ _ _ _ _ Ht Hkey Hen) in Hrun.
    destruct (gcm_summary g t tms node (ext w)) as [[[res wl] x] evs] eqn:Hsum.
    destruct res as [[]|]; [|done].
    set (w1 := gcm_world entry node en wl x evs w) in *.
    assert (Hen1 : is_Some (entries w1 !! entry)).
    { unfold w1. rewrite (gcm_world_entries _ _ _ _ _ _ _ _ Hen).
      by rewrite decide_True. }
    specialize (Hst w1 Ht Hkey). rewrite Hrun in Hst. simpl in Hst.
    destruct Hst as (_ & _ & _ & _ & _ & Hkeep).
    destruct (IH w1 w' Ht Hkey Hen1 Hrun) as (Hlen & Hwal & Hslot & Hframe).
    assert (Hl1 : length (wallets w1) = S (length (wallets w))).
    { unfold w1. simpl. rewrite length_app. simpl. lia. }
    split_and!.
    + simpl. lia.
    + intros [|i] node0 Hi; simpl in Hi.
      * injection Hi as <-. exists (ext w), wl, x, evs. split; [done|].
        apply Hkeep. unfold w1. simpl. rewrite Nat.add_0_r.
        by apply list_lookup_middle.
      * destruct (Hwal _ _ Hi) as (x0 & wl0 & x0' & evs0 & H0 & H1).
        exists x0, wl0, x0', evs0. split; [done|].
        rewrite <- H1. f_equal. lia.
    + intros [|i] node0 Hi Hlast; simpl in Hi.
      * injection Hi as <-. rewrite Hframe.
        -- unfold w1. rewrite (slot_gcm_world _ _ _ _ _ _ _ _ Hen).
           rewrite decide_True by done. f_equal. lia.
        -- intros (node' & Heq & [j Hj]%list_elem_of_lookup)%list_elem_of_fmap.
           apply (Hlast (S j) node'); [lia|done|done].
      * rewrite (Hslot i node0 Hi).
        -- f_equal. lia.
        -- intros j node' Hij Hj. apply (Hlast (S j) node'); [lia|done].
    + intros name [Hne Hnot]%not_elem_of_cons. rewrite (Hframe _ Hnot).
      unfold w1. rewrite (slot_gcm_world _ _ _ _ _ _ _ _ Hen).
      by rewrite decide_False.
Qed.

(** The store a run of [GenerateArtifacts] that returns leaves. *)
Lemma GenerateArtifacts_ok_shape
    (TokenPlatform : tokenPlatform ExtState) (sys : OS FS) (fabric : ChaincodeOps ExtState)
    w tms t w' :
  tmss w !! tms = Some t →
  GenerateArtifacts TokenPlatform sys fabric tms w = (Ok tt, w') →
  ∃ entry w0 g x0 root nodes w1 ppg ppRaw x2 d1 d2 cc x3 evs3 en1,
    GetEntry tms w = (Ok entry, w0) ∧
    GetCryptoMaterialGenerator TokenPlatform (Driver t) = Some g ∧
    Setup g t (ext w) = ((root, None), x0) ∧
    FSCNodes TokenPlatform = Some nodes ∧
    for_each nodes (fun node => GenerateCryptoMaterial g tms node)
      (log (EvSetup tms) (set_ext x0 w0)) = (Ok tt, w1) ∧
    GetPublicParamsGenerators TokenPlatform (Driver t) = Some ppg ∧
    Generate ppg t (root :: PublicParamsGenArgs t) (ext w1) = ((ppRaw, None), x2) ∧
    MkdirAll sys (PublicParametersDir TokenPlatform) (fs w1) = (None, d1) ∧
    WriteFile sys (PublicParametersFile TokenPlatform t) ppRaw d1 = (None, d2) ∧
    (if Private (TokenChaincode t) then
       ∃ c ctor x',
         AddFPC fabric (Network t) (Namespace t) (DockerImage (TokenChaincode t))
           (Orgs (TokenChaincode t)) x2 = (Some c, x') ∧
         TCCCtor fabric t x' = (Some ctor, x3) ∧
         cc = {| Ctor := ctor; cc_descriptor := cc_descriptor c |} ∧
         evs3 = [EvAddFPC tms; EvTCCCtor tms]
     else
       ∃ x',
         PrepareTCC fabric t x2 = (Some cc, x') ∧
         AddChaincode fabric (Network t) cc x' = (Some tt, x3) ∧
         evs3 = [EvPrepareTCC tms; EvAddChaincode tms]) ∧
    entries w1 !! entry = Some en1 ∧
    w' = mkWorld (Entries w1)
           (<[entry := mkEntry (eTMS en1) (Some {| Chaincode := cc |}) (eWallets en1)]>
              (entries w1))
           (wallets w1) (tmss w1) x3 d2
           (trace w1 ++
              [ EvPPGenerate tms (root :: PublicParamsGenArgs t);
                EvMkdirAll (PublicParametersDir TokenPlatform);
                EvWriteFile (PublicParametersFile TokenPlatform t) ppRaw ] ++
              evs3 ++ [EvSetTCC entry {| Chaincode := cc |}]).
Proof.
  intros Ht Hrun.
  destruct (GenerateArtifacts_inv _ _ _ _ _ _ _ Ht Hrun)
    as (entry & w0 & root & w1 & w2 & cc & w3 & Hget & H1 & H2 & H3 & H4).
  destruct (GetEntry_frame _ _ _ _ Hget) as (_ & _ & Hext & _).
  destruct (generate_wallets_inv _ _ _ _ _ _ H1) as (g & x0 & nodes & Hg & Hs & Hn & Hloop).
  destruct (generate_public_parameters_inv _ _ _ _ _ _ _ H2)
    as (ppg & ppRaw & x2 & d1 & d2 & Hp & Hgen & Hmk & Hwr & ->).
  destruct (prepare_chaincode_inv _ _ _ _ _ _ H3) as (x3 & evs3 & -> & Hcc).
  simpl in Hcc.
  destruct (entries w1 !! entry) as [en1|] eqn:Hen1.
  2: { rewrite set_TCC_nil in H4 by done. done. }
  rewrite (set_TCC_run _ _ _ en1) in H4 by done. injection H4 as <-.
  exists entry, w0, g, x0, root, nodes, w1, ppg, ppRaw, x2, d1, d2, cc, x3, evs3, en1.
  rewrite <- Hext. split_and!; try done.
  unfold log, set_entries. simpl. by rewrite <- !app_assoc.
Qed.


Lemma for_each_GenerateCryptoMaterial_named g tms t entry nodes w w' :
  tmss w !! tms = Some t →
  Entries w !! entry_key t = Some entry →
  is_Some (entries w !! entry) →
  for_each nodes (fun node => GenerateCryptoMaterial g tms node) w = (Ok tt, w') →
  ∀ node, node ∈ nodes →
    ∃ i, i < length nodes ∧ slot w' entry (Name node) = Some (length (wallets w) + i).
Proof.
  intros Ht Hkey Hen Hrun.
  destruct (for_each_GenerateCryptoMaterial_slots _ _ _ _ _ _ _ Ht Hkey Hen Hrun)
    as (_ & _ & Hslot & _).
  clear Hrun Hen Hkey Ht. revert Hslot.
  generalize (length (wallets w)). intros base.
  induction nodes as [|node0 nodes IH] using rev_ind; intros Hslot node Hin.
  - by apply elem_of_nil in Hin.
  - destruct (decide (Name node = Name node0)) as [Heq|Hne].
    + exists (length nodes). rewrite length_app. simpl. split; [lia|].
      rewrite Heq. apply Hslot.
      * by apply list_lookup_middle.
      * intros j node' Hj Hl. apply lookup_lt_Some in Hl.
        rewrite length_app in Hl. simpl in Hl. lia.
    + apply elem_of_app in Hin as [Hin|Hin%list_elem_of_singleton]; [|by subst].
      apply list_elem_of_lookup in Hin as [i0 Hi0].
      assert (Hex : ∃ i, i < length nodes ∧ ∃ n, nodes !! i = Some n ∧ Name n = Name node ∧
                ∀ j n', i < j → nodes !! j = Some n' → Name n' ≠ Name node).
      { clear IH Hslot Hne. revert i0 Hi0.
        induction nodes as [|n1 nodes IHn] using rev_ind; intros i0 Hi0; [done|].
        destruct (decide (Name n1 = Name node)) as [Heq|Hne].
        - exists (length nodes). rewrite length_app. simpl. split; [lia|].
          exists n1. split; [by apply list_lookup_middle|]. split; [done|].
          intros j n' Hj Hl. apply lookup_lt_Some in Hl.
          rewrite length_app in Hl. simpl in Hl. lia.
        - assert (Hi : nodes !! i0 = Some node).
          { apply lookup_app_Some in Hi0 as [?|[_ Hi0]]; [done|].
            apply list_lookup_singleton_Some in Hi0 as [_ ->]. done. }
          destruct (IHn _ Hi) as (i & Hlt & n & Hn & Hname & Hlast).
          exists i. rewrite length_app. simpl. split; [lia|].
          exists n. split; [by apply lookup_app_l_Some|]. split; [done|].
          intros j n' Hj Hl. apply lookup_app_Some in Hl as [Hl|[_ Hl]].
          + by apply (Hlast j).
          + apply list_lookup_singleton_Some in Hl as [_ <-]. done. }
      destruct Hex as (i & Hlt & n & Hn & Hname & Hlast).
      exists i. rewrite length_app. simpl. split; [lia|].
      rewrite <- Hname. apply Hslot.
      * by apply lookup_app_l_Some.
      * intros j n' Hj Hl. rewrite Hname.
        apply lookup_app_Some in Hl as [Hl|[_ Hl]].
        -- by apply (Hlast j).
        -- apply list_lookup_singleton_Some in Hl as [_ <-]. congruence.
Qed.

Lemma for_each_GenerateCryptoMaterial_quiet g tms nodes w :
  let w' := (for_each nodes (fun node => GenerateCryptoMaterial g tms node) w).2 in
  fs w' = fs w ∧ ∃ evs, trace w' = trace w ++ evs ∧ Forall wallet_event evs.
Proof.
  simpl.
  destruct (sound_for_each wallet_event 0 nodes
              (fun node => GenerateCryptoMaterial g tms node)
              (fun node => sound_GenerateCryptoMaterial 0 g tms node) w)
    as (_ & _ & _ & _ & evs & Htr & Hall & Hfs & _).
  split; [|by exists evs]. apply Hfs.
  eapply Forall_impl; [exact Hall|]. intros ev Hev. by apply wallet_event_quiet.
Qed.

(** The wallets of a run of [GenerateArtifacts] that returns. *)
Lemma GenerateArtifacts_ok_wallets
    (TokenPlatform : tokenPlatform ExtState) (sys : OS FS) (fabric : ChaincodeOps ExtState)
    w tms t w' :
  tmss w !! tms = Some t →
  GenerateArtifacts TokenPlatform sys fabric tms w = (Ok tt, w') →
  ∃ entry g nodes,
    GetCryptoMaterialGenerator TokenPlatform (Driver t) = Some g ∧
    FSCNodes TokenPlatform = Some nodes ∧
    Entries w' !! entry_key t = Some entry ∧
    length (wallets w') = length (wallets w) + length nodes ∧
    (∀ i node, nodes !! i = Some node →
       ∃ x wl x' evs,
         gcm_summary g t tms node x = (Ok tt, wl, x', evs) ∧
         wallets w' !! (length (wallets w) + i) = Some wl) ∧
    (∀ i node, nodes !! i = Some node →
       (∀ j node', i < j → nodes !! j = Some node' → Name node' ≠ Name node) →
       slot w' entry (Name node) = Some (length (wallets w) + i)) ∧
    (∀ node, node ∈ nodes →
       ∃ i, i < length nodes ∧ slot w' entry (Name node) = Some (length (wallets w) + i)).
Proof.
  intros Ht Hrun.
  destruct (GenerateArtifacts_ok_shape _ _ _ _ _ _ _ Ht Hrun)
    as (entry & w0 & g & x0 & root & nodes & w1 & ppg & ppRaw & x2 & d1 & d2 & cc & x3 &
        evs3 & en1 & Hget & Hg & Hsetup & Hnodes & Hloop & _ & _ & _ & _ & _ & Hen1 & ->).
  destruct (GetEntry_frame _ _ _ _ Hget) as (Htm & Hwal & _).
  destruct (GetEntry_registers _ _ _ _ _ Ht Hget) as [Hkey _].
  set (ws := log (EvSetup tms) (set_ext x0 w0)) in *.
  assert (Hts : tmss ws !! tms = Some t) by (simpl; by rewrite Htm).
  pose proof (for_each_GenerateCryptoMaterial_steady g tms t entry nodes ws Hts Hkey) as Hst.
  rewrite Hloop in Hst. destruct Hst as (HE & _ & Hlen & _). simpl in HE, Hlen.
  assert (Hens : is_Some (entries ws !! entry)).
  { apply lookup_lt_is_Some. change (entries ws) with (entries w0).
    rewrite <- Hlen. by eapply lookup_lt_Some. }
  destruct (for_each_GenerateCryptoMaterial_slots _ _ _ _ _ _ _ Hts Hkey Hens Hloop)
    as (Hl & Hw & Hs & _).
  pose proof (for_each_GenerateCryptoMaterial_named _ _ _ _ _ _ _ Hts Hkey Hens Hloop) as Hn.
  assert (Hslot : ∀ name,
    slot {| Entries := Entries w1;
            entries := <[entry := {| eTMS := eTMS en1; eTCC := Some {| Chaincode := cc |};
                                     eWallets := eWallets en1 |}]> (entries w1);
            wallets := wallets w1; tmss := tmss w1; ext := x3; fs := d2;
            trace := trace w1 ++
              [EvPPGenerate tms (root :: PublicParamsGenArgs t);
               EvMkdirAll (PublicParametersDir TokenPlatform);
               EvWriteFile (PublicParametersFile TokenPlatform t) ppRaw] ++
              evs3 ++ [EvSetTCC entry {| Chaincode := cc |}] |} entry name =
    slot w1 entry name).
  { intros name. unfold slot. simpl.
    rewrite list_lookup_insert_eq by (by eapply lookup_lt_Some). by rewrite Hen1. }
  exists entry, g, nodes. simpl. change (wallets ws) with (wallets w0) in *.
  rewrite Hwal in *. split_and!; try done.
  - by rewrite HE.
  - intros i node Hi Hlast. rewrite Hslot. by apply Hs.
  - intros node Hin. destruct (Hn _ Hin) as (i & Hi & Hsl). exists i.
    by rewrite Hslot.
Qed.

(** X6: when [GenerateArtifacts] returns, it has allocated one wallet per
    node of the topology, in the order of the nodes.  The slot of a node's
    name in the entry points at the wallet of the last node of that name (a
    later node of the same name takes the slot over), so every node finds
    under its name a wallet allocated by this run. *)
Theorem GenerateArtifacts_wallet_per_node
    (TokenPlatform : tokenPlatform ExtState) (sys : OS FS) (fabric : ChaincodeOps ExtState)
    w tms t w' :
  tmss w !! tms = Some t →
  GenerateArtifacts TokenPlatform sys fabric tms w = (Ok tt, w') →
  ∃ entry nodes,
    FSCNodes TokenPlatform = Some nodes ∧
    Entries w' !! entry_key t = Some entry ∧
    length (wallets w') = length (wallets w) + length nodes ∧
    (∀ i node, nodes !! i = Some node →
       (∀ j node', i < j → nodes !! j = Some node' → Name node' ≠ Name node) →
       slot w' entry (Name node) = Some (length (wallets w) + i)) ∧
    (∀ node, node ∈ nodes →
       ∃ p, slot w' entry (Name node) = Some p ∧
            length (wallets w) ≤ p < length (wallets w') ∧
            is_Some (lookup_wallet w' entry (Name node))).
Proof.
  intros Ht Hrun.
  destruct (GenerateArtifacts_ok_wallets _ _ _ _ _ _ _ Ht Hrun)
    as (entry & g & nodes & _ & Hnodes & Hkey & Hlen & _ & Hslot & Hnamed).
  exists entry, nodes. split_and!; try done.
  intros node Hin. destruct (Hnamed _ Hin) as (i & Hi & Hsl).
  exists (length (wallets w) + i). split; [done|]. split; [lia|].
  unfold lookup_wallet. unfold slot in Hsl.
  destruct (entries w' !! entry) as [en|]; [|done]. simpl in *. rewrite Hsl. simpl.
  apply lookup_lt_is_Some. lia.
Qed.

Lemma gcm_summary_default g t tms node x wl x' evs :
  flags_clear g →
  gcm_summary g t tms node x = (Ok tt, wl, x', evs) →
  ∀ r, role_seq r wl ≠ [] →
    one_default_last (role_seq r wl) ∧ count_default (role_seq r wl) = 1.
Proof.
  intros Hflags Hsum r Hne.
  destruct (gcm_summary_spec _ _ _ _ _ _ _ _ _ Hsum) as (Hdis & Hen & _ & _).
  destruct (role_enabled r node) eqn:Hr.
  - destruct (Hen eq_refl r Hr) as (ids & xr & Hids & Hgen & Hcalls & Hseq).
    assert (Hone : one_default_last (role_seq r wl)).
    { rewrite Hseq. apply marked_one_default; [done|]. rewrite <- Hgen. apply Hflags. }
    split; [done | by apply one_default_last_count].
  - by destruct (Hdis r Hr) as [? _].
Qed.

(** X7: when [GenerateArtifacts] returns and the generator of the
    descriptor's driver hands out no record flagged as default, every
    wallet the run allocated, and so the wallet every node of the topology
    finds under its name, has in each non-empty role exactly one default
    record, the last. *)
Theorem GenerateArtifacts_default_in_every_wallet
    (TokenPlatform : tokenPlatform ExtState) (sys : OS FS) (fabric : ChaincodeOps ExtState)
    w tms t w' :
  tmss w !! tms = Some t →
  (∀ g, GetCryptoMaterialGenerator TokenPlatform (Driver t) = Some g → flags_clear g) →
  GenerateArtifacts TokenPlatform sys fabric tms w = (Ok tt, w') →
  (∀ p wl, length (wallets w) ≤ p → wallets w' !! p = Some wl →
     ∀ r, role_seq r wl ≠ [] →
       one_default_last (role_seq r wl) ∧ count_default (role_seq r wl) = 1) ∧
  ∃ entry nodes,
    FSCNodes TokenPlatform = Some nodes ∧
    Entries w' !! entry_key t = Some entry ∧
    ∀ node, node ∈ nodes →
      ∃ wl, lookup_wallet w' entry (Name node) = Some wl ∧
        ∀ r, role_seq r wl ≠ [] →
          one_default_last (role_seq r wl) ∧ count_default (role_seq r wl) = 1.
Proof.
  intros Ht Hflags Hrun.
  destruct (GenerateArtifacts_ok_wallets _ _ _ _ _ _ _ Ht Hrun)
    as (entry & g & nodes & Hg & Hnodes & Hkey & Hlen & Hwal & _ & Hnamed).
  assert (Hnew : ∀ p wl, length (wallets w) ≤ p → wallets w' !! p = Some wl →
            ∀ r, role_seq r wl ≠ [] →
              one_default_last (role_seq r wl) ∧ count_default (role_seq r wl) = 1).
  { intros p wl Hp Hwl. pose proof (lookup_lt_Some _ _ _ Hwl) as Hlt.
    destruct (lookup_lt_is_Some_2 nodes (p - length (wallets w))) as [node Hnode]; [lia|].
    destruct (Hwal _ _ Hnode) as (x & wl0 & x' & evs & Hsum & Hwl0).
    replace (length (wallets w) + (p - length (wallets w))) with p in Hwl0 by lia.
    rewrite Hwl in Hwl0. injection Hwl0 as <-.
    by apply (gcm_summary_default g t tms node x wl x' evs (Hflags _ Hg)). }
  split; [done|]. exists entry, nodes. split_and!; try done.
  intros node Hin. destruct (Hnamed _ Hin) as (i & Hi & Hsl).
  destruct (lookup_lt_is_Some_2 (wallets w') (length (wallets w) + i)) as [wl Hwl]; [lia|].
  exists wl. split.
  - unfold lookup_wallet. unfold slot in Hsl.
    destruct (entries w' !! entry) as [en|]; [|done]. simpl in *. by rewrite Hsl.
  - apply (Hnew (length (wallets w) + i)); [lia|done].
Qed.

(** ** The chaincode and the files of a run of [GenerateArtifacts] *)

Lemma deployment_events_app evs1 evs2 :
  deployment_events (evs1 ++ evs2) = deployment_events evs1 ++ deployment_events evs2.
Proof. apply filter_app. Qed.

Lemma deployment_events_wallet evs :
  Forall wallet_event evs → deployment_events evs = [].
Proof.
  induction 1 as [|ev evs Hev _ IH]; [done|].
  unfold deployment_events. rewrite filter_cons.
  rewrite decide_False; [exact IH|].
  unfold is_deployment. unfold wallet_event in Hev. by rewrite Hev.
Qed.

(** X8: the chaincode of a run of [GenerateArtifacts] that returns.  For
    a private token chaincode it is the one [AddFPC] returned with the
    constructor of [TCCCtor], and the run called neither [PrepareTCC] nor
    [AddChaincode]; otherwise it is the one [PrepareTCC] returned, handed
    to [AddChaincode], and the run called neither [AddFPC] nor [TCCCtor].
    In both cases the calls come in this order, the entry's TCC holds that
    chaincode, and setting it is the last effect. *)
Theorem GenerateArtifacts_chaincode_by_mode
    (TokenPlatform : tokenPlatform ExtState) (sys : OS FS) (fabric : ChaincodeOps ExtState)
    w tms t w' :
  tmss w !! tms = Some t →
  GenerateArtifacts TokenPlatform sys fabric tms w = (Ok tt, w') →
  ∃ entry cc x2,
    Entries w' !! entry_key t = Some entry ∧
    eTCC <$> entries w' !! entry = Some (Some {| Chaincode := cc |}) ∧
    if Private (TokenChaincode t) then
      ∃ c ctor x3,
        AddFPC fabric (Network t) (Namespace t) (DockerImage (TokenChaincode t))
          (Orgs (TokenChaincode t)) x2 = (Some c, x3) ∧
        TCCCtor fabric t x3 = (Some ctor, ext w') ∧
        cc = {| Ctor := ctor; cc_descriptor := cc_descriptor c |} ∧
        deployment_events (new_events w w') =
          [EvAddFPC tms; EvTCCCtor tms; EvSetTCC entry {| Chaincode := cc |}]
    else
      ∃ x3,
        PrepareTCC fabric t x2 = (Some cc, x3) ∧
        AddChaincode fabric (Network t) cc x3 = (Some tt, ext w') ∧
        deployment_events (new_events w w') =
          [EvPrepareTCC tms; EvAddChaincode tms; EvSetTCC entry {| Chaincode := cc |}].
Proof.
  intros Ht Hrun.
  destruct (GenerateArtifacts_ok_shape _ _ _ _ _ _ _ Ht Hrun)
    as (entry & w0 & g & x0 & root & nodes & w1 & ppg & ppRaw & x2 & d1 & d2 & cc & x3 &
        evs3 & en1 & Hget & Hg & Hsetup & Hnodes & Hloop & _ & _ & _ & _ & Hcc & Hen1 & ->).
  destruct (GetEntry_frame _ _ _ _ Hget) as (Htm & _ & _ & _ & Htr).
  destruct (GetEntry_registers _ _ _ _ _ Ht Hget) as [Hkey _].
  set (ws := log (EvSetup tms) (set_ext x0 w0)) in *.
  assert (Hts : tmss ws !! tms = Some t) by (simpl; by rewrite Htm).
  pose proof (for_each_GenerateCryptoMaterial_steady g tms t entry nodes ws Hts Hkey) as Hst.
  rewrite Hloop in Hst. destruct Hst as (HE & _). simpl in HE.
  destruct (for_each_GenerateCryptoMaterial_quiet g tms nodes ws) as (_ & evs1 & Htr1 & Hall).
  rewrite Hloop in Htr1. simpl in Htr1.
  assert (Hnew : ∀ x d es,
    deployment_events (new_events w
      {| Entries := Entries w1; entries := es; wallets := wallets w1; tmss := tmss w1;
         ext := x; fs := d;
         trace := trace w1 ++
           [EvPPGenerate tms (root :: PublicParamsGenArgs t);
            EvMkdirAll (PublicParametersDir TokenPlatform);
            EvWriteFile (PublicParametersFile TokenPlatform t) ppRaw] ++
           evs3 ++ [EvSetTCC entry {| Chaincode := cc |}] |}) =
    deployment_events evs3 ++ [EvSetTCC entry {| Chaincode := cc |}]).
  { intros x d es.
    rewrite (new_events_app _ _
      ((EvSetup tms :: evs1) ++
         [EvPPGenerate tms (root :: PublicParamsGenArgs t);
          EvMkdirAll (PublicParametersDir TokenPlatform);
          EvWriteFile (PublicParametersFile TokenPlatform t) ppRaw] ++
         evs3 ++ [EvSetTCC entry {| Chaincode := cc |}])).
    - rewrite !deployment_events_app.
      rewrite (deployment_events_wallet (EvSetup tms :: evs1)) by (by constructor).
      done.
    - simpl. rewrite Htr1, Htr. by rewrite <- !app_assoc. }
  exists entry, cc, x2. split_and!.
  - simpl. by rewrite HE.
  - simpl. by rewrite list_lookup_insert_eq by (by eapply lookup_lt_Some).
  - rewrite Hnew. simpl ext. destruct (Private (TokenChaincode t)).
    + destruct Hcc as (c & ctor & x' & H1 & H2 & -> & ->). by exists c, ctor, x'.
    + destruct Hcc as (x' & H1 & H2 & ->). by exists x'.
Qed.

Lemma generate_public_parameters_fs (TokenPlatform : tokenPlatform ExtState) (sys : OS FS)
    tms t root w :
  let made := MkdirAll sys (PublicParametersDir TokenPlatform) (fs w) in
  let w' := (generate_public_parameters TokenPlatform sys tms t root w).2 in
  fs w' = fs w ∨ fs w' = made.2 ∨
  (made.1 = None ∧
   ∃ ppRaw, fs w' = (WriteFile sys (PublicParametersFile TokenPlatform t) ppRaw made.2).2).
Proof.
  simpl. unfold generate_public_parameters, bind, expect_not_nil, call_ext, returns, call_os,
    expect_no_error.
  destruct (GetPublicParamsGenerators TokenPlatform (Driver t)) as [ppg|]; simpl; [|by left].
  destruct (Generate ppg t _ (ext w)) as [[ppRaw [err|]] x']; simpl; [by left|].
  destruct (MkdirAll sys _ (fs w)) as [[err1|] d1]; simpl; [right; by left|].
  right; right. split; [done|]. exists ppRaw.
  destruct (WriteFile sys _ ppRaw d1) as [[err2|] d2]; simpl; done.
Qed.

Lemma generate_wallets_fs (TokenPlatform : tokenPlatform ExtState) tms t w :
  fs (generate_wallets TokenPlatform tms t w).2 = fs w.
Proof.
  destruct (sound_generate_wallets 0 TokenPlatform tms t w)
    as (_ & _ & _ & _ & evs & _ & Hall & Hfs & _).
  apply Hfs. eapply Forall_impl; [exact Hall|]. intros ev Hev. by apply wallet_event_quiet.
Qed.

Lemma prepare_chaincode_fs (fabric : ChaincodeOps ExtState) tms t w :
  fs (prepare_chaincode fabric tms t w).2 = fs w.
Proof.
  destruct (sound_prepare_chaincode 0 fabric tms t w)
    as (_ & _ & _ & _ & evs & _ & Hall & Hfs & _).
  apply Hfs. eapply Forall_impl; [exact Hall|]. intros ev Hev.
  destruct ev; try done; by destruct Hev.
Qed.

Lemma set_TCC_fs entry tcc w : fs (set_TCC entry tcc w).2 = fs w.
Proof.
  destruct (entries w !! entry) as [en|] eqn:Hen.
  - by rewrite (set_TCC_run _ _ _ _ Hen).
  - by rewrite (set_TCC_nil _ _ _ Hen).
Qed.

(** X9: the file system after [GenerateArtifacts].  Whatever the outcome,
    it is the one of before, or what [MkdirAll] of the parameters directory
    made of it, or, only when [MkdirAll] returned no error, what one
    [WriteFile] of the parameters file made of that.  When the run returns,
    both returned no error and the file was written with the bytes the
    parameters generator returned for the root of [Setup] followed by the
    descriptor's arguments. *)
Theorem GenerateArtifacts_file_system
    (TokenPlatform : tokenPlatform ExtState) (sys : OS FS) (fabric : ChaincodeOps ExtState)
    w tms t :
  tmss w !! tms = Some t →
  let made := MkdirAll sys (PublicParametersDir TokenPlatform) (fs w) in
  let file := PublicParametersFile TokenPlatform t in
  ∃ res w',
    GenerateArtifacts TokenPlatform sys fabric tms w = (res, w') ∧
    (fs w' = fs w ∨ fs w' = made.2 ∨
     (made.1 = None ∧ ∃ ppRaw, fs w' = (WriteFile sys file ppRaw made.2).2)) ∧
    (res = Ok tt →
     ∃ g root x0 ppg ppRaw x1 x2,
       GetCryptoMaterialGenerator TokenPlatform (Driver t) = Some g ∧
       Setup g t (ext w) = ((root, None), x0) ∧
       GetPublicParamsGenerators TokenPlatform (Driver t) = Some ppg ∧
       Generate ppg t (root :: PublicParamsGenArgs t) x1 = ((ppRaw, None), x2) ∧
       made.1 = None ∧
       WriteFile sys file ppRaw made.2 = (None, fs w')).
Proof.
  intros Ht. simpl.
  destruct (GenerateArtifacts TokenPlatform sys fabric tms w) as [res w'] eqn:Hrun.
  exists res, w'. split; [done|]. split.
  - destruct (GetEntry_returns _ _ _ Ht) as (entry & w0 & Hget).
    destruct (GetEntry_frame _ _ _ _ Hget) as (Htm & _ & _ & Hfs & _).
    unfold GenerateArtifacts in Hrun.
    rewrite (bind_ok _ _ _ _ _ Hget) in Hrun.
    rewrite (bind_ok _ _ w0 t w0) in Hrun; [|unfold deref; by rewrite Htm, Ht].
    unfold bind in Hrun.
    pose proof (generate_wallets_fs TokenPlatform tms t w0) as F1.
    destruct (generate_wallets TokenPlatform tms t w0) as [[root|?] w1]; simpl in F1.
    2: { injection Hrun as <- <-. left. congruence. }
    pose proof (generate_public_parameters_fs TokenPlatform sys tms t root w1) as F2.
    simpl in F2. rewrite F1, Hfs in F2.
    destruct (generate_public_parameters TokenPlatform sys tms t root w1) as [[[]|?] w2];
      simpl in F2.
    2: { by injection Hrun as <- <-. }
    pose proof (prepare_chaincode_fs fabric tms t w2) as F3.
    destruct (prepare_chaincode fabric tms t w2) as [[cc|?] w3]; simpl in F3.
    2: { injection Hrun as <- <-. by rewrite F3. }
    pose proof (set_TCC_fs entry {| Chaincode := cc |} w3) as F4.
    rewrite Hrun in F4. simpl in F4. by rewrite F4, F3.
  - intros ->.
    destruct (GenerateArtifacts_ok_shape _ _ _ _ _ _ _ Ht Hrun)
      as (entry & w0 & g & x0 & root & nodes & w1 & ppg & ppRaw & x2 & d1 & d2 & cc & x3 &
          evs3 & en1 & Hget & Hg & Hsetup & Hnodes & Hloop & Hp & Hgen & Hmk & Hwr & _ & _ & ->).
    destruct (GetEntry_frame _ _ _ _ Hget) as (_ & _ & _ & Hfs & _).
    destruct (for_each_GenerateCryptoMaterial_quiet g tms nodes
                (log (EvSetup tms) (set_ext x0 w0))) as (Hfs1 & _).
    rewrite Hloop in Hfs1. simpl in Hfs1. rewrite Hfs1, Hfs in Hmk.
    exists g, root, x0, ppg, ppRaw, (ext w1), x2. rewrite Hmk. simpl.
    by split_and!.
Qed.

(** X12: [GenerateArtifacts] stops before any wallet when the setup
    fails: with a nil dereference on a nil generator of crypto material, in
    the store [GetEntry] left; with a failed expectation on an error of
    [Setup], and with a failed type assertion when [Setup] returned no
    error and the topology is not an FSC topology, both in the store right
    after the call of [Setup].  The entry stays registered. *)
Theorem GenerateArtifacts_stops_before_wallets
    (TokenPlatform : tokenPlatform ExtState) (sys : OS FS) (fabric : ChaincodeOps ExtState)
    w tms t :
  tmss w !! tms = Some t →
  ∃ entry w0,
    GetEntry tms w = (Ok entry, w0) ∧
    (GetCryptoMaterialGenerator TokenPlatform (Driver t) = None →
     GenerateArtifacts TokenPlatform sys fabric tms w = (Panic NilDereference, w0)) ∧
    (∀ g root err x,
       GetCryptoMaterialGenerator TokenPlatform (Driver t) = Some g →
       Setup g t (ext w) = ((root, err), x) →
       (err ≠ None →
        GenerateArtifacts TokenPlatform sys fabric tms w =
          (Panic ExpectationFailed, log (EvSetup tms) (set_ext x w0))) ∧
       (err = None → FSCNodes TokenPlatform = None →
        GenerateArtifacts TokenPlatform sys fabric tms w =
          (Panic TypeAssertionFailed, log (EvSetup tms) (set_ext x w0)))).
Proof.
  intros Ht. destruct (GetEntry_returns _ _ _ Ht) as (entry & w0 & Hget).
  destruct (GetEntry_frame _ _ _ _ Hget) as (Htm & _ & Hext & _).
  exists entry, w0. split; [done|].
  assert (Hrun : GenerateArtifacts TokenPlatform sys fabric tms w =
    bind (generate_wallets TokenPlatform tms t)
      (fun root => bind (generate_public_parameters TokenPlatform sys tms t root)
         (fun _ => bind (prepare_chaincode fabric tms t)
            (fun chaincode => set_TCC entry {| Chaincode := chaincode |}))) w0).
  { unfold GenerateArtifacts. rewrite (bind_ok _ _ _ _ _ Hget).
    by rewrite (bind_ok _ _ w0 t w0); [|unfold deref; by rewrite Htm, Ht]. }
  rewrite Hrun. split.
  - intros Hnone. apply bind_panic. unfold generate_wallets, bind, non_nil.
    by rewrite Hnone.
  - intros g root err x Hg Hs. rewrite <- Hext in Hs. split.
    + intros Herr. apply bind_panic.
      unfold generate_wallets, bind, non_nil, call_ext, returns. rewrite Hg. simpl.
      rewrite Hs. simpl. by destruct err.
    + intros -> Hnodes. apply bind_panic.
      unfold generate_wallets, bind, non_nil, call_ext, returns, type_assert.
      rewrite Hg. simpl. rewrite Hs. simpl. by rewrite Hnodes.
Qed.

(** X13: after a run of [GenerateArtifacts] that returns, the [Wallets]
    function of [GenerateExtension] returns for every node of the topology
    a wallet this run allocated, and changes nothing. *)
Theorem ExtensionWallets_after_GenerateArtifacts
    (TokenPlatform : tokenPlatform ExtState) (sys : OS FS) (fabric : ChaincodeOps ExtState)
    w tms t w' :
  tmss w !! tms = Some t →
  GenerateArtifacts TokenPlatform sys fabric tms w = (Ok tt, w') →
  ∃ nodes,
    FSCNodes TokenPlatform = Some nodes ∧
    ∀ node, node ∈ nodes →
      ∃ p, ExtensionWallets tms node w' = (Ok (Some p), w') ∧
           length (wallets w) ≤ p ∧
           is_Some (wallets w' !! p).
Proof.
  intros Ht Hrun.
  destruct (GenerateArtifacts_ok_wallets _ _ _ _ _ _ _ Ht Hrun)
    as (entry & g & nodes & _ & Hnodes & Hkey & Hlen & _ & _ & Hnamed).
  destruct (GetEntry_returns _ _ _ Ht) as (entry0 & w0 & Hget).
  destruct (GetEntry_frame _ _ _ _ Hget) as (Htm & _).
  pose proof (GenerateArtifacts_steady TokenPlatform sys fabric w tms t entry0 w0 Ht Hget)
    as Hst.
  rewrite Hrun in Hst. destruct Hst as (_ & Htm' & _). simpl in Htm'.
  exists nodes. split; [done|]. intros node Hin.
  destruct (Hnamed _ Hin) as (i & Hi & Hsl).
  exists (length (wallets w) + i). split_and!.
  - unfold ExtensionWallets.
    rewrite (bind_ok _ _ w' entry w');
      [|apply (GetEntry_found _ _ t); [congruence|done]].
    unfold slot in Hsl. destruct (entries w' !! entry) as [en|] eqn:Hen; [|done].
    simpl in Hsl.
    rewrite (bind_ok _ _ w' en w'); [|unfold deref; by rewrite Hen].
    unfold ret. by rewrite Hsl.
  - lia.
  - apply lookup_lt_is_Some. lia.
Qed.

(** ** The registry of every store a handler reaches *)

Lemma registry_sound_GetEntry tms w :
  registry_sound w →
  registry_sound (GetEntry tms w).2 ∧ tmss (GetEntry tms w).2 = tmss w.
Proof.
  intros (Hwf & Hinj & Hkeyed). split; [split_and!|].
  - by apply GetEntry_keeps_registry.
  - by apply GetEntry_keeps_registry_inj.
  - destruct (tmss w !! tms) as [t|] eqn:Ht; [|by rewrite (GetEntry_nil _ _ Ht)].
    destruct (Entries w !! entry_key t) as [e0|] eqn:He.
    + by rewrite (GetEntry_found _ _ _ _ Ht He).
    + rewrite (GetEntry_fresh _ _ _ Ht He). intros k e. simpl.
      destruct (decide (k = entry_key t)) as [->|Hne].
      * rewrite lookup_insert_eq. intros [= <-].
        exists {| eTMS := tms; eTCC := None; eWallets := ∅ |}, t.
        split_and!; [by apply list_lookup_middle|done|done].
      * rewrite lookup_insert_ne by done. intros Hk.
        destruct (Hkeyed _ _ Hk) as (en & t' & Hen & Ht' & Hkey).
        exists en, t'. split_and!; [by apply lookup_app_l_Some|done|done].
  - destruct (GetEntry tms w) as [res w0] eqn:Hget.
    by destruct (GetEntry_frame _ _ _ _ Hget) as (Htm & _).
Qed.

Lemma registry_sound_steady entry w w' :
  steady entry w w' → registry_sound w → registry_sound w' ∧ tmss w' = tmss w.
Proof.
  intros (HE & Ht & Hl & Ho & Hd & _) (Hwf & Hinj & Hkeyed). split; [split_and!|done].
  - intros k e. rewrite HE. intros Hk. apply lookup_lt_is_Some. rewrite Hl.
    by apply lookup_lt_is_Some, (Hwf k).
  - by apply (registry_inj_same w).
  - intros k e. rewrite HE, Ht. intros Hk.
    destruct (Hkeyed _ _ Hk) as (en & t & Hen & Hten & Hkey).
    destruct (decide (e = entry)) as [->|Hne].
    + destruct (Hd _ Hen) as (en' & Hen' & Heq). exists en', t. by rewrite Heq.
    + exists en, t. by rewrite Ho.
Qed.

Lemma GenerateCryptoMaterial_after_GetEntry g tms t node w entry w0 :
  tmss w !! tms = Some t →
  GetEntry tms w = (Ok entry, w0) →
  GenerateCryptoMaterial g tms node w = GenerateCryptoMaterial g tms node w0.
Proof.
  intros Ht Hget.
  destruct (GetEntry_registers _ _ _ _ _ Ht Hget) as [Hkey Htm].
  assert (Hget0 : GetEntry tms w0 = (Ok entry, w0)).
  { apply (GetEntry_found _ _ t); [by rewrite Htm|done]. }
  unfold GenerateCryptoMaterial.
  by rewrite (bind_ok _ _ _ _ _ Hget), (bind_ok _ _ _ _ _ Hget0).
Qed.

Lemma registry_sound_GenerateCryptoMaterial g tms node w :
  registry_sound w →
  registry_sound (GenerateCryptoMaterial g tms node w).2 ∧
  tmss (GenerateCryptoMaterial g tms node w).2 = tmss w.
Proof.
  intros Hs. destruct (tmss w !! tms) as [t|] eqn:Ht.
  - destruct (GetEntry_returns _ _ _ Ht) as (entry & w0 & Hget).
    destruct (GetEntry_registers _ _ _ _ _ Ht Hget) as [Hkey Htm].
    destruct (registry_sound_GetEntry tms w Hs) as [Hs0 _]. rewrite Hget in Hs0.
    rewrite (GenerateCryptoMaterial_after_GetEntry _ _ _ _ _ _ _ Ht Hget).
    rewrite <- Htm.
    apply (registry_sound_steady entry); [|done].
    apply (GenerateCryptoMaterial_steady g tms t); [by rewrite Htm|done].
  - unfold GenerateCryptoMaterial.
    by rewrite (bind_panic _ _ _ _ _ (GetEntry_nil _ _ Ht)).
Qed.

Lemma registry_sound_GenerateArtifacts
    (TokenPlatform : tokenPlatform ExtState) (sys : OS FS) (fabric : ChaincodeOps ExtState)
    tms w :
  registry_sound w →
  registry_sound (GenerateArtifacts TokenPlatform sys fabric tms w).2 ∧
  tmss (GenerateArtifacts TokenPlatform sys fabric tms w).2 = tmss w.
Proof.
  intros Hs. destruct (tmss w !! tms) as [t|] eqn:Ht.
  - destruct (GetEntry_returns _ _ _ Ht) as (entry & w0 & Hget).
    destruct (GetEntry_frame _ _ _ _ Hget) as (Htm & _).
    destruct (registry_sound_GetEntry tms w Hs) as [Hs0 _]. rewrite Hget in Hs0.
    rewrite <- Htm.
    apply (registry_sound_steady entry); [|done].
    by apply (GenerateArtifacts_steady TokenPlatform sys fabric w tms t).
  - unfold GenerateArtifacts.
    by rewrite (bind_panic _ _ _ _ _ (GetEntry_nil _ _ Ht)).
Qed.

Lemma ExtensionWallets_store tms node w :
  (ExtensionWallets tms node w).2 = (GetEntry tms w).2.
Proof.
  unfold ExtensionWallets, bind, deref, ret.
  destruct (GetEntry tms w) as [[e|?] w0]; [|done]. simpl.
  by destruct (entries w0 !! e).
Qed.

Lemma registry_sound_perform
    (TokenPlatform : tokenPlatform ExtState) (sys : OS FS) (fabric : ChaincodeOps ExtState)
    (c : Call) w :
  registry_sound w →
  registry_sound (perform TokenPlatform sys fabric c w) ∧
  tmss (perform TokenPlatform sys fabric c w) = tmss w.
Proof.
  intros Hs. destruct c as [tms|g tms node|tms|tms node]; simpl.
  - by apply registry_sound_GetEntry.
  - by apply registry_sound_GenerateCryptoMaterial.
  - by apply registry_sound_GenerateArtifacts.
  - rewrite ExtensionWallets_store. by apply registry_sound_GetEntry.
Qed.

Lemma registry_sound_fresh (descriptors : list TMS) x (d : FS) :
  registry_sound (NewNetworkHandler descriptors x d).
Proof.
  split_and!; intros k; intros; simpl in *;
    match goal with H : ∅ !! _ = Some _ |- _ => by rewrite lookup_empty in H end.
Qed.

(** X14: the registry of a handler is sound in every store it reaches.
    From a fresh handler, after any sequence of calls of [GetEntry],
    [GenerateCryptoMaterial], [GenerateArtifacts] and the [Wallets] function
    of [GenerateExtension], whether they return or panic, every key of the
    registry points at an entry of the heap, distinct keys point at
    distinct entries, every entry sits under the key of the descriptor it
    holds, and the descriptors are the ones the handler was given. *)
Theorem handler_registry_invariant
    (TokenPlatform : tokenPlatform ExtState) (sys : OS FS) (fabric : ChaincodeOps ExtState)
    (calls : list Call) (descriptors : list TMS) x (d : FS) :
  let w := perform_all TokenPlatform sys fabric calls (NewNetworkHandler descriptors x d) in
  registry_wf w ∧ registry_inj w ∧ registry_keyed w ∧ tmss w = descriptors.
Proof.
  simpl.
  assert (H : ∀ w0, registry_sound w0 →
            registry_sound (perform_all TokenPlatform sys fabric calls w0) ∧
            tmss (perform_all TokenPlatform sys fabric calls w0) = tmss w0).
  { unfold perform_all. induction calls as [|c calls IH]; intros w0 Hs; [done|]. simpl.
    destruct (registry_sound_perform TokenPlatform sys fabric c w0 Hs) as [Hs1 Ht1].
    destruct (IH _ Hs1) as [Hs2 Ht2]. split; [done|congruence]. }
  destruct (H _ (registry_sound_fresh descriptors x d)) as [(Hwf & Hinj & Hkeyed) Ht].
  by split_and!.
Qed.


(** ** The states of an entry, on the stores of a run *)

Lemma marked_nonempty r ids : ids ≠ [] → marked r ids ≠ [].
Proof.
  intros Hne Hm. apply (f_equal length) in Hm. destruct ids as [|i ids]; [done|].
  destruct r; simpl in Hm; try done; rewrite length_alter in Hm; simpl in Hm; lia.
Qed.

Lemma gcm_summary_complete g t tms node x wl x' evs :
  gcm_summary g t tms node x = (Ok tt, wl, x', evs) → complete_wallet node wl.
Proof.
  intros Hsum r.
  destruct (gcm_summary_spec _ _ _ _ _ _ _ _ _ Hsum) as (Hdis & Hen & _ & _).
  destruct (role_enabled r node) eqn:Hr.
  - destruct (Hen eq_refl r Hr) as (ids & xr & Hids & _ & _ & Hseq).
    rewrite Hseq. by apply marked_nonempty.
  - by destruct (Hdis r Hr).
Qed.

Lemma lookup_wallet_slot w entry name :
  lookup_wallet w entry name = slot w entry name ≫= (wallets w !!.).
Proof. unfold lookup_wallet, slot. by destruct (entries w !! entry). Qed.

Lemma same_wallets_refl entry w : same_wallets entry w w.
Proof. done. Qed.

Lemma same_wallets_trans entry w1 w2 w3 :
  same_wallets entry w1 w2 → same_wallets entry w2 w3 → same_wallets entry w1 w3.
Proof. intros [H1 H2] [H3 H4]. split; [congruence|]. intros name. by rewrite H4. Qed.

Lemma same_wallets_store entry w w' :
  entries w' = entries w → wallets w' = wallets w → same_wallets entry w w'.
Proof. intros He Hw. split; [done|]. intros name. unfold slot. by rewrite He. Qed.

Lemma same_wallets_lookup entry w w' name :
  same_wallets entry w w' → lookup_wallet w' entry name = lookup_wallet w entry name.
Proof. intros [Hw Hs]. by rewrite !lookup_wallet_slot, Hs, Hw. Qed.

Lemma wallets_populated_same (TokenPlatform : tokenPlatform ExtState) entry w0 w1 w2 :
  same_wallets entry w1 w2 →
  wallets_populated TokenPlatform entry w0 w1 → wallets_populated TokenPlatform entry w0 w2.
Proof.
  intros [Hw Hs] (nodes & Hn & Hl & Hc & Hsl). exists nodes.
  rewrite Hw. split_and!; [done|done|done|]. intros node Hin.
  destruct (Hsl _ Hin) as (i & Hi & Hslot). exists i. by rewrite Hs.
Qed.

Lemma wallets_populated_from (TokenPlatform : tokenPlatform ExtState) entry w w0 w1 :
  wallets w0 = wallets w →
  wallets_populated TokenPlatform entry w0 w1 → wallets_populated TokenPlatform entry w w1.
Proof. intros Hw (nodes & H). exists nodes. by rewrite <- Hw. Qed.

Lemma wallets_started_same (TokenPlatform : tokenPlatform ExtState) entry w0 w1 w2 :
  same_wallets entry w1 w2 →
  wallets_started TokenPlatform entry w0 w1 → wallets_started TokenPlatform entry w0 w2.
Proof.
  intros Hsame (started & Hp & Hl & Hs). exists started.
  destruct Hsame as [Hw Hsl]. rewrite Hw. split_and!; [done|done|].
  intros node Hin. rewrite (same_wallets_lookup entry w1 w2); [by apply Hs|done].
Qed.

(** The stores of the stages that do not touch the heaps. *)
Lemma generate_public_parameters_store (TokenPlatform : tokenPlatform ExtState)
    (sys : OS FS) tms t root w :
  let w' := (generate_public_parameters TokenPlatform sys tms t root w).2 in
  entries w' = entries w ∧ wallets w' = wallets w.
Proof.
  simpl. unfold generate_public_parameters, bind, expect_not_nil, call_ext, returns, call_os,
    expect_no_error.
  destruct (GetPublicParamsGenerators TokenPlatform (Driver t)) as [ppg|]; simpl; [|done].
  destruct (Generate ppg t _ (ext w)) as [[ppRaw [err|]] x']; simpl; [done|].
  destruct (MkdirAll sys _ (fs w)) as [[err1|] d1]; simpl; [done|].
  destruct (WriteFile sys _ ppRaw d1) as [[err2|] d2]; simpl; done.
Qed.

Lemma prepare_chaincode_store (fabric : ChaincodeOps ExtState) tms t w :
  let w' := (prepare_chaincode fabric tms t w).2 in
  entries w' = entries w ∧ wallets w' = wallets w.
Proof.
  simpl. unfold prepare_chaincode, bind, call_ext.
  destruct (Private (TokenChaincode t)).
  - destruct (AddFPC fabric _ _ _ _ (ext w)) as [[c|] x1]; simpl; [|done].
    destruct (TCCCtor fabric t x1) as [[ctor|] x2]; simpl; done.
  - destruct (PrepareTCC fabric t (ext w)) as [[c|] x1]; simpl; [|done].
    destruct (AddChaincode fabric _ c x1) as [[[]|] x2]; simpl; done.
Qed.

Lemma set_TCC_same_wallets entry tcc w : same_wallets entry w (set_TCC entry tcc w).2.
Proof.
  destruct (entries w !! entry) as [en|] eqn:Hen.
  - rewrite (set_TCC_run _ _ _ _ Hen). split; [done|]. intros name. unfold slot. simpl.
    rewrite list_lookup_insert_eq by (by eapply lookup_lt_Some). by rewrite Hen.
  - rewrite (set_TCC_nil _ _ _ Hen). apply same_wallets_refl.
Qed.

(** ** The wallet stage, whatever its outcome *)

Lemma lookup_wallet_gcm_world entry node en wl x evs w name :
  entries w !! entry = Some en →
  (name = Name node ∨ is_Some (lookup_wallet w entry name)) →
  is_Some (lookup_wallet (gcm_world entry node en wl x evs w) entry name).
Proof.
  intros Hen Hcase. rewrite lookup_wallet_slot, (slot_gcm_world _ _ _ _ _ _ _ _ Hen).
  case_decide as Hn.
  - simpl. rewrite list_lookup_middle; done.
  - destruct Hcase as [?|[wl0 Hwl0]]; [done|].
    rewrite lookup_wallet_slot in Hwl0.
    destruct (slot w entry name) as [p|]; [|done]. simpl in *.
    exists wl0. by apply lookup_app_l_Some.
Qed.

Lemma for_each_GenerateCryptoMaterial_keeps_wallet g tms t entry name nodes : ∀ w,
  tmss w !! tms = Some t →
  Entries w !! entry_key t = Some entry →
  is_Some (entries w !! entry) →
  is_Some (lookup_wallet w entry name) →
  is_Some (lookup_wallet
             (for_each nodes (fun node => GenerateCryptoMaterial g tms node) w).2 entry name).
Proof.
  induction nodes as [|node nodes IH]; intros w Ht Hkey [en Hen] Hhas; [done|].
  simpl. unfold bind.
  rewrite (GenerateCryptoMaterial_found _ _ _ _ _ _ _ Ht Hkey Hen).
  destruct (gcm_summary g t tms node (ext w)) as [[[res wl] x] evs].
  assert (H1 : is_Some (lookup_wallet (gcm_world entry node en wl x evs w) entry name)).
  { apply lookup_wallet_gcm_world; [done|by right]. }
  destruct res as [[]|e]; [|done].
  apply IH; try done.
  rewrite (gcm_world_entries _ _ _ _ _ _ _ _ Hen). by rewrite decide_True.
Qed.

Lemma for_each_GenerateCryptoMaterial_started g tms t entry nodes : ∀ w,
  tmss w !! tms = Some t →
  Entries w !! entry_key t = Some entry →
  is_Some (entries w !! entry) →
  let w' := (for_each nodes (fun node => GenerateCryptoMaterial g tms node) w).2 in
  ∃ started, started `prefix_of` nodes ∧
    length (wallets w') = length (wallets w) + length started ∧
    ∀ node, node ∈ started → is_Some (lookup_wallet w' entry (Name node)).
Proof.
  induction nodes as [|node nodes IH]; intros w Ht Hkey [en Hen]; simpl.
  - exists []. split_and!; [done|simpl; lia|]. intros node Hin. by apply elem_of_nil in Hin.
  - unfold bind.
    pose proof (for_each_GenerateCryptoMaterial_keeps_wallet g tms t entry (Name node) nodes)
      as Hkeep.
    rewrite (GenerateCryptoMaterial_found _ _ _ _ _ _ _ Ht Hkey Hen).
    destruct (gcm_summary g t tms node (ext w)) as [[[res wl] x] evs].
    set (w1 := gcm_world entry node en wl x evs w) in *.
    assert (Hen1 : is_Some (entries w1 !! entry)).
    { unfold w1. rewrite (gcm_world_entries _ _ _ _ _ _ _ _ Hen). by rewrite decide_True. }
    assert (H1 : is_Some (lookup_wallet w1 entry (Name node))).
    { apply lookup_wallet_gcm_world; [done|by left]. }
    assert (Hl1 : length (wallets w1) = S (length (wallets w))).
    { unfold w1. simpl. rewrite length_app. simpl. lia. }
    destruct res as [[]|e].
    + destruct (IH w1 Ht Hkey Hen1) as (started & Hp & Hl & Hs).
      exists (node :: started). split_and!.
      * by apply prefix_cons.
      * simpl in *. lia.
      * intros node0 [->|Hin]%elem_of_cons; [|by apply Hs].
        by apply Hkeep.
    + exists [node]. split_and!.
      * apply prefix_cons, prefix_nil.
      * change (length (wallets w1) = length (wallets w) + 1). lia.
      * intros node0 ->%list_elem_of_singleton. done.
Qed.

Lemma generate_wallets_started (TokenPlatform : tokenPlatform ExtState) tms t entry w :
  tmss w !! tms = Some t →
  Entries w !! entry_key t = Some entry →
  is_Some (entries w !! entry) →
  wallets_started TokenPlatform entry w (generate_wallets TokenPlatform tms t w).2.
Proof.
  intros Ht Hkey Hen.
  assert (H0 : ∀ w', wallets w' = wallets w →
            wallets_started TokenPlatform entry w w').
  { intros w' Hw. exists []. split_and!; [apply prefix_nil|rewrite Hw; simpl; lia|].
    intros node Hin. by apply elem_of_nil in Hin. }
  unfold generate_wallets, bind, non_nil, call_ext, returns, type_assert.
  destruct (GetCryptoMaterialGenerator TokenPlatform (Driver t)) as [g|]; [|by apply H0].
  simpl. destruct (Setup g t (ext w)) as [[root0 err] x]. simpl.
  destruct err; [by apply H0|]. simpl.
  destruct (FSCNodes TokenPlatform) as [nodes|] eqn:Hn; [|by apply H0]. simpl.
  set (ws := log (EvSetup tms) (set_ext x w)).
  destruct (for_each_GenerateCryptoMaterial_started g tms t entry nodes ws Ht Hkey Hen)
    as (started & Hp & Hl & Hs).
  assert (Hgoal : wallets_started TokenPlatform entry w
            (for_each nodes (fun node => GenerateCryptoMaterial g tms node) ws).2).
  { exists started. rewrite Hn. by split_and!. }
  by destruct (for_each nodes _ ws) as [[[]|e] w2].
Qed.

Lemma generate_wallets_populated (TokenPlatform : tokenPlatform ExtState) tms t entry
    w root w1 :
  tmss w !! tms = Some t →
  Entries w !! entry_key t = Some entry →
  is_Some (entries w !! entry) →
  generate_wallets TokenPlatform tms t w = (Ok root, w1) →
  wallets_populated TokenPlatform entry w w1.
Proof.
  intros Ht Hkey Hen H1.
  destruct (generate_wallets_inv _ _ _ _ _ _ H1) as (g & x0 & nodes & Hg & Hs & Hn & Hloop).
  set (ws := log (EvSetup tms) (set_ext x0 w)) in *.
  destruct (for_each_GenerateCryptoMaterial_slots g tms t entry nodes ws w1 Ht Hkey Hen Hloop)
    as (Hl & Hw & _ & _).
  pose proof (for_each_GenerateCryptoMaterial_named g tms t entry nodes ws w1 Ht Hkey Hen Hloop)
    as Hnamed.
  exists nodes. split_and!; [done|done| |done].
  intros i node Hi. destruct (Hw _ _ Hi) as (x & wl & x' & evs & Hsum & Hwl).
  exists wl. split; [done|]. by eapply gcm_summary_complete.
Qed.

(** ** When the stages return *)

Lemma for_each_GenerateCryptoMaterial_returns g tms t entry nodes :
  (∀ node r x, node ∈ nodes → role_enabled r node = true →
     (generate_method r g t node (role_names r node) x).1 ≠ []) →
  ∀ w,
  tmss w !! tms = Some t →
  Entries w !! entry_key t = Some entry →
  is_Some (entries w !! entry) →
  (for_each nodes (fun node => GenerateCryptoMaterial g tms node) w).1 = Ok tt.
Proof.
  induction nodes as [|node nodes IH]; intros Hgen w Ht Hkey [en Hen]; [done|].
  simpl. unfold bind.
  rewrite (GenerateCryptoMaterial_found _ _ _ _ _ _ _ Ht Hkey Hen).
  destruct (gcm_summary g t tms node (ext w)) as [[[res wl] x] evs] eqn:Hsum.
  destruct (gcm_summary_spec _ _ _ _ _ _ _ _ _ Hsum) as (_ & _ & _ & Hfail).
  destruct (decide (res = Ok tt)) as [->|Hne].
  - apply IH; try done.
    + intros node0 r x0 Hin. apply Hgen. by right.
    + rewrite (gcm_world_entries _ _ _ _ _ _ _ _ Hen). by rewrite decide_True.
  - destruct (Hfail Hne) as (r & xr & Hr & Hnil & _).
    destruct (Hgen node r xr); [by left|done|done].
Qed.

Lemma generate_wallets_returns (TokenPlatform : tokenPlatform ExtState) tms t entry w :
  wallet_stage_ok TokenPlatform t →
  tmss w !! tms = Some t →
  Entries w !! entry_key t = Some entry →
  is_Some (entries w !! entry) →
  ∃ root w1, generate_wallets TokenPlatform tms t w = (Ok root, w1).
Proof.
  intros (g & nodes & Hg & Hn & Hsetup & Hgen) Ht Hkey Hen.
  unfold generate_wallets, bind, non_nil, call_ext, returns, type_assert.
  rewrite Hg. simpl. specialize (Hsetup (ext w)).
  destruct (Setup g t (ext w)) as [[root err] x]. simpl in *. subst err. simpl.
  rewrite Hn. simpl.
  pose proof (for_each_GenerateCryptoMaterial_returns g tms t entry nodes Hgen
                (log (EvSetup tms) (set_ext x w)) Ht Hkey Hen) as Hloop.
  destruct (for_each nodes _ _) as [[[]|e] w2]; [|done].
  by eexists _, _.
Qed.

Lemma generate_public_parameters_returns (TokenPlatform : tokenPlatform ExtState)
    (sys : OS FS) tms t root w :
  params_stage_ok TokenPlatform sys t →
  ∃ w2, generate_public_parameters TokenPlatform sys tms t root w = (Ok tt, w2).
Proof.
  intros (ppg & Hp & Hgen & Hmk & Hwr).
  unfold generate_public_parameters, bind, expect_not_nil, call_ext, returns, call_os,
    expect_no_error.
  rewrite Hp. simpl.
  specialize (Hgen (root :: PublicParamsGenArgs t) (ext w)).
  destruct (Generate ppg t _ (ext w)) as [[ppRaw err] x']. simpl in *. subst err. simpl.
  specialize (Hmk (fs w)).
  destruct (MkdirAll sys _ (fs w)) as [err1 d1]. simpl in *. subst err1. simpl.
  specialize (Hwr ppRaw d1).
  destruct (WriteFile sys _ ppRaw d1) as [err2 d2]. simpl in *. subst err2. simpl.
  by eexists.
Qed.

Lemma prepare_chaincode_returns (fabric : ChaincodeOps ExtState) tms t w :
  chaincode_stage_ok fabric t →
  ∃ cc w3, prepare_chaincode fabric tms t w = (Ok cc, w3).
Proof.
  unfold chaincode_stage_ok, prepare_chaincode, bind, call_ext.
  destruct (Private (TokenChaincode t)); intros [H1 H2].
  - specialize (H1 (ext w)).
    destruct (AddFPC fabric _ _ _ _ (ext w)) as [[c|] x1]; [|by destruct H1]. simpl.
    specialize (H2 x1).
    destruct (TCCCtor fabric t x1) as [[ctor|] x2]; [|by destruct H2]. simpl.
    by eexists _, _.
  - specialize (H1 (ext w)).
    destruct (PrepareTCC fabric t (ext w)) as [[c|] x1]; [|by destruct H1]. simpl.
    specialize (H2 c x1).
    destruct (AddChaincode fabric _ c x1) as [[[]|] x2]; [|by destruct H2]. simpl.
    by eexists _, _.
Qed.

(** ** The stages of [GenerateArtifacts], case by case *)

Lemma GenerateArtifacts_stages
    (TokenPlatform : tokenPlatform ExtState) (sys : OS FS) (fabric : ChaincodeOps ExtState)
    w tms t entry w0 :
  tmss w !! tms = Some t →
  GetEntry tms w = (Ok entry, w0) →
  (∃ e w1,
     generate_wallets TokenPlatform tms t w0 = (Panic e, w1) ∧
     GenerateArtifacts TokenPlatform sys fabric tms w = (Panic e, w1)) ∨
  (∃ root w1 e w2,
     generate_wallets TokenPlatform tms t w0 = (Ok root, w1) ∧
     generate_public_parameters TokenPlatform sys tms t root w1 = (Panic e, w2) ∧
     GenerateArtifacts TokenPlatform sys fabric tms w = (Panic e, w2)) ∨
  (∃ root w1 w2 e w3,
     generate_wallets TokenPlatform tms t w0 = (Ok root, w1) ∧
     generate_public_parameters TokenPlatform sys tms t root w1 = (Ok tt, w2) ∧
     prepare_chaincode fabric tms t w2 = (Panic e, w3) ∧
     GenerateArtifacts TokenPlatform sys fabric tms w = (Panic e, w3)) ∨
  (∃ root w1 w2 cc w3,
     generate_wallets TokenPlatform tms t w0 = (Ok root, w1) ∧
     generate_public_parameters TokenPlatform sys tms t root w1 = (Ok tt, w2) ∧
     prepare_chaincode fabric tms t w2 = (Ok cc, w3) ∧
     GenerateArtifacts TokenPlatform sys fabric tms w =
       set_TCC entry {| Chaincode := cc |} w3).
Proof.
  intros Ht Hget.
  destruct (GetEntry_frame _ _ _ _ Hget) as (Htm & _).
  unfold GenerateArtifacts.
  rewrite (bind_ok _ _ _ _ _ Hget).
  rewrite (bind_ok _ _ w0 t w0); [|unfold deref; by rewrite Htm, Ht].
  unfold bind.
  destruct (generate_wallets TokenPlatform tms t w0) as [[root|e1] w1] eqn:H1;
    [|left; by exists e1, w1].
  destruct (generate_public_parameters TokenPlatform sys tms t root w1)
    as [[[]|e2] w2] eqn:H2; [|right; left; by exists root, w1, e2, w2].
  destruct (prepare_chaincode fabric tms t w2) as [[cc|e3] w3] eqn:H3.
  - right; right; right. by exists root, w1, w2, cc, w3.
  - right; right; left. by exists root, w1, w2, e3, w3.
Qed.

Lemma replay_untouched entry evs : ∀ en,
  Forall (fun ev => is_set_TCC ev = false) evs →
  stored_names evs = [] →
  replay entry evs en = en.
Proof.
  induction evs as [|ev evs IH]; intros en Hall Hst; [done|].
  apply Forall_cons in Hall as [Hev Hall].
  change (replay entry evs (apply_event entry en ev) = en).
  destruct ev; try done; by apply IH.
Qed.

Lemma events_exclude w w' evs (q : Phase) :
  trace w' = trace w ++ evs →
  Forall (fun ev => phase_of ev ≠ q) evs →
  ¬ Exists (fun ev => phase_of ev = q) (new_events w w').
Proof.
  intros Htr Hall Hex. rewrite (new_events_app _ _ _ Htr) in Hex.
  apply Exists_exists in Hex as (ev & Hin & Hp).
  rewrite Forall_forall in Hall. by apply (Hall ev Hin).
Qed.

Lemma wallet_events_only evs (q : Phase) :
  q ≠ WalletsPopulated → Forall wallet_event evs → Forall (fun ev => phase_of ev ≠ q) evs.
Proof.
  intros Hq Hall. eapply Forall_impl; [exact Hall|].
  intros ev Hev. unfold wallet_event in Hev. congruence.
Qed.

Lemma params_events_only evs (q : Phase) :
  q ≠ ParametersPersisted → Forall params_event evs →
  Forall (fun ev => phase_of ev ≠ q) evs.
Proof.
  intros Hq Hall. eapply Forall_impl; [exact Hall|].
  intros ev Hev. unfold params_event in Hev. congruence.
Qed.

Lemma wallets_started_from (TokenPlatform : tokenPlatform ExtState) entry w w0 w1 :
  wallets w0 = wallets w →
  wallets_started TokenPlatform entry w0 w1 → wallets_started TokenPlatform entry w w1.
Proof. intros Hw (started & H). exists started. by rewrite <- Hw. Qed.

Lemma parameters_persisted_fs (TokenPlatform : tokenPlatform ExtState) (sys : OS FS)
    t w w2 w3 :
  fs w3 = fs w2 →
  parameters_persisted TokenPlatform sys t w w2 →
  parameters_persisted TokenPlatform sys t w w3.
Proof.
  intros Hfs (g & root & x0 & ppg & x & ppRaw & x' & d1 & H).
  exists g, root, x0, ppg, x, ppRaw, x', d1. by rewrite Hfs.
Qed.

Lemma stages_persisted (TokenPlatform : tokenPlatform ExtState) (sys : OS FS)
    tms t w w0 root w1 w2 :
  ext w0 = ext w → fs w0 = fs w →
  generate_wallets TokenPlatform tms t w0 = (Ok root, w1) →
  generate_public_parameters TokenPlatform sys tms t root w1 = (Ok tt, w2) →
  parameters_persisted TokenPlatform sys t w w2.
Proof.
  intros Hext Hfs H1 H2.
  destruct (generate_wallets_inv _ _ _ _ _ _ H1) as (g & x0 & nodes & Hg & Hs & _ & _).
  destruct (generate_public_parameters_inv _ _ _ _ _ _ _ H2)
    as (ppg & ppRaw & x & d1 & d2 & Hp & Hgen & Hmk & Hwr & ->).
  pose proof (generate_wallets_fs TokenPlatform tms t w0) as F. rewrite H1 in F.
  simpl in F. rewrite F, Hfs in Hmk. rewrite Hext in Hs.
  exists g, root, x0, ppg, (ext w1), ppRaw, x, d1. by split_and!.
Qed.

(** C6 (amended): [GenerateArtifacts] drives the entry through the stages
    in the order wallets, parameters, contract descriptor.  The effects
    come in this order; effects of a later stage exist only when every
    node of the topology has its complete wallet under its name
    ([WalletsPopulated]), effects of the last stage only when the
    parameters were besides written without error
    ([ParametersPersisted]); the TCC is set by the last effect of a run
    that returns, and by no other ([ContractDescriptorSet]).  The run
    returns when no collaborator call fails, and each stage completes when
    its own collaborators and those of the stages before do their part.
    Nothing is rolled back: a run that fails after the wallet stage leaves
    the entry in the last state completed, its TCC as it was; a run that
    fails before any wallet was stored leaves the entry untouched; and a
    run that fails inside the wallet stage leaves in the entry the wallets
    of the nodes already started, so not the state before the stage. *)
Theorem GenerateArtifacts_phases
    (TokenPlatform : tokenPlatform ExtState) (sys : OS FS) (fabric : ChaincodeOps ExtState)
    w tms t :
  tmss w !! tms = Some t →
  registry_wf w →
  ∃ entry w0 en0 res w',
    GetEntry tms w = (Ok entry, w0) ∧
    entries w0 !! entry = Some en0 ∧
    GenerateArtifacts TokenPlatform sys fabric tms w = (res, w') ∧
    Entries w' !! entry_key t = Some entry ∧
    run_in_phases TokenPlatform tms t entry en0 w w' res ∧
    (res = Ok tt → in_phase TokenPlatform sys t entry en0 w w' ContractDescriptorSet) ∧
    (res ≠ Ok tt →
     Exists (fun ev => phase_of ev = ContractDescriptorSet) (new_events w w') →
     in_phase TokenPlatform sys t entry en0 w w' ParametersPersisted) ∧
    (res ≠ Ok tt →
     Exists (fun ev => phase_of ev = ParametersPersisted) (new_events w w') →
     in_phase TokenPlatform sys t entry en0 w w' WalletsPopulated) ∧
    (res ≠ Ok tt →
     stored_names (new_events w w') = [] →
     in_phase TokenPlatform sys t entry en0 w w' Empty) ∧
    (wallet_stage_ok TokenPlatform t →
     wallets_populated TokenPlatform entry w w' ∧
     (params_stage_ok TokenPlatform sys t →
      parameters_persisted TokenPlatform sys t w w' ∧
      (chaincode_stage_ok fabric t → res = Ok tt))) ∧
    wallets_started TokenPlatform entry w w'.
Proof.
  intros Ht Hwf.
  destruct (GenerateArtifacts_in_phases TokenPlatform sys fabric w tms t Ht Hwf)
    as (entry & w0 & en0 & res & w' & Hget & Hen0 & Hrun & Hkey & Hph).
  exists entry, w0, en0, res, w'.
  split; [done|]. split; [done|]. split; [done|]. split; [done|]. split; [done|].
  destruct (GetEntry_frame _ _ _ _ Hget) as (Htm & Hwal & Hext & Hfs & Htr).
  destruct (GetEntry_registers _ _ _ _ _ Ht Hget) as [Hkey0 _].
  assert (Ht0 : tmss w0 !! tms = Some t) by (by rewrite Htm).
  assert (Hval : is_Some (entries w0 !! entry)) by (by exists en0).
  destruct Hph as (evs1 & evs2 & evs3 & Hnew & _ & _ & _ & _ & _ & Hrep & Hok & Hfail).
  assert (Hempty : res ≠ Ok tt → stored_names (new_events w w') = [] →
            in_phase TokenPlatform sys t entry en0 w w' Empty).
  { intros Hne Hnone. destruct (Hfail Hne) as [Hq _]. simpl.
    by rewrite Hrep, replay_untouched. }
  pose proof (generate_wallets_started TokenPlatform tms t entry w0 Ht0 Hkey0 Hval) as Hst.
  pose proof (generate_wallets_steady entry TokenPlatform tms t w0 Ht0 Hkey0) as Hsteady.
  destruct (sound_generate_wallets entry TokenPlatform tms t w0)
    as (_ & _ & _ & _ & ea & Htra & Hea & _).
  rewrite Htr in Htra.
  destruct (GenerateArtifacts_stages TokenPlatform sys fabric w tms t entry w0 Ht Hget)
    as [(e & w1 & H1 & HGA)
       |[(root & w1 & e & w2 & H1 & H2 & HGA)
        |[(root & w1 & w2 & e & w3 & H1 & H2 & H3 & HGA)
         |(root & w1 & w2 & cc & w3 & H1 & H2 & H3 & HGA)]]];
    rewrite Hrun in HGA; rewrite H1 in Hst, Htra, Hsteady; simpl in Hst, Htra.
  - (* the wallet stage stops the run *)
    injection HGA as -> ->.
    split_and!; [done| | |done| |].
    + intros _ Hex. exfalso. apply (events_exclude _ _ _ _ Htra) in Hex; [done|].
      by apply wallet_events_only.
    + intros _ Hex. exfalso. apply (events_exclude _ _ _ _ Htra) in Hex; [done|].
      by apply wallet_events_only.
    + intros Hok1.
      destruct (generate_wallets_returns TokenPlatform tms t entry w0 Hok1 Ht0 Hkey0 Hval)
        as (r & w1' & Hr). rewrite H1 in Hr. done.
    + by apply (wallets_started_from TokenPlatform entry w w0).
  - (* the parameters stage stops the run *)
    injection HGA as -> ->.
    pose proof (generate_public_parameters_store TokenPlatform sys tms t root w1) as S2.
    rewrite H2 in S2. simpl in S2. destruct S2 as [Se2 Sw2].
    pose proof (same_wallets_store entry w1 w2 Se2 Sw2) as Hsame.
    assert (Hpop : wallets_populated TokenPlatform entry w w2).
    { apply (wallets_populated_from TokenPlatform entry w w0); [done|].
      apply (wallets_populated_same TokenPlatform entry w0 w1); [done|].
      by apply (generate_wallets_populated TokenPlatform tms t entry w0 root). }
    destruct (sound_generate_public_parameters entry TokenPlatform sys tms t root w1)
      as (_ & _ & _ & _ & eb & Htrb & Heb & _).
    rewrite H2 in Htrb. simpl in Htrb. rewrite Htra, <- app_assoc in Htrb.
    split_and!; [done| | |done| |].
    + intros _ Hex. exfalso. apply (events_exclude _ _ _ _ Htrb) in Hex; [done|].
      apply Forall_app. split;
        [by apply wallet_events_only|by apply params_events_only].
    + intros Hne _. split; [done|]. by apply Hfail.
    + intros Hok1. split; [done|]. intros Hok2.
      destruct (generate_public_parameters_returns TokenPlatform sys tms t root w1 Hok2)
        as (w2' & Hr). rewrite H2 in Hr. done.
    + apply (wallets_started_from TokenPlatform entry w w0); [done|].
      by apply (wallets_started_same TokenPlatform entry w0 w1).
  - (* the chaincode stage stops the run *)
    injection HGA as -> ->.
    pose proof (generate_public_parameters_store TokenPlatform sys tms t root w1) as S2.
    rewrite H2 in S2. simpl in S2. destruct S2 as [Se2 Sw2].
    pose proof (prepare_chaincode_store fabric tms t w2) as S3.
    rewrite H3 in S3. simpl in S3. destruct S3 as [Se3 Sw3].
    assert (Hsame : same_wallets entry w1 w3).
    { apply (same_wallets_trans entry w1 w2 w3); by apply same_wallets_store. }
    assert (Hpop : wallets_populated TokenPlatform entry w w3).
    { apply (wallets_populated_from TokenPlatform entry w w0); [done|].
      apply (wallets_populated_same TokenPlatform entry w0 w1); [done|].
      by apply (generate_wallets_populated TokenPlatform tms t entry w0 root). }
    assert (Hpers : parameters_persisted TokenPlatform sys t w w3).
    { apply (parameters_persisted_fs TokenPlatform sys t w w2).
      - pose proof (prepare_chaincode_fs fabric tms t w2) as F. by rewrite H3 in F.
      - by apply (stages_persisted TokenPlatform sys tms t w w0 root w1). }
    split_and!; [done| | |done| |].
    + intros Hne _. split_and!; [done|done|]. by apply Hfail.
    + intros Hne _. split; [done|]. by apply Hfail.
    + intros Hok1. split; [done|]. intros Hok2. split; [done|]. intros Hok3.
      destruct (prepare_chaincode_returns fabric tms t w2 Hok3) as (cc & w3' & Hr).
      rewrite H3 in Hr. done.
    + apply (wallets_started_from TokenPlatform entry w w0); [done|].
      by apply (wallets_started_same TokenPlatform entry w0 w1).
  - (* every stage returns *)
    pose proof (generate_public_parameters_store TokenPlatform sys tms t root w1) as S2.
    rewrite H2 in S2. simpl in S2. destruct S2 as [Se2 Sw2].
    pose proof (prepare_chaincode_store fabric tms t w2) as S3.
    rewrite H3 in S3. simpl in S3. destruct S3 as [Se3 Sw3].
    pose proof (set_TCC_same_wallets entry {| Chaincode := cc |} w3) as S4.
    rewrite <- HGA in S4. simpl in S4.
    pose proof (set_TCC_fs entry {| Chaincode := cc |} w3) as F4.
    rewrite <- HGA in F4. simpl in F4.
    assert (Hres : res = Ok tt).
    { destruct Hsteady as (_ & _ & Hlen & _). simpl in Hlen.
      destruct (lookup_lt_is_Some_2 (entries w3) entry) as [en3 Hen3].
      { rewrite Se3, Se2, Hlen. by eapply lookup_lt_Some. }
      rewrite (set_TCC_run _ _ _ _ Hen3) in HGA. by injection HGA as -> _. }
    assert (Hsame : same_wallets entry w1 w').
    { apply (same_wallets_trans entry w1 w3 w'); [|done].
      apply (same_wallets_trans entry w1 w2 w3); by apply same_wallets_store. }
    assert (Hpop : wallets_populated TokenPlatform entry w w').
    { apply (wallets_populated_from TokenPlatform entry w w0); [done|].
      apply (wallets_populated_same TokenPlatform entry w0 w1); [done|].
      by apply (generate_wallets_populated TokenPlatform tms t entry w0 root). }
    assert (Hpers : parameters_persisted TokenPlatform sys t w w').
    { apply (parameters_persisted_fs TokenPlatform sys t w w2).
      - pose proof (prepare_chaincode_fs fabric tms t w2) as F. rewrite H3 in F.
        simpl in F. congruence.
      - by apply (stages_persisted TokenPlatform sys tms t w w0 root w1). }
    split_and!; [|done|done|done|done|].
    + intros _. split_and!; [done|done|].
      destruct (Hok Hres) as (evs3' & tcc & Hevs3 & _ & Htcc).
      exists tcc. split; [done|].
      by rewrite Hnew, Hevs3, !app_assoc, last_snoc.
    + apply (wallets_started_from TokenPlatform entry w w0); [done|].
      by apply (wallets_started_same TokenPlatform entry w0 w1).
Qed.

End Properties.

(** * The statements on the concrete platform *)

Lemma per_name_flags_clear prefix (t : TMS) (node : Node) names (x : nat) :
  Forall (fun i => Default i = false) (per_name false prefix t node names x).1.
Proof. simpl. induction names as [|n names IH]; by constructor. Qed.

Lemma demo_generator_flags_clear : flags_clear demo_generator.
Proof. intros r t node names x. destruct r; apply per_name_flags_clear. Qed.

(** The generator of the example clears its flags: the invariant holds on
    its run. *)
Lemma default_is_unique_and_last_witness :
  default_invariant demo_generator 0 demo_tms demo_node demo_world.
Proof.
  apply default_is_unique_and_last.
  - exact demo_generator_flags_clear.
  - reflexivity.
Defined.

(** Two issuer records come back flagged: the wallet has two defaults. *)
Lemma default_not_unique_when_generator_flags :
  ¬ default_invariant flagged_generator 0 demo_tms demo_node demo_world.
Proof.
  intros H.
  destruct (H flagged_wallet_run.2) as (entry & wl & Hkey & Hlook & Hinv).
  { vm_compute. reflexivity. }
  vm_compute in Hkey. injection Hkey as <-.
  vm_compute in Hlook. injection Hlook as <-.
  destruct (Hinv IssuerRole) as [_ Hcount]; [done|].
  vm_compute in Hcount. discriminate.
Qed.

Lemma demo_generator_one_per_name : one_per_name demo_generator.
Proof. intros r t node names x. destruct r; simpl; apply length_map. Qed.

(** One configured issuer, one record per name: the generator is called
    with [alice] and the node's id, the wallet has two issuer records. *)
Lemma multi_identity_role_wallet_witness :
  ∃ res w' entry wl,
    GenerateCryptoMaterial demo_generator 0 demo_node demo_world = (res, w') ∧
    Entries w' !! entry_key demo_tms = Some entry ∧
    lookup_wallet w' entry (Name demo_node) = Some wl ∧
    ((∃ ids xr,
        (generate_method IssuerRole demo_generator demo_tms demo_node
           (configured IssuerRole demo_node ++ [ID demo_node]) xr).1 = ids ∧
        generator_calls IssuerRole (new_events demo_world w') =
          [EvGenerate IssuerRole 0 demo_node
             (configured IssuerRole demo_node ++ [ID demo_node]) ids] ∧
        role_seq IssuerRole wl = alter mark_default (length ids - 1) ids ∧
        length (role_seq IssuerRole wl) = length ids ∧
        (ids = [] → res = Panic (IndexOutOfRange IssuerRole (-1) 0)) ∧
        (∀ own, last ids = Some own →
           last (role_seq IssuerRole wl) = Some (mark_default own))) ∨
     (IssuerRole = OwnerRole ∧ role_enabled IssuerRole demo_node = true ∧
      res = Panic (IndexOutOfRange IssuerRole (-1) 0) ∧
      generator_calls IssuerRole (new_events demo_world w') = [] ∧
      role_seq IssuerRole wl = [])) ∧
    (one_per_name demo_generator →
     res = Ok tt ∧ multi_role_invariant IssuerRole 1 demo_generator 0 demo_tms demo_node
                     demo_world).
Proof.
  apply (multi_identity_role_wallet demo_generator 0 demo_tms demo_node demo_world
           IssuerRole 1).
  - left. reflexivity.
  - reflexivity.
  - lia.
  - reflexivity.
  - apply registry_wf_fresh.
Defined.

(** One record comes back for two names: the wallet has one issuer. *)
Lemma wallet_shorter_when_generator_is_terse :
  ¬ multi_role_invariant IssuerRole 1 terse_generator 0 demo_tms demo_node demo_world.
Proof.
  intros H.
  destruct (H terse_wallet_run.2) as (entry & wl & ids & own & Hkey & Hlook & _ & Hlen & _).
  { vm_compute. reflexivity. }
  vm_compute in Hkey. injection Hkey as <-.
  vm_compute in Hlook. injection Hlook as <-.
  vm_compute in Hlen. discriminate.
Qed.

(** The terse generator: the call is the same, the wallet has the one
    record returned, marked as default. *)
Example terse_generator_one_issuer :
  terse_wallet_run.1 = Ok tt ∧
  generator_calls IssuerRole (trace terse_wallet_run.2) =
    [EvGenerate IssuerRole 0 demo_node ["alice"; "org1peer-id"] [mkIdentity "only" false]] ∧
  (Issuers <$> lookup_wallet terse_wallet_run.2 0 "org1peer") =
    Some [mkIdentity "only" true].
Proof. vm_compute. done. Qed.

(** An owner whose issuer block stops the run: the owner's generator is
    never called. *)
Example owner_not_reached :
  let node := mkNode "both" "both-id" (mkOptions ["alice"] ["carol"] false false) in
  let run := GenerateCryptoMaterial silent_generator 0 node demo_world in
  run.1 = Panic (IndexOutOfRange IssuerRole (-1) 0) ∧
  generator_calls OwnerRole (trace run.2) = [].
Proof. vm_compute. done. Qed.

(** Two descriptors that differ in driver, arguments and chaincode, on a
    fresh handler. *)
Lemma GetEntry_first_write_wins_witness :
  ∃ entry w1,
    GetEntry 0 demo_world = (Ok entry, w1) ∧
    GetEntry 1 w1 = (Ok entry, w1) ∧
    (Entries demo_world !! entry_key demo_tms = None →
     entries w1 !! entry = Some {| eTMS := 0; eTCC := None; eWallets := ∅ |}) ∧
    (is_Some (Entries demo_world !! entry_key demo_tms) → w1 = demo_world).
Proof.
  apply (GetEntry_first_write_wins demo_world 0 1 demo_tms demo_tms_drifted);
    reflexivity.
Defined.

(** The directory of the example node. *)
Lemma FSCCertifierCryptoMaterialDir_layout_witness :
  FSCCertifierCryptoMaterialDir (demo_platform true) slash_join 0 demo_node demo_world =
    (Ok "/tmp/nwo/crypto/fsc/org1peer-id/wallets/certifier/N1_C1_tokens_zkat", demo_world).
Proof.
  apply (FSCCertifierCryptoMaterialDir_layout (demo_platform true) slash_join
           demo_world 0 demo_tms demo_node).
  reflexivity.
Defined.

(** The auditor of the example node. *)
Lemma single_identity_role_wallet_witness :
  ∃ res w' entry wl,
    GenerateCryptoMaterial demo_generator 0 demo_node demo_world = (res, w') ∧
    Entries w' !! entry_key demo_tms = Some entry ∧
    lookup_wallet w' entry (Name demo_node) = Some wl ∧
    ((∃ ids xr,
        (generate_method AuditorRole demo_generator demo_tms demo_node
           [Name demo_node] xr).1 = ids ∧
        generator_calls AuditorRole (new_events demo_world w') =
          [EvGenerate AuditorRole 0 demo_node [Name demo_node] ids] ∧
        match ids with
        | [] => res = Panic (IndexOutOfRange AuditorRole 0 0) ∧ role_seq AuditorRole wl = []
        | id0 :: _ =>
            role_seq AuditorRole wl =
              [ {| Credential := Credential id0; Default := true |} ] ∧
            length (role_seq AuditorRole wl) = 1
        end) ∨
     (∃ r', r' ∈ earlier_roles AuditorRole ∧ role_enabled r' demo_node = true ∧
        res = Panic (IndexOutOfRange r' (oob_index r') 0) ∧
        generator_calls AuditorRole (new_events demo_world w') = [] ∧
        role_seq AuditorRole wl = [])) ∧
    ((∀ r' x, role_enabled r' demo_node = true →
        (generate_method r' demo_generator demo_tms demo_node
           (role_names r' demo_node) x).1 ≠ []) →
     res = Ok tt) ∧
    (res = Ok tt →
     ∃ id0 rest,
       generator_calls AuditorRole (new_events demo_world w') =
         [EvGenerate AuditorRole 0 demo_node [Name demo_node] (id0 :: rest)] ∧
       role_seq AuditorRole wl = [ {| Credential := Credential id0; Default := true |} ] ∧
       length (role_seq AuditorRole wl) = 1).
Proof.
  apply (single_identity_role_wallet demo_generator 0 demo_tms demo_node demo_world
           AuditorRole).
  - left. reflexivity.
  - reflexivity.
  - reflexivity.
  - apply registry_wf_fresh.
Defined.

(** An auditor whose issuer block stops the run: the auditor's generator
    is never called. *)
Example auditor_not_reached :
  let run := GenerateCryptoMaterial silent_generator 0 demo_node demo_world in
  run.1 = Panic (IndexOutOfRange IssuerRole (-1) 0) ∧
  generator_calls AuditorRole (trace run.2) = [] ∧
  (Auditors <$> lookup_wallet run.2 0 "org1peer") = Some [].
Proof. vm_compute. done. Qed.

(** An auditor whose generator returns nothing: the run stops on index 0
    and the wallet has no auditor. *)
Lemma auditor_wallet_empty_when_generator_is_silent :
  ¬ single_role_invariant AuditorRole silent_generator 0 demo_tms auditor_node demo_world.
Proof.
  intros H.
  destruct (H silent_auditor_run.1 silent_auditor_run.2)
    as (entry & wl & id0 & rest & Hkey & Hlook & _ & _ & Hlen).
  { vm_compute. reflexivity. }
  vm_compute in Hkey. injection Hkey as <-.
  vm_compute in Hlook. injection Hlook as <-.
  vm_compute in Hlen. discriminate.
Qed.

(** The example node owns nothing. *)
Lemma unconfigured_role_stays_empty_witness :
  ∃ res w' entry wl,
    GenerateCryptoMaterial demo_generator 0 demo_node demo_world = (res, w') ∧
    Entries w' !! entry_key demo_tms = Some entry ∧
    lookup_wallet w' entry (Name demo_node) = Some wl ∧
    role_seq OwnerRole wl = [] ∧
    generator_calls OwnerRole (new_events demo_world w') = [] ∧
    (res = Ok tt ∨
     ∃ r', r' ≠ OwnerRole ∧ role_enabled r' demo_node = true ∧
           res = Panic (IndexOutOfRange r' (oob_index r') 0)) ∧
    ((∀ r', no_membership r' demo_node) → res = Ok tt).
Proof.
  apply (unconfigured_role_stays_empty demo_generator 0 demo_tms demo_node demo_world OwnerRole).
  - reflexivity.
  - reflexivity.
  - apply registry_wf_fresh.
Defined.

(** A generator that returns nothing, on a fresh handler. *)
Lemma GenerateCryptoMaterial_needs_credentials_witness :
  ∃ res w',
    GenerateCryptoMaterial silent_generator 0 demo_node demo_world = (res, w') ∧
    (res = Ok tt ↔ Forall returned_some (new_events demo_world w')) ∧
    (res ≠ Ok tt →
     ∃ r, role_enabled r demo_node = true ∧
          res = Panic (IndexOutOfRange r (oob_index r) 0) ∧
          EvGenerate r 0 demo_node (role_names r demo_node) [] ∈ new_events demo_world w') ∧
    ((∀ r x, role_enabled r demo_node = true →
        (generate_method r silent_generator demo_tms demo_node (role_names r demo_node) x).1 ≠ []) →
     res = Ok tt) ∧
    (∀ r, role_enabled r demo_node = true →
       (∀ x, (generate_method r silent_generator demo_tms demo_node (role_names r demo_node) x).1 = []) →
       ∃ r', role_enabled r' demo_node = true ∧
             res = Panic (IndexOutOfRange r' (oob_index r') 0)).
Proof.
  apply (GenerateCryptoMaterial_needs_credentials silent_generator 0 demo_tms demo_node demo_world).
  - reflexivity.
  - apply registry_wf_fresh.
Defined.

(** The two indices out of range. *)
Example silent_generator_panics :
  (GenerateCryptoMaterial silent_generator 0 demo_node demo_world).1
    = Panic (IndexOutOfRange IssuerRole (-1) 0) ∧
  (GenerateCryptoMaterial silent_generator 0
     (mkNode "a" "a-id" (mkOptions [] [] true false)) demo_world).1
    = Panic (IndexOutOfRange AuditorRole 0 0).
Proof. split; vm_compute; reflexivity. Qed.

(** The platform without generator of public parameters. *)
Lemma GenerateArtifacts_without_generator_witness :
  ∃ e w',
    GenerateArtifacts (demo_platform false) demo_os demo_fabric 0 demo_world = (Panic e, w') ∧
    fs w' = fs demo_world ∧
    Forall (fun ev => phase_of ev = WalletsPopulated ∧ is_fs_event ev = false)
      (new_events demo_world w') ∧
    (∀ entry w0 root w1,
       GetEntry 0 demo_world = (Ok entry, w0) →
       generate_wallets (demo_platform false) 0 demo_tms w0 = (Ok root, w1) →
       e = ExpectationFailed ∧ w' = w1).
Proof.
  apply (GenerateArtifacts_without_generator (demo_platform false) demo_os demo_fabric
           demo_world 0 demo_tms).
  - reflexivity.
  - reflexivity.
Defined.

Lemma demo_wallet_stage_ok : wallet_stage_ok (demo_platform true) demo_tms.
Proof.
  exists demo_generator, [demo_node; idle_node]. split_and!; [done|done|done|].
  intros node r x _ _. pose proof (role_names_nonempty r node) as Hn.
  destruct r; simpl; intros Heq;
    first [discriminate | apply map_eq_nil in Heq; exact (Hn Heq)].
Qed.

Lemma demo_params_stage_ok : params_stage_ok (demo_platform true) demo_os demo_tms.
Proof. exists demo_ppg. by split_and!. Qed.

Lemma demo_chaincode_stage_ok : chaincode_stage_ok demo_fabric demo_tms.
Proof. split; intros; by eexists. Qed.

(** A full run on the platform of the example, whose collaborators all do
    their part. *)
Lemma GenerateArtifacts_phases_witness :
  wallet_stage_ok (demo_platform true) demo_tms ∧
  params_stage_ok (demo_platform true) demo_os demo_tms ∧
  chaincode_stage_ok demo_fabric demo_tms ∧
  ∃ entry w0 en0 res w',
    GetEntry 0 demo_world = (Ok entry, w0) ∧
    entries w0 !! entry = Some en0 ∧
    GenerateArtifacts (demo_platform true) demo_os demo_fabric 0 demo_world = (res, w') ∧
    Entries w' !! entry_key demo_tms = Some entry ∧
    run_in_phases (demo_platform true) 0 demo_tms entry en0 demo_world w' res ∧
    (res = Ok tt →
     in_phase (demo_platform true) demo_os demo_tms entry en0 demo_world w'
       ContractDescriptorSet) ∧
    (res ≠ Ok tt →
     Exists (fun ev => phase_of ev = ContractDescriptorSet) (new_events demo_world w') →
     in_phase (demo_platform true) demo_os demo_tms entry en0 demo_world w'
       ParametersPersisted) ∧
    (res ≠ Ok tt →
     Exists (fun ev => phase_of ev = ParametersPersisted) (new_events demo_world w') →
     in_phase (demo_platform true) demo_os demo_tms entry en0 demo_world w'
       WalletsPopulated) ∧
    (res ≠ Ok tt →
     stored_names (new_events demo_world w') = [] →
     in_phase (demo_platform true) demo_os demo_tms entry en0 demo_world w' Empty) ∧
    (wallet_stage_ok (demo_platform true) demo_tms →
     wallets_populated (demo_platform true) entry demo_world w' ∧
     (params_stage_ok (demo_platform true) demo_os demo_tms →
      parameters_persisted (demo_platform true) demo_os demo_tms demo_world w' ∧
      (chaincode_stage_ok demo_fabric demo_tms → res = Ok tt))) ∧
    wallets_started (demo_platform true) entry demo_world w'.
Proof.
  split; [exact demo_wallet_stage_ok|].
  split; [exact demo_params_stage_ok|].
  split; [exact demo_chaincode_stage_ok|].
  apply (GenerateArtifacts_phases (demo_platform true) demo_os demo_fabric demo_world 0 demo_tms).
  - reflexivity.
  - apply registry_wf_fresh.
Defined.

(** The second node's auditor gets no record: the run stops inside the
    wallet stage, and the entry is in none of the states.  It holds the
    wallet of the first node and the unfinished one of the second. *)
Lemma partial_wallets_after_failed_run :
  ¬ stays_in_completed_state half_platform demo_os demo_fabric 0 demo_tms demo_world.
Proof.
  intros H.
  destruct (H 0 (GetEntry 0 demo_world).2 {| eTMS := 0; eTCC := None; eWallets := ∅ |}
              half_run.1 half_run.2) as [ph Hph].
  - vm_compute. reflexivity.
  - vm_compute. reflexivity.
  - vm_compute. reflexivity.
  - intros Heq. vm_compute in Heq. discriminate.
  - assert (Hpop : ¬ wallets_populated half_platform 0 demo_world half_run.2).
    { intros (nodes & Hn & _ & Hc & _). simpl in Hn. injection Hn as <-.
      destruct (Hc 1 auditor_node eq_refl) as (wl & Hwl & Hcomp).
      vm_compute in Hwl. injection Hwl as <-.
      specialize (Hcomp AuditorRole). simpl in Hcomp. by apply Hcomp. }
    destruct ph; simpl in Hph.
    + apply (f_equal (fun o => o ≫= (fun en => eWallets en !! "org2peer"))) in Hph.
      vm_compute in Hph. discriminate.
    + by destruct Hph as [? _].
    + by destruct Hph as [? _].
    + by destruct Hph as [? _].
Qed.

(** What the failed run leaves: two wallets, both in the entry, the second
    one without its auditor; no file, no TCC. *)
Example half_run_is_partial :
  half_run.1 = Panic (IndexOutOfRange AuditorRole 0 0) ∧
  stored_names (trace half_run.2) = ["org2peer"; "auditor"] ∧
  slot half_run.2 0 "org2peer" = Some 0 ∧
  slot half_run.2 0 "auditor" = Some 1 ∧
  (Issuers <$> lookup_wallet half_run.2 0 "org2peer") =
    Some [ mkIdentity "issuer:bob" false; mkIdentity "issuer:org2peer-id" true ] ∧
  lookup_wallet half_run.2 0 "auditor" = Some empty_wallet ∧
  (eTCC <$> entries half_run.2) = [None] ∧
  fs half_run.2 = [].
Proof. vm_compute. done. Qed.

(** A run that fails in the last stage: the wallets and the file are
    there, the entry has no TCC. *)
Example failed_chaincode_keeps_parameters :
  let run := GenerateArtifacts (demo_platform true) demo_os refusing_fabric 0 demo_world in
  run.1 = Panic CollaboratorPanic ∧
  phase_of <$> trace run.2 =
    [ WalletsPopulated; WalletsPopulated; WalletsPopulated; WalletsPopulated;
      WalletsPopulated;
      ParametersPersisted; ParametersPersisted; ParametersPersisted;
      ContractDescriptorSet; ContractDescriptorSet ] ∧
  length (wallets run.2) = 2 ∧
  (eTCC <$> entries run.2) = [None] ∧
  fs run.2 = [("/tmp/nwo/pp/N1C1tokens_zkat", [Byte.x01; Byte.x02])].
Proof. vm_compute. done. Qed.

(** The phases of the effects of a full run, and the file it writes. *)
Example demo_artifacts_trace :
  let run := GenerateArtifacts (demo_platform true) demo_os demo_fabric 0 demo_world in
  run.1 = Ok tt ∧
  phase_of <$> trace run.2 =
    [ WalletsPopulated; WalletsPopulated; WalletsPopulated; WalletsPopulated;
      WalletsPopulated;
      ParametersPersisted; ParametersPersisted; ParametersPersisted;
      ContractDescriptorSet; ContractDescriptorSet; ContractDescriptorSet ] ∧
  fs run.2 = [("/tmp/nwo/pp/N1C1tokens_zkat", [Byte.x01; Byte.x02])].
Proof. vm_compute. done. Qed.

(** The scenario of the spec: one issuer name, no owner, auditor on,
    certifier off. *)
Example demo_wallet :
  demo_wallet_run.1 = Ok tt ∧
  wallets demo_wallet_run.2 =
    [ {| Certifiers := [];
         Issuers := [ mkIdentity "issuer:alice" false;
                      mkIdentity "issuer:org1peer-id" true ];
         Owners := [];
         Auditors := [ mkIdentity "auditor:org1peer" true ] |} ].
Proof. vm_compute. done. Qed.

(** A run without generator of public parameters stops after the wallets:
    both nodes have their wallet in the entry, no file is written and the
    entry has no TCC. *)
Example demo_failed_run_keeps_wallets :
  let run := GenerateArtifacts (demo_platform false) demo_os demo_fabric 0 demo_world in
  run.1 = Panic ExpectationFailed ∧
  stored_names (trace run.2) = ["org1peer"; "idle"] ∧
  (eTCC <$> entries run.2) = [None] ∧
  (Issuers <$> lookup_wallet run.2 0 "org1peer") =
    Some [ mkIdentity "issuer:alice" false; mkIdentity "issuer:org1peer-id" true ] ∧
  lookup_wallet run.2 0 "idle" = Some empty_wallet ∧
  fs run.2 = [].
Proof. vm_compute. done. Qed.

(** A second run, with a descriptor that shares the key, works on the
    entry of the first: the entry keeps the first descriptor, gets new
    wallets and a new TCC. *)
Example drifted_run_reuses_entry :
  let first := GenerateArtifacts (demo_platform true) demo_os demo_fabric 0 demo_world in
  let second := GenerateArtifacts (demo_platform true) demo_os demo_fabric 1 first.2 in
  first.1 = Ok tt ∧ second.1 = Ok tt ∧
  Entries second.2 !! "N1C1tokens" = Some 0 ∧
  (eTMS <$> entries second.2) = [0] ∧
  (eWallets <$> entries first.2 !! 0) ≫= (.!! "org1peer") = Some 0 ∧
  (eWallets <$> entries second.2 !! 0) ≫= (.!! "org1peer") = Some 2 ∧
  (fst <$> fs second.2) =
    ["/tmp/nwo/pp/N1C1tokens_fabtoken"; "/tmp/nwo/pp/N1C1tokens_zkat"].
Proof. vm_compute. done. Qed.

(** The descriptors ("a", "bc", "x") and ("ab", "c", "x") on a fresh
    handler: one key, one entry, which holds the first descriptor. *)
Example collision_on_fresh_handler :
  let t1 := mkTMS "a" "bc" "x" "zkat" [] (mkTokenChaincode false "" []) in
  let t2 := mkTMS "ab" "c" "x" "zkat" [] (mkTokenChaincode false "" []) in
  let w : World nat demo_files := NewNetworkHandler [t1; t2] 0 [] in
  let first := GetEntry 0 w in
  let second := GetEntry 1 first.2 in
  entry_key t1 = "abcx" ∧ entry_key t2 = "abcx" ∧
  first.1 = Ok 0 ∧ second.1 = Ok 0 ∧
  (eTMS <$> entries second.2) = [0].
Proof. vm_compute. done. Qed.

(** ** The statements on isolation, order and deployment *)

Lemma registry_inj_fresh (descriptors : list TMS) (x : nat) (d : demo_files) :
  registry_inj (NewNetworkHandler descriptors x d).
Proof. intros k1 k2 e H. simpl in H. by rewrite lookup_empty in H. Qed.

(** The first call on a fresh handler. *)
Lemma GetEntry_keeps_entries_apart_witness :
  registry_wf (GetEntry 0 demo_world).2 ∧
  registry_inj (GetEntry 0 demo_world).2 ∧
  ∀ t entry w',
    tmss demo_world !! 0 = Some t →
    Entries demo_world !! entry_key t = None →
    GetEntry 0 demo_world = (Ok entry, w') →
    (∀ k e, Entries demo_world !! k = Some e → e ≠ entry) ∧
    entries w' !! entry = Some {| eTMS := 0; eTCC := None; eWallets := ∅ |}.
Proof.
  apply (GetEntry_keeps_entries_apart demo_world 0).
  - apply registry_wf_fresh.
  - apply registry_inj_fresh.
Defined.

(** The example node: issuer, then auditor. *)
Lemma generators_called_in_role_order_witness :
  ∃ res w',
    GenerateCryptoMaterial demo_generator 0 demo_node demo_world = (res, w') ∧
    generated_roles (new_events demo_world w') `prefix_of`
      filter (fun r => role_enabled r demo_node = true)
        [IssuerRole; OwnerRole; AuditorRole; CertifierRole] ∧
    (res = Ok tt →
     generated_roles (new_events demo_world w') =
       filter (fun r => role_enabled r demo_node = true)
         [IssuerRole; OwnerRole; AuditorRole; CertifierRole]).
Proof.
  apply (generators_called_in_role_order demo_generator 0 demo_tms demo_node demo_world).
  - reflexivity.
  - apply registry_wf_fresh.
Defined.

(** A full run on the platform of the example. *)
Lemma GenerateArtifacts_touches_one_entry_witness :
  ∃ entry w0,
    GetEntry 0 demo_world = (Ok entry, w0) ∧
    let w' := (GenerateArtifacts (demo_platform true) demo_os demo_fabric 0 demo_world).2 in
    Entries w' = Entries w0 ∧
    tmss w' = tmss demo_world ∧
    length (entries w') = length (entries w0) ∧
    (∀ e, e ≠ entry → entries w' !! e = entries w0 !! e) ∧
    (∀ en, entries w0 !! entry = Some en →
       ∃ en', entries w' !! entry = Some en' ∧ eTMS en' = eTMS en) ∧
    (∀ p wl, wallets demo_world !! p = Some wl → wallets w' !! p = Some wl) ∧
    (registry_wf demo_world → registry_inj demo_world → registry_wf w' ∧ registry_inj w').
Proof.
  apply (GenerateArtifacts_touches_one_entry (demo_platform true) demo_os demo_fabric
           demo_world 0 demo_tms).
  reflexivity.
Defined.

(** The two nodes of the example have their wallets at 0 and 1. *)
Lemma GenerateArtifacts_wallet_per_node_witness :
  ∃ entry nodes,
    FSCNodes (demo_platform true) = Some nodes ∧
    Entries demo_artifacts_run.2 !! entry_key demo_tms = Some entry ∧
    length (wallets demo_artifacts_run.2) = length (wallets demo_world) + length nodes ∧
    (∀ i node, nodes !! i = Some node →
       (∀ j node', i < j → nodes !! j = Some node' → Name node' ≠ Name node) →
       slot demo_artifacts_run.2 entry (Name node) = Some (length (wallets demo_world) + i)) ∧
    (∀ node, node ∈ nodes →
       ∃ p, slot demo_artifacts_run.2 entry (Name node) = Some p ∧
            length (wallets demo_world) ≤ p < length (wallets demo_artifacts_run.2) ∧
            is_Some (lookup_wallet demo_artifacts_run.2 entry (Name node))).
Proof.
  apply (GenerateArtifacts_wallet_per_node (demo_platform true) demo_os demo_fabric
           demo_world 0 demo_tms).
  - reflexivity.
  - vm_compute. reflexivity.
Defined.

(** The generator of the example clears its flags. *)
Lemma GenerateArtifacts_default_in_every_wallet_witness :
  (∀ p wl, length (wallets demo_world) ≤ p → wallets demo_artifacts_run.2 !! p = Some wl →
     ∀ r, role_seq r wl ≠ [] →
       one_default_last (role_seq r wl) ∧ count_default (role_seq r wl) = 1) ∧
  ∃ entry nodes,
    FSCNodes (demo_platform true) = Some nodes ∧
    Entries demo_artifacts_run.2 !! entry_key demo_tms = Some entry ∧
    ∀ node, node ∈ nodes →
      ∃ wl, lookup_wallet demo_artifacts_run.2 entry (Name node) = Some wl ∧
        ∀ r, role_seq r wl ≠ [] →
          one_default_last (role_seq r wl) ∧ count_default (role_seq r wl) = 1.
Proof.
  apply (GenerateArtifacts_default_in_every_wallet (demo_platform true) demo_os demo_fabric
           demo_world 0 demo_tms).
  - reflexivity.
  - intros g Hg. simpl in Hg. injection Hg as <-. exact demo_generator_flags_clear.
  - vm_compute. reflexivity.
Defined.

(** The second descriptor of the example asks for a private chaincode. *)
Lemma GenerateArtifacts_chaincode_by_mode_witness :
  ∃ entry cc x2,
    Entries demo_private_run.2 !! entry_key demo_tms_drifted = Some entry ∧
    eTCC <$> entries demo_private_run.2 !! entry = Some (Some {| Chaincode := cc |}) ∧
    if Private (TokenChaincode demo_tms_drifted) then
      ∃ c ctor x3,
        AddFPC demo_fabric (Network demo_tms_drifted) (Namespace demo_tms_drifted)
          (DockerImage (TokenChaincode demo_tms_drifted))
          (Orgs (TokenChaincode demo_tms_drifted)) x2 = (Some c, x3) ∧
        TCCCtor demo_fabric demo_tms_drifted x3 = (Some ctor, ext demo_private_run.2) ∧
        cc = {| Ctor := ctor; cc_descriptor := cc_descriptor c |} ∧
        deployment_events (new_events demo_world demo_private_run.2) =
          [EvAddFPC 1; EvTCCCtor 1; EvSetTCC entry {| Chaincode := cc |}]
    else
      ∃ x3,
        PrepareTCC demo_fabric demo_tms_drifted x2 = (Some cc, x3) ∧
        AddChaincode demo_fabric (Network demo_tms_drifted) cc x3 =
          (Some tt, ext demo_private_run.2) ∧
        deployment_events (new_events demo_world demo_private_run.2) =
          [EvPrepareTCC 1; EvAddChaincode 1; EvSetTCC entry {| Chaincode := cc |}].
Proof.
  apply (GenerateArtifacts_chaincode_by_mode (demo_platform true) demo_os demo_fabric
           demo_world 1 demo_tms_drifted).
  - reflexivity.
  - vm_compute. reflexivity.
Defined.

(** The file of the example. *)
Lemma GenerateArtifacts_file_system_witness :
  let made := MkdirAll demo_os (PublicParametersDir (demo_platform true)) (fs demo_world) in
  let file := PublicParametersFile (demo_platform true) demo_tms in
  ∃ res w',
    GenerateArtifacts (demo_platform true) demo_os demo_fabric 0 demo_world = (res, w') ∧
    (fs w' = fs demo_world ∨ fs w' = made.2 ∨
     (made.1 = None ∧ ∃ ppRaw, fs w' = (WriteFile demo_os file ppRaw made.2).2)) ∧
    (res = Ok tt →
     ∃ g root x0 ppg ppRaw x1 x2,
       GetCryptoMaterialGenerator (demo_platform true) (Driver demo_tms) = Some g ∧
       Setup g demo_tms (ext demo_world) = ((root, None), x0) ∧
       GetPublicParamsGenerators (demo_platform true) (Driver demo_tms) = Some ppg ∧
       Generate ppg demo_tms (root :: PublicParamsGenArgs demo_tms) x1 = ((ppRaw, None), x2) ∧
       made.1 = None ∧
       WriteFile demo_os file ppRaw made.2 = (None, fs w')).
Proof.
  apply (GenerateArtifacts_file_system (demo_platform true) demo_os demo_fabric
           demo_world 0 demo_tms).
  reflexivity.
Defined.

(** The wallet of the example node, as the extension sees it. *)
Lemma ExtensionWallets_after_GenerateCryptoMaterial_witness :
  ∃ p wl,
    ExtensionWallets 0 demo_node demo_wallet_run.2 = (Ok (Some p), demo_wallet_run.2) ∧
    wallets demo_wallet_run.2 !! p = Some wl ∧
    produced_wallet demo_world demo_wallet_run.2 = Some wl.
Proof.
  apply (ExtensionWallets_after_GenerateCryptoMaterial demo_generator 0 demo_tms demo_node
           demo_world demo_wallet_run.2).
  - reflexivity.
  - vm_compute. reflexivity.
Defined.

(** The extension of a node, asked for before any artifact was generated. *)
Lemma ExtensionWallets_registers_unknown_descriptor_witness :
  ∃ o w',
    ExtensionWallets 0 demo_node demo_world = (Ok o, w') ∧
    (Entries demo_world !! entry_key demo_tms = None →
     o = None ∧
     Entries w' !! entry_key demo_tms = Some (length (entries demo_world)) ∧
     entries w' = entries demo_world ++ [ {| eTMS := 0; eTCC := None; eWallets := ∅ |} ]) ∧
    (∀ entry, Entries demo_world !! entry_key demo_tms = Some entry →
     w' = demo_world ∧ o = slot demo_world entry (Name demo_node)).
Proof.
  apply (ExtensionWallets_registers_unknown_descriptor 0 demo_tms demo_node demo_world).
  - reflexivity.
  - apply registry_wf_fresh.
Defined.

(** The three setups that fail. *)
Lemma GenerateArtifacts_stops_before_wallets_witness :
  GenerateArtifacts platform_without_generator demo_os demo_fabric 0 demo_world =
    (Panic NilDereference, (GetEntry 0 demo_world).2) ∧
  GenerateArtifacts platform_with_failing_setup demo_os demo_fabric 0 demo_world =
    (Panic ExpectationFailed, log (EvSetup 0) (set_ext 1 (GetEntry 0 demo_world).2)) ∧
  GenerateArtifacts platform_without_topology demo_os demo_fabric 0 demo_world =
    (Panic TypeAssertionFailed, log (EvSetup 0) (set_ext 1 (GetEntry 0 demo_world).2)).
Proof.
  split_and!.
  - destruct (GenerateArtifacts_stops_before_wallets platform_without_generator demo_os
                demo_fabric demo_world 0 demo_tms eq_refl)
      as (entry & w0 & Hget & Hnil & _).
    rewrite Hget. apply Hnil. reflexivity.
  - destruct (GenerateArtifacts_stops_before_wallets platform_with_failing_setup demo_os
                demo_fabric demo_world 0 demo_tms eq_refl)
      as (entry & w0 & Hget & _ & Hsetup).
    rewrite Hget.
    destruct (Hsetup failing_setup_generator "root" (Some "setup failed") 1 eq_refl eq_refl)
      as [Herr _].
    apply Herr. discriminate.
  - destruct (GenerateArtifacts_stops_before_wallets platform_without_topology demo_os
                demo_fabric demo_world 0 demo_tms eq_refl)
      as (entry & w0 & Hget & _ & Hsetup).
    rewrite Hget.
    destruct (Hsetup demo_generator "root" None 1 eq_refl eq_refl) as [_ Hnodes].
    apply Hnodes; reflexivity.
Defined.

(** The wallets of the two nodes of the example, as the extension sees
    them. *)
Lemma ExtensionWallets_after_GenerateArtifacts_witness :
  ∃ nodes,
    FSCNodes (demo_platform true) = Some nodes ∧
    ∀ node, node ∈ nodes →
      ∃ p, ExtensionWallets 0 node demo_artifacts_run.2 = (Ok (Some p), demo_artifacts_run.2) ∧
           length (wallets demo_world) ≤ p ∧
           is_Some (wallets demo_artifacts_run.2 !! p).
Proof.
  apply (ExtensionWallets_after_GenerateArtifacts (demo_platform true) demo_os demo_fabric
           demo_world 0 demo_tms).
  - reflexivity.
  - vm_compute. reflexivity.
Defined.

(** The setup that fails: the run stops right after it, the entry is
    registered, no wallet exists. *)
Example failed_setup_registers_entry :
  let run := GenerateArtifacts platform_with_failing_setup demo_os demo_fabric 0 demo_world in
  run.1 = Panic ExpectationFailed ∧
  trace run.2 = [EvSetup 0] ∧
  Entries run.2 !! "N1C1tokens" = Some 0 ∧
  wallets run.2 = [] ∧
  fs run.2 = [].
Proof. vm_compute. done. Qed.

(** Two nodes of one name: both get a wallet, the slot of the name is the
    second one's. *)
Example same_name_takes_the_slot :
  let twin := mkNode "org1peer" "twin-id" (mkOptions [] [] false true) in
  let platform := mkTokenPlatform (fun _ => Some demo_generator) (fun _ => Some demo_ppg)
                    "/tmp/nwo" (Some [demo_node; twin]) "/tmp/nwo/pp" (fun _ => "pp") in
  let run := GenerateArtifacts platform demo_os demo_fabric 0 demo_world in
  run.1 = Ok tt ∧
  length (wallets run.2) = 2 ∧
  slot run.2 0 "org1peer" = Some 1 ∧
  (Certifiers <$> lookup_wallet run.2 0 "org1peer") =
    Some [ mkIdentity "certifier:org1peer" true ].
Proof. vm_compute. done. Qed.
